(** * Verification model of the URL risk assessment pipeline of
    phishing-defense ([src/core/api_client.py], [src/core/heuristic_engine.py],
    [src/core/ml_engine.py], [src/ui/scanner_tab.py],
    [src/database/db_manager.py]).

    Modelling conventions.
    - A Python [str] is a Rocq [string]; its characters are the code points
      U+0000..U+00FF.  The character predicates below ([str.isspace],
      [str.isdigit], [str.lower], ...) are Python's on that range.  The
      properties are about strings of these characters; where a wider
      character changes what the code does, the property says so.
    - The standard library functions the code calls ([urllib.parse.urlparse],
      [urlsplit], [unquote], the [hostname] and [port] properties) are
      embedded after CPython 3.11's [Lib/urllib/parse.py].  The one piece left
      abstract is [_check_bracketed_host] (IPv6/IPvFuture validation through
      the [ipaddress] module), a parameter of the section below.
    - A Python exception is [Raises e]; a normal return is [Returns v].
    - Floats of the heuristic engine are real numbers (its entropy uses
      [math.log2]); floats of the VirusTotal client, the rate limiter, the
      model's scores, the risk gauge and the database are rationals.  Rounding errors of binary floating point are not
      modelled. *)

From Stdlib Require Import Bool Arith Lia List String Ascii ZArith NArith.
From Stdlib Require Import QArith Qround Reals Lra.
From Stdlib Require Import Qabs Qminmax.
From Stdlib Require Lqa.
Import ListNotations.
Set Warnings "-register-all".
Open Scope string_scope.
Open Scope nat_scope.

(** ** Python exceptions and results *)

(** The built-in class an exception is an instance of, which is what the
    code's [except] clauses test: the [JSONDecodeError] of [requests]
    ([resp.json()] on a body that is not JSON) subclasses [ValueError]. *)
Inductive exc_kind := ValueError | TypeError | KeyError | AttributeError | RuntimeError.

Record exc := mk_exc { exc_type : exc_kind; exc_msg : string }.

Inductive outcome (A : Type) : Type :=
| Returns (a : A)
| Raises (e : exc).
Arguments Returns {A} a.
Arguments Raises {A} e.

Definition obind {A B} (m : outcome A) (k : A -> outcome B) : outcome B :=
  match m with Returns a => k a | Raises e => Raises e end.

Definition omap {A B} (f : A -> B) (m : outcome A) : outcome B :=
  match m with Returns a => Returns (f a) | Raises e => Raises e end.

Notation "x <- m ;; k" := (obind m (fun x => k))
  (at level 61, m at next level, right associativity).

Definition raise_value_error {A} (msg : string) : outcome A :=
  Raises (mk_exc ValueError msg).

(** ** Characters *)

Definition code (c : ascii) : nat := nat_of_ascii c.

(** [str.isascii] *)
Definition is_ascii_char (c : ascii) : bool := code c <? 128.

(** [str.isspace] on U+0000..U+00FF *)
Definition is_space (c : ascii) : bool :=
  let n := code c in
  ((9 <=? n) && (n <=? 13)) || ((28 <=? n) && (n <=? 32)) || (n =? 133) || (n =? 160).

(** [str.isdigit] on U+0000..U+00FF: the ASCII digits and the superscripts
    U+00B2, U+00B3, U+00B9 *)
Definition is_digit (c : ascii) : bool :=
  let n := code c in
  ((48 <=? n) && (n <=? 57)) || (n =? 178) || (n =? 179) || (n =? 185).

Definition is_ascii_digit (c : ascii) : bool :=
  let n := code c in (48 <=? n) && (n <=? 57).

Definition is_ascii_alpha (c : ascii) : bool :=
  let n := code c in ((65 <=? n) && (n <=? 90)) || ((97 <=? n) && (n <=? 122)).

(** the character class [[0-9a-fA-F]] *)
Definition is_hex_digit (c : ascii) : bool :=
  let n := code c in
  is_ascii_digit c || ((65 <=? n) && (n <=? 70)) || ((97 <=? n) && (n <=? 102)).

(** [str.lower] on U+0000..U+00FF: A..Z and U+00C0..U+00DE except U+00D7 *)
Definition lower_char (c : ascii) : ascii :=
  let n := code c in
  if ((65 <=? n) && (n <=? 90)) || ((192 <=? n) && (n <=? 222) && negb (n =? 215))
  then ascii_of_nat (n + 32) else c.

(** ** String operations, after the [str] methods *)

Fixpoint lower (s : string) : string :=
  match s with
  | EmptyString => EmptyString
  | String c r => String (lower_char c) (lower r)
  end.

(** [c in s] for a one-character [c] *)
Fixpoint has_char (c : ascii) (s : string) : bool :=
  match s with
  | EmptyString => false
  | String d r => Ascii.eqb c d || has_char c r
  end.

Fixpoint forall_chars (p : ascii -> bool) (s : string) : bool :=
  match s with
  | EmptyString => true
  | String c r => p c && forall_chars p r
  end.

Fixpoint count_chars (p : ascii -> bool) (s : string) : nat :=
  match s with
  | EmptyString => 0
  | String c r => (if p c then 1 else 0) + count_chars p r
  end.

(** [s.count(c)] for a one-character [c] *)
Definition count_char (c : ascii) (s : string) : nat := count_chars (Ascii.eqb c) s.

(** [s.startswith(p)] *)
Fixpoint starts_with (p s : string) : bool :=
  match p, s with
  | EmptyString, _ => true
  | String c p', String d s' => Ascii.eqb c d && starts_with p' s'
  | String _ _, EmptyString => false
  end.

(** [s.endswith(p)] *)
Definition ends_with (p s : string) : bool :=
  let n := String.length s in
  let m := String.length p in
  (m <=? n) && String.eqb (substring (n - m) m s) p.

(** [needle in hay] *)
Fixpoint contains (needle hay : string) : bool :=
  starts_with needle hay ||
  match hay with
  | EmptyString => false
  | String _ r => contains needle r
  end.

(** [s.find(c)] and a split there: text before and after the first [c] *)
Fixpoint split_first (c : ascii) (s : string) : option (string * string) :=
  match s with
  | EmptyString => None
  | String d r =>
      if Ascii.eqb c d then Some (EmptyString, r)
      else match split_first c r with
           | Some (a, b) => Some (String d a, b)
           | None => None
           end
  end.

(** [s.rfind(c)] and a split there: text before and after the last [c] *)
Fixpoint split_last (c : ascii) (s : string) : option (string * string) :=
  match s with
  | EmptyString => None
  | String d r =>
      match split_last c r with
      | Some (a, b) => Some (String d a, b)
      | None => if Ascii.eqb c d then Some (EmptyString, r) else None
      end
  end.

(** [s.partition(c)] *)
Definition partition (c : ascii) (s : string) : string * bool * string :=
  match split_first c s with
  | Some (a, b) => (a, true, b)
  | None => (s, false, EmptyString)
  end.

(** [s.rpartition(c)] *)
Definition rpartition (c : ascii) (s : string) : string * bool * string :=
  match split_last c s with
  | Some (a, b) => (a, true, b)
  | None => (EmptyString, false, s)
  end.

(** [s.split(c)] *)
Fixpoint split_on (c : ascii) (s : string) : list string :=
  match s with
  | EmptyString => [EmptyString]
  | String d r =>
      if Ascii.eqb c d then EmptyString :: split_on c r
      else match split_on c r with
           | x :: xs => String d x :: xs
           | [] => [String d EmptyString]
           end
  end.

(** [s.lstrip(chars)] with the stripped characters given by a predicate *)
Fixpoint lstrip_by (p : ascii -> bool) (s : string) : string :=
  match s with
  | EmptyString => EmptyString
  | String c r => if p c then lstrip_by p r else s
  end.

(** [s.rstrip(chars)] *)
Fixpoint rstrip_by (p : ascii -> bool) (s : string) : string :=
  match s with
  | EmptyString => EmptyString
  | String c r =>
      let r' := rstrip_by p r in
      if p c && String.eqb r' EmptyString then EmptyString else String c r'
  end.

(** [s.strip()] *)
Definition py_strip (s : string) : string := rstrip_by is_space (lstrip_by is_space s).

(** [s.replace(c, "")] for the characters selected by a predicate *)
Fixpoint remove_chars (p : ascii -> bool) (s : string) : string :=
  match s with
  | EmptyString => EmptyString
  | String c r => if p c then remove_chars p r else String c (remove_chars p r)
  end.

(** The longest prefix free of the characters selected by [p], and the rest. *)
Fixpoint break_at (p : ascii -> bool) (s : string) : string * string :=
  match s with
  | EmptyString => (EmptyString, EmptyString)
  | String c r =>
      if p c then (EmptyString, s)
      else let '(a, b) := break_at p r in (String c a, b)
  end.

(** [s[n:]] *)
Fixpoint drop (n : nat) (s : string) : string :=
  match n, s with
  | O, _ => s
  | S _, EmptyString => EmptyString
  | S n', String _ r => drop n' r
  end.

(** [s[:n]] *)
Fixpoint take (n : nat) (s : string) : string :=
  match n, s with
  | O, _ => EmptyString
  | S _, EmptyString => EmptyString
  | S n', String c r => String c (take n' r)
  end.

(** [int(s)] for a string of ASCII digits *)
Fixpoint digits_value_from (acc : N) (s : string) : N :=
  match s with
  | EmptyString => acc
  | String c r => digits_value_from (acc * 10 + N.of_nat (code c - 48))%N r
  end.

Definition digits_value (s : string) : N := digits_value_from 0%N s.

Definition digit_char (d : N) : ascii := ascii_of_N (48 + d).

Fixpoint dec_from (fuel : nat) (n : N) (acc : string) : string :=
  match fuel with
  | O => acc
  | S f =>
      let acc' := String (digit_char (n mod 10)) acc in
      if (n <? 10)%N then acc' else dec_from f (n / 10)%N acc'
  end.

(** [str(n)] for a natural number (one digit per step; [log2 n + 1] steps
    are enough). *)
Definition dec (n : N) : string := dec_from (S (N.to_nat (N.log2 n))) n EmptyString.

(** ** [repr] of a string *)

(** [Py_hexdigits] *)
Definition hex_char (d : nat) : ascii :=
  if d <? 10 then ascii_of_nat (48 + d) else ascii_of_nat (87 + d).

(** [str.isprintable] on U+0000..U+00FF: the controls, U+007F..U+00A0 and
    the soft hyphen U+00AD are not printable. *)
Definition is_printable (c : ascii) : bool :=
  let n := code c in
  (32 <=? n) && negb ((127 <=? n) && (n <=? 160)) && negb (n =? 173).

(** One character of [repr(s)] between quotes [quote] ([unicode_repr]) *)
Definition repr_char (quote c : ascii) : string :=
  let n := code c in
  if Ascii.eqb c quote || (n =? 92) then String "\" (String c EmptyString)
  else if n =? 9 then "\t"
  else if n =? 10 then "\n"
  else if n =? 13 then "\r"
  else if is_printable c then String c EmptyString
  else String "\" (String "x" (String (hex_char (n / 16)) (String (hex_char (n mod 16)) EmptyString))).

Fixpoint repr_body (quote : ascii) (s : string) : string :=
  match s with
  | EmptyString => EmptyString
  | String c r => repr_char quote c ++ repr_body quote r
  end.

(** [repr(s)]: between single quotes, unless [s] holds a single quote and
    no double quote (U+0022) *)
Definition py_repr (s : string) : string :=
  let dq := ascii_of_nat 34 in
  let quote := if has_char "'" s && negb (has_char dq s) then dq else "'"%char in
  String quote (repr_body quote s ++ String quote EmptyString).

(** ** [urllib.parse] (CPython 3.11) *)

Record split_result := mk_split {
  sr_scheme : string; sr_netloc : string; sr_path : string;
  sr_query : string; sr_fragment : string }.

Record parse_result := mk_parse {
  pr_scheme : string; pr_netloc : string; pr_path : string;
  pr_params : string; pr_query : string; pr_fragment : string }.

(** [scheme_chars] *)
Definition scheme_char (c : ascii) : bool :=
  is_ascii_alpha c || is_ascii_digit c || has_char c "+-.".

(** [_WHATWG_C0_CONTROL_OR_SPACE] *)
Definition c0_control_or_space (c : ascii) : bool := code c <=? 32.

(** [_UNSAFE_URL_BYTES_TO_REMOVE]: tab, CR, LF *)
Definition unsafe_url_byte (c : ascii) : bool :=
  (code c =? 9) || (code c =? 13) || (code c =? 10).

Definition netloc_delim (c : ascii) : bool := has_char c "/?#".

Definition uses_params : list string :=
  [""; "ftp"; "hdl"; "prospero"; "http"; "imap"; "https"; "shttp"; "rtsp";
   "rtspu"; "sip"; "sips"; "mms"; "sftp"; "tel"].

Section UrlLib.

(** [_check_bracketed_host(hostname)]: [None] when it returns, [Some msg]
    when it raises [ValueError(msg)]. *)
Variable check_bracketed_host : string -> option string.

Definition run_check_bracketed_host (hostname : string) : outcome unit :=
  match check_bracketed_host hostname with
  | None => Returns tt
  | Some msg => raise_value_error msg
  end.

(** [_check_bracketed_netloc] *)
Definition check_bracketed_netloc (netloc : string) : outcome unit :=
  let '(_, _, hostname_and_port) := rpartition "@" netloc in
  let '(before_bracket, have_open_br, bracketed) := partition "[" hostname_and_port in
  if have_open_br then
    if negb (String.eqb before_bracket "") then raise_value_error "Invalid IPv6 URL"
    else
      let '(hostname, _, port) := partition "]" bracketed in
      if negb (String.eqb port "") && negb (starts_with ":" port)
      then raise_value_error "Invalid IPv6 URL"
      else run_check_bracketed_host hostname
  else
    let '(hostname, _, _) := partition ":" hostname_and_port in
    run_check_bracketed_host hostname.

(** The netloc step of [urlsplit]: when the text after the scheme starts
    with [//], [_splitnetloc(url, 2)] and the bracket checks; the netloc and
    the rest. *)
Definition netloc_part (url2 : string) : outcome (string * string) :=
  if starts_with "//" url2 then
    let '(netloc, rest) := break_at netloc_delim (drop 2 url2) in
    if (has_char "[" netloc && negb (has_char "]" netloc)) ||
       (has_char "]" netloc && negb (has_char "[" netloc))
    then raise_value_error "Invalid IPv6 URL"
    else if has_char "[" netloc && has_char "]" netloc
    then (_ <- check_bracketed_netloc netloc ;; Returns (netloc, rest))
    else Returns (netloc, rest)
  else Returns (EmptyString, url2).

(** [unicodedata.normalize('NFKC', c)] for a character of U+0000..U+00FF,
    as code points; the characters not listed are their own NFKC form. *)
Definition nfkc_char (c : ascii) : list N :=
  match N_of_ascii c with
  | 160 => [32] | 168 => [32; 776] | 170 => [97] | 175 => [32; 772]
  | 178 => [50] | 179 => [51] | 180 => [32; 769] | 181 => [956]
  | 184 => [32; 807] | 185 => [49] | 186 => [111]
  | 188 => [49; 8260; 52] | 189 => [49; 8260; 50] | 190 => [51; 8260; 52]
  | n => [n]
  end%N.

(** [unicodedata.normalize('NFKC', s)]: on U+0000..U+00FF no character
    composes with its neighbours under NFKC, so the form of a string is the
    concatenation of the forms of its characters. *)
Definition nfkc (s : string) : list N := flat_map nfkc_char (list_ascii_of_string s).

Definition code_points (s : string) : list N := map N_of_ascii (list_ascii_of_string s).

(** [_checknetloc(netloc)] *)
Definition checknetloc (netloc : string) : outcome unit :=
  if String.eqb netloc "" || forall_chars is_ascii_char netloc then Returns tt
  else
    let n := remove_chars (fun c => has_char c "@:#?") netloc in
    let netloc2 := nfkc n in
    if list_eq_dec N.eq_dec (code_points n) netloc2 then Returns tt
    else if existsb (fun x => existsb (N.eqb x) (code_points "/?#@:")) netloc2
    then raise_value_error ("netloc '" ++ netloc ++ "' contains invalid " ++
                            "characters under NFKC normalization")
    else Returns tt.

Arguments checknetloc : simpl never.

(** [urlsplit(url)] with [scheme=''] and [allow_fragments=True].
    [_splitnetloc(url, 2)] cuts [url[2:]] at the earliest of [/ ? #]. *)
Definition urlsplit (url0 : string) : outcome split_result :=
  let url1 := remove_chars unsafe_url_byte (lstrip_by c0_control_or_space url0) in
  let '(scheme, url2) :=
    match split_first ":" url1 with
    | Some (before, after) =>
        match before with
        | String c0 _ =>
            if is_ascii_char c0 && is_ascii_alpha c0 && forall_chars scheme_char before
            then (lower before, after) else (EmptyString, url1)
        | EmptyString => (EmptyString, url1)
        end
    | None => (EmptyString, url1)
    end in
  nl <- netloc_part url2 ;;
  let '(netloc, url3) := nl in
  let '(url4, fragment) :=
    match split_first "#" url3 with Some (a, b) => (a, b) | None => (url3, EmptyString) end in
  let '(url5, query) :=
    match split_first "?" url4 with Some (a, b) => (a, b) | None => (url4, EmptyString) end in
  _ <- checknetloc netloc ;;
  Returns (mk_split scheme netloc url5 query fragment).

(** [_splitparams(url)] (called when [';' in url]) *)
Definition splitparams (url : string) : string * string :=
  match split_last "/" url with
  | Some (before, last) =>
      match split_first ";" last with
      | Some (a, b) => (before ++ String "/" a, b)
      | None => (url, EmptyString)
      end
  | None =>
      match split_first ";" url with
      | Some (a, b) => (a, b)
      | None => (take (String.length url - 1) url, url)
      end
  end.

(** [urlparse(url)] *)
Definition urlparse (url : string) : outcome parse_result :=
  sr <- urlsplit url ;;
  let '(path, params) :=
    if existsb (String.eqb (sr_scheme sr)) uses_params && has_char ";" (sr_path sr)
    then splitparams (sr_path sr) else (sr_path sr, EmptyString) in
  Returns (mk_parse (sr_scheme sr) (sr_netloc sr) path params (sr_query sr) (sr_fragment sr)).

End UrlLib.

(** [_hostinfo] of a netloc: the host text and the port text ([None] when
    empty). *)
Definition hostinfo (netloc : string) : string * option string :=
  let '(_, _, hinfo) := rpartition "@" netloc in
  let '(_, have_open_br, bracketed) := partition "[" hinfo in
  let '(hostname, port) :=
    if have_open_br then
      let '(h, _, p) := partition "]" bracketed in
      let '(_, _, p') := partition ":" p in (h, p')
    else let '(h, _, p) := partition ":" hinfo in (h, p) in
  (hostname, if String.eqb port "" then None else Some port).

(** the [hostname] property *)
Definition hostname (netloc : string) : option string :=
  let h := fst (hostinfo netloc) in
  if String.eqb h "" then None
  else let '(a, pct, zone) := partition "%" h in
       Some (lower a ++ (if pct then "%" else "") ++ zone).

(** the [port] property *)
Definition port (netloc : string) : outcome (option N) :=
  match snd (hostinfo netloc) with
  | None => Returns None
  | Some p =>
      if forall_chars is_digit p && forall_chars is_ascii_char p then
        let n := digits_value p in
        if (n <=? 65535)%N then Returns (Some n)
        else raise_value_error "Port out of range 0-65535"
      else raise_value_error ("Port could not be cast to integer value as " ++ py_repr p)
  end.

(** [if not url.startswith(("http://", "https://")): url = "http://" + url],
    in [_normalize_url] and in [analyze_url] *)
Definition http_prefixed (url : string) : string :=
  if starts_with "http://" url || starts_with "https://" url then url else "http://" ++ url.

(** ** [api_client._normalize_url] *)
Definition normalize_url (chk : string -> option string) (url0 : string) : outcome string :=
  parsed <- urlparse chk (http_prefixed (py_strip url0)) ;;
  let n1 := lower (pr_scheme parsed) ++ "://" ++
            lower (match hostname (pr_netloc parsed) with Some h => h | None => "" end) in
  prt <- port (pr_netloc parsed) ;;
  let n2 := match prt with
            | Some p =>
                if (p =? 0)%N || (p =? 80)%N || (p =? 443)%N then n1
                else n1 ++ ":" ++ dec p
            | None => n1
            end in
  let path := rstrip_by (Ascii.eqb "/") (pr_path parsed) in
  let n3 := n2 ++ (if String.eqb path "" then "/" else path) in
  let n4 := if String.eqb (pr_query parsed) "" then n3 else n3 ++ "?" ++ pr_query parsed in
  Returns n4.

Definition no_brackets : string -> option string := fun _ => None.

(** ** [urllib.parse.unquote] *)

(** One unit of [unquote]'s input after percent-decoding: a byte of an ASCII
    run ([_asciire] splits the text into ASCII and non-ASCII runs and decodes
    only the ASCII ones), or a non-ASCII character kept as it is. *)
Inductive utok := UByte (b : N) | UChar (c : ascii).

Definition hex_value (c : ascii) : N :=
  let n := code c in
  N.of_nat (if (48 <=? n) && (n <=? 57) then n - 48
            else if (65 <=? n) && (n <=? 70) then n - 55 else n - 87).

(** [unquote_to_bytes] on ASCII runs: [%XX] with two hex digits becomes one
    byte; any other [%] stays. *)
Fixpoint percent_scan (s : string) : list utok :=
  match s with
  | EmptyString => []
  | String c r =>
      if negb (is_ascii_char c) then UChar c :: percent_scan r
      else if Ascii.eqb c "%" then
        match r with
        | String a (String b r') =>
            if is_hex_digit a && is_hex_digit b
            then UByte (hex_value a * 16 + hex_value b)%N :: percent_scan r'
            else UByte 37 :: percent_scan r
        | _ => UByte 37 :: percent_scan r
        end
      else UByte (N.of_nat (code c)) :: percent_scan r
  end.

(** [bytes.decode('utf-8', 'replace')] of each run.  A byte below 0x80 is one
    character; 0xC2/0xC3 followed by a continuation byte is a character of
    U+0080..U+00FF.  Every other non-ASCII byte decodes to U+FFFD or to a code
    point above U+00FF, which a [string] of this model cannot hold: [None]. *)
Fixpoint decode_utoks (ts : list utok) : option string :=
  match ts with
  | [] => Some EmptyString
  | UChar c :: r => option_map (String c) (decode_utoks r)
  | UByte b :: r =>
      if (b <? 128)%N then option_map (String (ascii_of_N b)) (decode_utoks r)
      else match r with
           | UByte b2 :: r' =>
               if ((b =? 194)%N || (b =? 195)%N) && (128 <=? b2)%N && (b2 <? 192)%N
               then option_map (String (ascii_of_N ((b - 192) * 64 + (b2 - 128))))
                      (decode_utoks r')
               else None
           | _ => None
           end
  end.

Definition unquote (s : string) : option string :=
  if negb (has_char "%" s) then Some s else decode_utoks (percent_scan s).

(** ** [heuristic_engine] constants *)

Definition SUSPICIOUS_KEYWORDS : list string :=
  ["login"; "signin"; "sign-in"; "verify"; "secure"; "account";
   "update"; "confirm"; "bank"; "paypal"; "password"; "credential";
   "suspend"; "alert"; "urgent"; "click"; "free"; "winner"; "prize";
   "bonus"; "offer"; "gift"; "reward"; "billing"; "invoice";
   "authenticate"; "wallet"; "recover"; "unlock"; "validate";
   "webscr"; "cmd"; "token"; "auth"; "sso"; "oauth"].

(** [HIGH_RISK_TLDS], in dict order; every weight is a whole number. *)
Definition HIGH_RISK_TLDS : list (string * nat) :=
  [(".tk", 8); (".ml", 8); (".ga", 8); (".cf", 8); (".gq", 8);
   (".xyz", 6); (".top", 6); (".pw", 7); (".cc", 5); (".club", 5);
   (".work", 5); (".buzz", 6); (".icu", 6); (".cam", 5); (".surf", 5);
   (".link", 4); (".click", 5); (".info", 3); (".biz", 3); (".online", 4);
   (".site", 4); (".store", 3); (".fun", 4)].

Definition TARGET_BRANDS : list (string * list string) :=
  [("facebook", ["faceb00k"; "facbook"; "facebk"; "fb-login"; "faceb0ok"]);
   ("google", ["g00gle"; "gogle"; "googl"; "go0gle"; "goog1e"]);
   ("paypal", ["paypa1"; "paypall"; "pay-pal"; "payp4l"]);
   ("microsoft", ["micros0ft"; "microsft"; "m1crosoft"; "micr0soft"]);
   ("apple", ["app1e"; "appie"; "apple-id"; "appl3"]);
   ("amazon", ["amaz0n"; "amazn"; "arnazon"; "amzon"]);
   ("netflix", ["netf1ix"; "netflex"; "netfl1x"]);
   ("instagram", ["1nstagram"; "instagran"; "lnstagram"]);
   ("twitter", ["tw1tter"; "tvvitter"; "twiiter"]);
   ("linkedin", ["linkedln"; "l1nkedin"; "linkdin"])].

(** [HOMOGRAPH_MAP] as (code point, look-alike); the literal lists U+0443
    twice, the dict keeps its first position and its last value. *)
Definition HOMOGRAPH_MAP : list (N * string) :=
  [(0x430, "a"); (0x435, "e"); (0x43e, "o"); (0x440, "p");
   (0x441, "c"); (0x443, "u"); (0x445, "x"); (0x4bb, "h");
   (0x456, "i"); (0x458, "j"); (0x4cf, "l"); (0x43d, "n");
   (0x455, "s"); (0x442, "t"); (0x44a, "b"); (0x432, "v");
   (0x448, "w"); (0x437, "3")]%N.

(** ** Feature extraction helpers *)

(** [Counter(text)]: distinct characters in first-occurrence order, with
    their counts *)
Fixpoint counter_add (c : ascii) (l : list (ascii * nat)) : list (ascii * nat) :=
  match l with
  | [] => [(c, 1)]
  | (d, k) :: r => if Ascii.eqb c d then (d, S k) :: r else (d, k) :: counter_add c r
  end.

Fixpoint counter_from (acc : list (ascii * nat)) (s : string) : list (ascii * nat) :=
  match s with
  | EmptyString => acc
  | String c r => counter_from (counter_add c acc) r
  end.

Definition counter (s : string) : list (ascii * nat) := counter_from [] s.

Definition log2 (x : R) : R := (ln x / ln 2)%R.

(** [_shannon_entropy] *)
Definition shannon_entropy (text : string) : R :=
  if String.eqb text "" then 0%R
  else
    let length := INR (String.length text) in
    (- fold_left (fun acc (kc : ascii * nat) =>
                    let c := INR (snd kc) in acc + (c / length) * log2 (c / length))
                 (counter text) 0)%R.

(** [_is_ip_address]: [re.match] of
    [^(\d{1,3}\.){3}\d{1,3}$|^\[?[0-9a-fA-F:]+\]?$]; [$] also matches just
    before a final newline, and [\d] on U+0000..U+00FF is [0-9]. *)
Definition ipv4_body (s : string) : bool :=
  match split_on "." s with
  | [a; b; c; d] =>
      forallb (fun p => (1 <=? String.length p) && (String.length p <=? 3) &&
                        forall_chars is_ascii_digit p) [a; b; c; d]
  | _ => false
  end.

Definition ipv6_body (s : string) : bool :=
  let s1 := match s with String c r => if Ascii.eqb c "[" then r else s | _ => s end in
  let s2 := if ends_with "]" s1 then take (String.length s1 - 1) s1 else s1 in
  negb (String.eqb s2 "") && forall_chars (fun c => is_hex_digit c || Ascii.eqb c ":") s2.

Definition dollar_match (body : string -> bool) (s : string) : bool :=
  body s || (ends_with (String (ascii_of_nat 10) EmptyString) s &&
             body (take (String.length s - 1) s)).

Definition is_ip_address (host : string) : bool :=
  dollar_match ipv4_body host || dollar_match ipv6_body host.

(** [_levenshtein]: the row-by-row dynamic programme *)
Fixpoint lev_row (c1 : ascii) (s2 : list ascii) (prev : list nat) (left : nat) : list nat :=
  match s2, prev with
  | c2 :: s2', pj :: ((pj1 :: _) as prev') =>
      let v := Nat.min (Nat.min (pj1 + 1) (left + 1))
                       (pj + (if Ascii.eqb c1 c2 then 0 else 1)) in
      v :: lev_row c1 s2' prev' v
  | _, _ => []
  end.

Fixpoint lev_rows (s1 : list ascii) (i : nat) (s2 : list ascii) (prev : list nat) : list nat :=
  match s1 with
  | [] => prev
  | c1 :: s1' => lev_rows s1' (S i) s2 (S i :: lev_row c1 s2 prev (S i))
  end.

Definition levenshtein (s1 s2 : string) : nat :=
  let '(a, b) := if String.length s1 <? String.length s2 then (s2, s1) else (s1, s2) in
  if String.length b =? 0 then String.length a
  else last (lev_rows (list_ascii_of_string a) 0 (list_ascii_of_string b)
                      (seq 0 (String.length b + 1))) 0.

(** [_detect_homographs] *)
Definition detect_homographs (domain : string) : list (N * string) :=
  flat_map (fun c => match find (fun kv => N.eqb (fst kv) (N.of_nat (code c))) HOMOGRAPH_MAP with
                     | Some kv => [kv]
                     | None => []
                     end) (list_ascii_of_string domain).

(** [_detect_brand_spoofing] *)
Definition detect_brand_spoofing (domain : string) : list (string * nat) :=
  let domain_lower := lower domain in
  flat_map (fun bv =>
    let '(brand, variants) := bv in
    app (if contains brand domain_lower then
           let core := hd EmptyString (split_on "." domain_lower) in
           if negb (String.eqb core brand) then [(brand, 0)] else []
         else [])
        (flat_map (fun variant =>
                     if contains variant domain_lower
                     then [(brand ++ " (variant: " ++ variant ++ ")", levenshtein variant brand)]
                     else []) variants)) TARGET_BRANDS.


(** ** [analyze_url] *)

(** The part of [analyze_url] before the checks: [unquote], [strip], the
    [http://] prefix, [urlparse], [hostname or ""] and [path].  [None] when
    [unquote] leaves the Latin-1 range of this model. *)
Record hparsed := mk_hparsed {
  hp_url : string; hp_scheme : string; hp_host : string; hp_path : string }.

Definition heuristic_parse (chk : string -> option string) (url0 : string)
  : option (outcome hparsed) :=
  match unquote url0 with
  | None => None
  | Some u =>
      let u2 := http_prefixed (py_strip u) in
      Some (omap (fun parsed =>
                    mk_hparsed u2 (pr_scheme parsed)
                      (match hostname (pr_netloc parsed) with Some h => h | None => "" end)
                      (pr_path parsed))
                 (urlparse chk u2))
  end.

(** The values [analyze_url] measures on the host, the path and the URL (the
    entropy apart), in the order of its twelve checks. *)
Record measures := mk_measures {
  m_domain_len : nat;
  m_hyphen_count : nat;
  m_keywords : list string;
  m_tld_score : nat;
  m_is_ip : bool;
  m_subdomain_depth : Z;
  m_homographs : list (N * string);
  m_brand_hits : list (string * nat);
  m_uses_https : bool;
  m_path_depth : nat;
  m_at_sign : bool;
  m_digit_count : nat }.

Definition measure (hp : hparsed) : measures :=
  let host := hp_host hp in
  let path := hp_path hp in
  let full := host ++ path in
  mk_measures
    (String.length host)
    (count_char "-" host)
    (filter (fun kw => contains kw (lower full)) SUSPICIOUS_KEYWORDS)
    (match find (fun tr => ends_with (fst tr) host) HIGH_RISK_TLDS with
     | Some (_, risk) => risk
     | None => 0
     end)
    (is_ip_address host)
    (if String.eqb host "" then 0%Z else (Z.of_nat (count_char "." host) - 1)%Z)
    (detect_homographs host)
    (detect_brand_spoofing host)
    (String.eqb (hp_scheme hp) "https")
    (List.length (filter (fun p => negb (String.eqb p "")) (split_on "/" path)))
    (has_char "@" (hp_url hp))
    (count_chars is_digit host).

(** A reasoning line, kept as the values formatted into it. *)
Inductive reason :=
| RLongDomain (len : nat) (penalty : R)
| RHighEntropy (entropy : R) (penalty : R)
| RHyphens (count : nat) (penalty : R)
| RKeywords (found : list string) (penalty : R)
| RRiskyTld (risk : R)
| RRawIP
| RDeepSubdomains (depth : Z) (penalty : R)
| RHomographs (found : list (N * string)) (penalty : R)
| RBrandSpoofing (hits : list (string * nat)) (penalty : R)
| RNoHttps
| RDeepPath (depth : nat) (penalty : R)
| RAtSign
| RDigitRatio (ratio : R) (penalty : R)
| RNoIndicators.

Definition digit_ratio (host_len digits : nat) : R :=
  if host_len =? 0 then 0%R else (INR digits / INR host_len)%R.

(** The twelve checks; each returns the [(reasoning line, amount added to
    score)] pairs it produces (none or one; check 11 has two parts). *)
Definition check_domain_length (n : nat) : list (reason * R) :=
  if 30 <? n then let p := Rmin ((INR n - 30) * 0.5) 12 in [(RLongDomain n p, p)] else [].

Definition check_entropy (e : R) : list (reason * R) :=
  if Rlt_dec 3.8 e then let p := Rmin ((e - 3.8) * 8) 15 in [(RHighEntropy e p, p)] else [].

Definition check_hyphens (k : nat) : list (reason * R) :=
  if 2 <=? k then let p := Rmin (INR k * 3) 12 in [(RHyphens k p, p)] else [].

Definition check_keywords (found : list string) : list (reason * R) :=
  match found with
  | [] => []
  | _ => let p := Rmin (INR (List.length found) * 4) 20 in [(RKeywords found p, p)]
  end.

Definition check_tld (tld_score : nat) : list (reason * R) :=
  if tld_score =? 0 then [] else [(RRiskyTld (INR tld_score), INR tld_score)].

Definition check_ip (is_ip : bool) : list (reason * R) :=
  if is_ip then [(RRawIP, 15%R)] else [].

Definition check_subdomains (d : Z) : list (reason * R) :=
  if (3 <=? d)%Z then let p := Rmin (IZR (d - 2) * 4) 12 in [(RDeepSubdomains d p, p)] else [].

Definition check_homographs (found : list (N * string)) : list (reason * R) :=
  match found with
  | [] => []
  | _ => let p := Rmin (INR (List.length found) * 8) 20 in [(RHomographs found p, p)]
  end.

Definition check_brands (hits : list (string * nat)) : list (reason * R) :=
  match hits with
  | [] => []
  | _ => let p := Rmin (INR (List.length hits) * 8) 20 in [(RBrandSpoofing hits p, p)]
  end.

Definition check_https (uses_https : bool) : list (reason * R) :=
  if uses_https then [] else [(RNoHttps, 5%R)].

Definition check_path (depth : nat) (at_sign : bool) : list (reason * R) :=
  app (if 5 <? depth then let p := Rmin (INR (depth - 5) * 2) 8 in [(RDeepPath depth p, p)] else [])
      (if at_sign then [(RAtSign, 10%R)] else []).

Definition check_digits (ratio : R) : list (reason * R) :=
  if Rlt_dec 0.3 ratio then let p := Rmin (ratio * 20) 10 in [(RDigitRatio ratio p, p)] else [].

Definition contributions (m : measures) (e : R) : list (reason * R) :=
  (check_domain_length (m_domain_len m) ++
  check_entropy e ++
  check_hyphens (m_hyphen_count m) ++
  check_keywords (m_keywords m) ++
  check_tld (m_tld_score m) ++
  check_ip (m_is_ip m) ++
  check_subdomains (m_subdomain_depth m) ++
  check_homographs (m_homographs m) ++
  check_brands (m_brand_hits m) ++
  check_https (m_uses_https m) ++
  check_path (m_path_depth m) (m_at_sign m) ++
  check_digits (digit_ratio (m_domain_len m) (m_digit_count m)))%list.

(** [round(x, nd)]: the nearest multiple of [10^-nd], ties to even. *)
Definition round_half_even (y : R) : Z :=
  let f := Int_part y in
  let r := (y - IZR f)%R in
  if Rlt_dec r (1 / 2) then f
  else if Rlt_dec (1 / 2) r then (f + 1)%Z
  else if Z.even f then f else (f + 1)%Z.

Definition py_round (x : R) (nd : nat) : R := (IZR (round_half_even (x * 10 ^ nd)) / 10 ^ nd)%R.

Definition classify (score : R) : string :=
  if Rlt_dec score 30 then "Safe" else if Rlt_dec score 65 then "Suspicious" else "Phishing".

Record features := mk_features {
  f_domain_length : nat; f_entropy : R; f_hyphen_count : nat;
  f_suspicious_keywords : list string; f_tld_risk : R; f_is_ip_address : bool;
  f_subdomain_depth : Z; f_homograph_chars : list (N * string);
  f_brand_spoofing : list (string * nat); f_uses_https : bool;
  f_path_depth : nat; f_has_at_sign : bool; f_digit_ratio : R }.

Record heuristic_result := mk_hresult {
  h_risk_score : R; h_classification : string; h_confidence : R;
  h_features : features; h_reasoning : list reason; h_engine : string }.

Definition sum_amounts (cs : list (reason * R)) : R :=
  fold_left (fun acc c => (acc + snd c)%R) cs 0%R.

Definition score_measures (m : measures) (e : R) : heuristic_result :=
  let cs := contributions m e in
  let score := Rmax 0 (Rmin 100 (sum_amounts cs)) in
  let classification := classify score in
  let active_features := List.length cs in
  let confidence := Rmin (0.5 + (INR active_features / 12) * 0.5) 1 in
  let reasons := match cs with [] => [RNoIndicators] | _ => map fst cs end in
  mk_hresult (py_round score 2) classification (py_round confidence 3)
    (mk_features (m_domain_len m) (py_round e 3) (m_hyphen_count m) (m_keywords m)
       (INR (m_tld_score m)) (m_is_ip m) (Z.max (m_subdomain_depth m) 0)
       (m_homographs m) (m_brand_hits m) (m_uses_https m) (m_path_depth m)
       (m_at_sign m) (py_round (digit_ratio (m_domain_len m) (m_digit_count m)) 3))
    reasons "Heuristic Engine v2.0".

Definition analyze_parsed (hp : hparsed) : heuristic_result :=
  score_measures (measure hp) (shannon_entropy (hp_host hp)).

(** [heuristic_engine.analyze_url] *)
Definition analyze_url (chk : string -> option string) (url : string)
  : option (outcome heuristic_result) :=
  option_map (omap analyze_parsed) (heuristic_parse chk url).

(** ** [api_client._build_result] *)

(** A JSON value as [requests]' [resp.json()] returns it; numbers are
    rationals. *)
Inductive json :=
| JNull
| JBool (b : bool)
| JNum (q : Q)
| JStr (s : string)
| JArr (l : list json)
| JObj (kv : list (string * json)).

(** A JSON object with a repeated key keeps the last value. *)
Fixpoint assoc_last (k : string) (kv : list (string * json)) : option json :=
  match kv with
  | [] => None
  | (k', v) :: r =>
      match assoc_last k r with
      | Some x => Some x
      | None => if String.eqb k k' then Some v else None
      end
  end.

(** [d[k]] with a string key *)
Definition py_getitem (d : json) (k : string) : outcome json :=
  match d with
  | JObj kv =>
      match assoc_last k kv with
      | Some v => Returns v
      | None => Raises (mk_exc KeyError k)
      end
  | _ => Raises (mk_exc TypeError "indices must be integers")
  end.

(** [d.get(k, default)]: only a [dict] has [get]. *)
Definition py_get (d : json) (k : string) (default : json) : outcome json :=
  match d with
  | JObj kv => Returns (match assoc_last k kv with Some v => v | None => default end)
  | _ => Raises (mk_exc AttributeError "get")
  end.

(** The JSON values [+] and [/] accept as numbers ([bool] is an [int]). *)
Definition as_number (j : json) : option Q :=
  match j with
  | JNum q => Some q
  | JBool b => Some (if b then 1 else 0)%Q
  | _ => None
  end.

Definition qlt (a b : Q) : bool := negb (Qle_bool b a).

(** [round(x, nd)] on rationals, ties to even *)
Definition q_round_half_even (y : Q) : Z :=
  let f := Qfloor y in
  let r := (y - inject_Z f)%Q in
  if qlt r (1 # 2) then f
  else if qlt (1 # 2) r then (f + 1)%Z
  else if Z.even f then f else (f + 1)%Z.

Definition q_py_round (x : Q) (nd : nat) : Q :=
  (inject_Z (q_round_half_even (x * inject_Z (10 ^ Z.of_nat nd))) /
   inject_Z (10 ^ Z.of_nat nd))%Q.

(** The classification of [_build_result] *)
Definition vt_classify (risk_score : Q) : string :=
  if qlt risk_score 15 then "Safe"
  else if qlt risk_score 50 then "Suspicious"
  else "Phishing".

(** The classification thresholds the specification states in its section
    4.2 ([< 30] Safe, [< 65] Suspicious, else Phishing), as a function of a
    rational score, to compare with [vt_classify]. *)
Definition spec_bucket_4_2 (score : Q) : string :=
  if qlt score 30 then "Safe" else if qlt score 65 then "Suspicious" else "Phishing".

(** The dict [_build_result] returns; its [reasoning] lines and its
    [engine] text are formatted from the numeric fields kept here. *)
Record vt_result := mk_vt {
  vt_risk_score : Q; vt_classification : string; vt_confidence : Q;
  vt_malicious : Q; vt_suspicious : Q; vt_harmless : Q; vt_undetected : Q;
  vt_total_engines : Q; vt_detection_ratio : Q;
  vt_api_used : bool; vt_raw_stats : json }.

(** [_build_result] once the four counts are numbers *)
Definition build_result_numbers (stats : json) (malicious suspicious harmless undetected : Q)
  : vt_result :=
  let total0 := (malicious + suspicious + harmless + undetected)%Q in
  let total_engines := if Qeq_bool total0 0 then 1%Q else total0 in
  let detection_ratio := ((malicious + suspicious) / total_engines)%Q in
  let risk_score := q_py_round (detection_ratio * 100) 2 in
  let classification := vt_classify risk_score in
  let confidence := q_py_round (if qlt (total_engines / 70) 1 then total_engines / 70 else 1)%Q 3 in
  mk_vt risk_score classification confidence malicious suspicious harmless undetected
        total_engines detection_ratio true stats.

(** [_build_result(url, stats)]: [stats.get] needs a dict, and the sum of
    the four counts raises [TypeError] unless all four are numbers (the sums
    or the division of [str]s, lists or [None]s all fail). *)
Definition build_result (stats : json) : outcome vt_result :=
  m <- py_get stats "malicious" (JNum 0) ;;
  s <- py_get stats "suspicious" (JNum 0) ;;
  h <- py_get stats "harmless" (JNum 0) ;;
  u <- py_get stats "undetected" (JNum 0) ;;
  match as_number m, as_number s, as_number h, as_number u with
  | Some m', Some s', Some h', Some u' => Returns (build_result_numbers stats m' s' h' u')
  | _, _, _, _ => Raises (mk_exc TypeError "unsupported operand type(s)")
  end.

(** ** [api_client.scan_url] *)

(** What [requests.post] or [requests.get] gives: a
    [requests.RequestException] (with its text), or a response with its
    status code and a body that [resp.json()] parses, or refuses with the
    [JSONDecodeError] whose message is the decoder's (for instance
    [Expecting value: line 1 column 1 (char 0)]). *)
Inductive body := BodyInvalid (msg : string) | BodyJson (j : json).

Inductive net_response :=
| NetError (msg : string)
| Http (status : Z) (b : body).

(** The observable steps of [scan_url]: a [_rate_limit_wait()] call, a
    [time.sleep], the submission [POST] and a poll [GET] (of the analysis
    URL built from the analysis id). *)
Inductive event :=
| EAcquire
| ESleep (secs : Z)
| EPost (url : string)
| EGet (analysis_id : json).

Definition resp_json (b : body) : outcome json :=
  match b with
  | BodyInvalid msg => raise_value_error msg
  | BodyJson j => Returns j
  end.

Definition runtime_error {A} (msg : string) : outcome A := Raises (mk_exc RuntimeError msg).

Definition MSG_NOT_CONFIGURED : string := "VirusTotal API key is not configured".
Definition MSG_INVALID_KEY : string := "Invalid VirusTotal API key".
(** The source's message has an em dash (U+2014), written [--] here. *)
Definition MSG_RATE_LIMITED : string := "VirusTotal rate limit exceeded -- try again later".
Definition MSG_SUBMISSION_FAILED (status : Z) : string :=
  "VirusTotal submission failed (HTTP " ++ dec (Z.to_N status) ++ ")".
Definition MSG_UNEXPECTED : string := "Unexpected response from VirusTotal submission".
Definition MSG_TIMED_OUT : string := "VirusTotal analysis timed out".

Definition is_key_or_value_error (e : exc) : bool :=
  match exc_type e with KeyError | ValueError => true | _ => false end.

(** The body of a poll answered [200]: [None] when the status is not
    [completed] and the loop goes on. *)
Definition poll_body (b : body) : outcome (option vt_result) :=
  j <- resp_json b ;;
  data <- py_get j "data" (JObj []) ;;
  attrs <- py_get data "attributes" (JObj []) ;;
  status <- py_get attrs "status" JNull ;;
  match status with
  | JStr st =>
      if String.eqb st "completed"
      then (stats <- py_get attrs "stats" (JObj []) ;; omap Some (build_result stats))
      else Returns None
  | _ => Returns None
  end.

(** [for _ in range(12)]: [poll k] is the answer to the poll of index [k]. *)
Fixpoint poll_loop (analysis_id : json) (poll : nat -> net_response) (k fuel : nat)
  : list event * outcome vt_result :=
  match fuel with
  | O => ([], runtime_error MSG_TIMED_OUT)
  | S f =>
      let step := [ESleep 5; EAcquire; EGet analysis_id] in
      let next := let '(evs, o) := poll_loop analysis_id poll (S k) f in
                  ((step ++ evs)%list, o) in
      match poll k with
      | NetError _ => next
      | Http status b =>
          if negb (status =? 200)%Z then next
          else match poll_body b with
               | Returns None => next
               | Returns (Some r) => (step, Returns r)
               | Raises e => (step, Raises e)
               end
      end
  end.

(** [scan_url(url)] with [VIRUSTOTAL_API_KEY] set to [env_key] (the empty
    string when unset), the submission answered by [submit] and the polls
    by [poll]; the events it performs and its outcome. *)
Definition scan_url (chk : string -> option string) (env_key : string)
  (submit : net_response) (poll : nat -> net_response) (url0 : string)
  : list event * outcome vt_result :=
  if String.eqb (py_strip env_key) "" then ([], runtime_error MSG_NOT_CONFIGURED)
  else
    match normalize_url chk url0 with
    | Raises e => ([], Raises e)
    | Returns url =>
        let ev := [EAcquire; EPost url] in
        match submit with
        | NetError msg => (ev, runtime_error ("Network error submitting URL: " ++ msg))
        | Http status b =>
            if (status =? 401)%Z then (ev, runtime_error MSG_INVALID_KEY)
            else if (status =? 429)%Z then (ev, runtime_error MSG_RATE_LIMITED)
            else if negb ((status =? 200)%Z || (status =? 201)%Z)
            then (ev, runtime_error (MSG_SUBMISSION_FAILED status))
            else
              match (j <- resp_json b ;; d <- py_getitem j "data" ;; py_getitem d "id") with
              | Raises e =>
                  if is_key_or_value_error e then (ev, runtime_error MSG_UNEXPECTED)
                  else (ev, Raises e)
              | Returns analysis_id =>
                  let '(evs, o) := poll_loop analysis_id poll 0 12 in ((ev ++ evs)%list, o)
              end
        end
    end.

(** ** [api_client._rate_limit_wait] *)

Definition RATE_LIMIT : nat := 4.
Definition RATE_WINDOW : Q := 60.

(** [_request_times[:] = [t for t in _request_times if now - t < _RATE_WINDOW]] *)
Definition prune (now : Q) (request_times : list Q) : list Q :=
  filter (fun t => qlt (now - t) RATE_WINDOW) request_times.

(** The [time.sleep] the call makes, if any, on the pruned list *)
Definition sleep_time (now : Q) (kept : list Q) : option Q :=
  if RATE_LIMIT <=? List.length kept then
    let st := (RATE_WINDOW - (now - hd 0 kept) + (1 # 2))%Q in
    if qlt 0 st then Some st else None
  else None.

(** One call, under [_rate_lock]: [request_times] is [_request_times]
    before it, [now] the first [time.time()] reading, [t] the reading it
    appends.  [time.sleep(st)] returns after at least [st] seconds, so the
    second reading is at least [now + st], and at least [now] without a
    sleep. *)
Inductive rate_limit_wait (request_times : list Q) (now t : Q) : list Q -> Prop :=
| rlw_call :
    (match sleep_time now (prune now request_times) with
     | Some st => now + st <= t
     | None => now <= t
     end)%Q ->
    rate_limit_wait request_times now t (prune now request_times ++ [t])%list.

(** The calls of one process, serialised by the lock: [_request_times]
    starts empty; [admitted] lists the appended timestamps in order and
    [clock] is the last of them (any time before the first call); each call
    reads the clock at or after the previous reading. *)
Inductive limiter_run : list Q -> list Q -> Q -> Prop :=
| run_start (c : Q) : limiter_run [] [] c
| run_call request_times admitted clock now t request_times' :
    limiter_run request_times admitted clock ->
    (clock <= now)%Q ->
    rate_limit_wait request_times now t request_times' ->
    limiter_run request_times' (admitted ++ [t])%list t.

(** Admissions whose timestamps lie in the interval [[x, x + 60)] *)
Definition in_window (x t : Q) : bool := Qle_bool x t && qlt t (x + RATE_WINDOW).

(** ** [ScanWorker._run_scan] (src/ui/scanner_tab.py) *)

Section Orchestrator.

(** The Python values of the result dicts, with the injections the code
    uses. *)
Variable V : Type.
Variable py_int : Z -> V.
Variable py_str : string -> V.
Variable py_bool : bool -> V.
Variable py_list : list V -> V.
Variable py_dict : list (string * V) -> V.

Definition pydict := list (string * V).

(** [d[k] = v]: replaces the value of an existing key in place, appends a
    new key at the end. *)
Fixpoint dict_set (k : string) (v : V) (d : pydict) : pydict :=
  match d with
  | [] => [(k, v)]
  | (k', v') :: r => if String.eqb k k' then (k', v) :: r else (k', v') :: dict_set k v r
  end.

Definition dict_empty (d : pydict) : bool :=
  match d with [] => true | _ => false end.

(** The dict emitted by the [except Exception as e] handler *)
Definition error_dict (e : exc) : pydict :=
  [("risk_score", py_int 0); ("classification", py_str "Error");
   ("confidence", py_int 0); ("engine", py_str "N/A");
   ("reasoning", py_list [py_str (exc_msg e)]); ("features", py_dict [])].

(** [_run_scan] for one URL, the collaborators given by what they do on it:
    [key_available] is [api_key_available()], [scan] the outcome of
    [scan_url(url)], [model_ok] is [model_available()], [ml] the outcome of
    [ml_predict(url)] ([None] for a Python [None]), [heuristic] the outcome
    of [analyze_url(url)] and [insert_scan] the database write with the
    arguments read from the dict.  The [_log] calls return.  The result is
    the dict passed to [result_ready.emit]. *)
Definition run_scan (key_available : bool) (scan : outcome pydict) (model_ok : bool)
  (ml : outcome (option pydict)) (heuristic : outcome pydict)
  (insert_scan : pydict -> outcome unit) : pydict :=
  let body :=
    let result1 :=
      if key_available then match scan with Returns r => r | Raises _ => [] end else [] in
    result2 <- (if dict_empty result1 && model_ok then
                  m <- ml ;;
                  match m with
                  | Some d =>
                      if dict_empty d then Returns result1
                      else Returns (dict_set "api_used" (py_bool false) d)
                  | None => Returns result1
                  end
                else Returns result1) ;;
    result3 <- (if dict_empty result2 then
                  h <- heuristic ;; Returns (dict_set "api_used" (py_bool false) h)
                else Returns result2) ;;
    _ <- insert_scan result3 ;;
    Returns result3 in
  match body with
  | Returns r => r
  | Raises e => error_dict e
  end.

End Orchestrator.

(** Python values, for runs of [_run_scan] on concrete dicts *)
Inductive pyval :=
| PInt (z : Z)
| PStr (s : string)
| PBool (b : bool)
| PList (l : list pyval)
| PDict (d : list (string * pyval)).

(** ** Vocabulary of the properties *)

(** A character [urlsplit] keeps in a netloc without brackets, user info,
    port or percent sign. *)
Definition plain_host_char (c : ascii) : bool :=
  negb (has_char c "/?#@:[]%") && negb (unsafe_url_byte c).

(** [f] holds on each of the 256 characters. *)
Definition all_ascii (f : ascii -> bool) : bool :=
  forallb f (map ascii_of_nat (seq 0 256)).

(** A poll answer on which the loop goes on: a network error, a status
    other than 200, or a body whose status is not [completed]. *)
Definition poll_pending (r : net_response) : bool :=
  match r with
  | NetError _ => true
  | Http status b =>
      negb (status =? 200)%Z ||
      match poll_body b with Returns None => true | _ => false end
  end.

(** [c * n] *)
Fixpoint repeat_char (n : nat) (c : ascii) : string :=
  match n with O => EmptyString | S k => String c (repeat_char k c) end.

Fixpoint mismatches (s1 s2 : string) : nat :=
  match s1, s2 with
  | String c1 r1, String c2 r2 => (if Ascii.eqb c1 c2 then 0 else 1) + mismatches r1 r2
  | _, _ => 0
  end.

Definition row_ok (i j : nat) (l : list nat) : Prop :=
  forall k, k < List.length l ->
    (i - (j + k)) + ((j + k) - i) <= nth k l 0 <= Nat.max i (j + k).

Fixpoint mism_list (a b : list ascii) : nat :=
  match a, b with
  | c1 :: r1, c2 :: r2 => (if Ascii.eqb c1 c2 then 0 else 1) + mism_list r1 r2
  | _, _ => 0
  end.

Definition count_total (l : list (ascii * nat)) : nat :=
  fold_right (fun kc s => snd kc + s) 0 l.

(** [_get_api_key()] with [VIRUSTOTAL_API_KEY] set to [env_key] (the empty
    string when unset) *)
Definition get_api_key (env_key : string) : option string :=
  let key := py_strip env_key in
  if String.eqb key "" then None else Some key.

(** [api_key_available()] *)
Definition api_key_available (env_key : string) : bool :=
  match get_api_key env_key with
  | Some key => 32 <=? String.length key
  | None => false
  end.

Definition is_obj (v : json) : bool := match v with JObj _ => true | _ => false end.

Definition witness_stats : json :=
  JObj [("malicious", JNum 3); ("suspicious", JNum 1); ("harmless", JNum 60); ("undetected", JNum 6)].

Definition SUCCESS : string := "#22c55e".
Definition WARNING : string := "#f59e0b".
Definition DANGER : string := "#ef4444".

(** [_risk_color(score)], by the colour's name *)
Definition risk_color (score : Q) : string :=
  if qlt score 30 then SUCCESS
  else if qlt score 65 then WARNING
  else DANGER.

(** The scoring part of [ml_engine.predict] once the model has given the
    phishing probability [phishing_prob]. *)
Record ml_result := mk_ml { ml_risk_score : Q; ml_classification : string; ml_confidence : Q }.

Definition ml_classify (risk_score : Q) : string :=
  if qlt risk_score 30 then "Safe"
  else if qlt risk_score 65 then "Suspicious"
  else "Phishing".

Definition ml_scores (phishing_prob : Q) : ml_result :=
  let risk_score := q_py_round (phishing_prob * 100) 2 in
  mk_ml risk_score (ml_classify risk_score)
        (q_py_round (Qmax phishing_prob (1 - phishing_prob)) 3).

(** The state of a [RiskGauge]: [_score], [_target], [_label] and whether
    [_timer] runs. *)
Record gauge := mk_gauge { g_score : Q; g_target : Q; g_label : string; g_running : bool }.

(** [RiskGauge.__init__] *)
Definition gauge_init : gauge := mk_gauge 0 0 "--" false.

(** [set_score(score, label)] *)
Definition set_score (g : gauge) (score : Q) (label : string) : gauge :=
  mk_gauge (g_score g) (Qmax 0 (Qmin 100 score)) label true.

(** [_animate()] *)
Definition animate (g : gauge) : gauge :=
  let diff := (g_target g - g_score g)%Q in
  if qlt (Qabs diff) (1 # 2) then mk_gauge (g_target g) (g_target g) (g_label g) false
  else mk_gauge (g_score g + diff * (3 # 25))%Q (g_target g) (g_label g) (g_running g).

(** One timeout of [_timer] (every 16 ms): [_animate] runs only while the
    timer is started. *)
Definition gauge_tick (g : gauge) : gauge := if g_running g then animate g else g.

Fixpoint gauge_ticks (n : nat) (g : gauge) : gauge :=
  match n with O => g | S k => gauge_ticks k (gauge_tick g) end.

(** A bound on the distance to the target after [k] animation steps *)
Fixpoint decay (k : nat) : Q :=
  match k with O => 100 | S k' => decay k' * (22 # 25) end.

(** The scan state of a [ScannerTab]: [_scanning], whether [scan_btn] is
    enabled, the number of [_run_scan] workers whose [result_ready] has not
    yet reached [_display_result], and the [_log] calls made, newest first. *)
Record tab := mk_tab {
  t_scanning : bool; t_btn_enabled : bool; t_pending : nat; t_log : list (string * string) }.

Definition tab_init : tab := mk_tab false true 0 [].

(** [_start_scan()] with [text] in [url_input] *)
Definition start_scan (t : tab) (text : string) : tab :=
  let url := py_strip text in
  if String.eqb url "" then
    mk_tab (t_scanning t) (t_btn_enabled t) (t_pending t) (("No URL entered", "WARN") :: t_log t)
  else if t_scanning t then
    mk_tab (t_scanning t) (t_btn_enabled t) (t_pending t)
           (("Scan already in progress", "WARN") :: t_log t)
  else mk_tab true false (S (t_pending t)) (("Starting scan: " ++ url, "INFO") :: t_log t).

(** [_display_result(result)], run when the [result_ready] of a worker is
    delivered *)
Definition display_result (t : tab) : tab :=
  mk_tab false true (pred (t_pending t)) (t_log t).

(** The GUI thread's steps: [_start_scan] (a click on [scan_btn] or Return
    in [url_input]), or the delivery of the result a pending worker emits
    once at the end of [_run_scan]. *)
Inductive tab_step : tab -> tab -> Prop :=
| step_start t text : tab_step t (start_scan t text)
| step_deliver t : 1 <= t_pending t -> tab_step t (display_result t).

Inductive tab_reachable : tab -> Prop :=
| reach_init : tab_reachable tab_init
| reach_step t t' : tab_reachable t -> tab_step t t' -> tab_reachable t'.

(** A row of the [scans] table *)
Record scan_row := mk_row {
  row_id : Z; row_url : string; row_risk_score : Q; row_classification : string;
  row_confidence : Q; row_api_used : Z; row_engine : string; row_reasoning : string }.

(** The [scans] table: its rows and the table's entry in [sqlite_sequence]
    (the largest id [AUTOINCREMENT] has handed out, 0 before any). *)
Record scans_db := mk_db { db_rows : list scan_row; db_seq : Z }.

Definition db_empty : scans_db := mk_db [] 0.

Definition max_id (rows : list scan_row) : Z := fold_right (fun r m => Z.max (row_id r) m) 0%Z rows.

(** [insert_scan(...)]: [AUTOINCREMENT] gives the new row the id one above
    the larger of [sqlite_sequence]'s entry and the largest id in the table,
    and [cur.lastrowid] is that id.  The timestamp column is left out. *)
Definition insert_scan (db : scans_db) (url : string) (risk_score : Q) (classification : string)
  (confidence : Q) (api_used : bool) (engine reasoning : string) : scans_db * Z :=
  let id := (Z.max (db_seq db) (max_id (db_rows db)) + 1)%Z in
  (mk_db (db_rows db ++ [mk_row id url (q_py_round risk_score 2) classification
                           (q_py_round confidence 2) (if api_used then 1 else 0)%Z
                           engine reasoning]) id, id).

(** [ORDER BY id DESC] *)
Fixpoint insert_desc (r : scan_row) (l : list scan_row) : list scan_row :=
  match l with
  | [] => [r]
  | x :: l' => if (row_id x <? row_id r)%Z then r :: l else x :: insert_desc r l'
  end.

Definition sort_desc (rows : list scan_row) : list scan_row := fold_right insert_desc [] rows.

(** [get_recent_scans(limit)] *)
Definition get_recent_scans (db : scans_db) (limit : nat) : list scan_row :=
  firstn limit (sort_desc (db_rows db)).

(** [get_scan_count()] *)
Definition get_scan_count (db : scans_db) : nat := List.length (db_rows db).

(** [get_api_usage_ratio()] *)
Definition get_api_usage_ratio (db : scans_db) : nat * nat :=
  (List.length (filter (fun r => (row_api_used r =? 1)%Z) (db_rows db)),
   List.length (filter (fun r => (row_api_used r =? 0)%Z) (db_rows db))).

(** [clear_all_scans()]: [DELETE FROM scans] leaves [sqlite_sequence] as it
    is. *)
Definition clear_all_scans (db : scans_db) : scans_db * nat :=
  (mk_db [] (db_seq db), List.length (db_rows db)).

(** The writes of the application to the table *)
Inductive db_op :=
| DInsert (url : string) (risk_score : Q) (classification : string) (confidence : Q)
    (api_used : bool) (engine reasoning : string)
| DClear.

Definition apply_op (db : scans_db) (op : db_op) : scans_db :=
  match op with
  | DInsert u rs c cf a e rs' => fst (insert_scan db u rs c cf a e rs')
  | DClear => fst (clear_all_scans db)
  end.

Definition run_db (ops : list db_op) : scans_db := fold_left apply_op ops db_empty.

Definition count_inserts (ops : list db_op) : nat :=
  List.length (filter (fun op => match op with DInsert _ _ _ _ _ _ _ => true | DClear => false end) ops).

Definition db_inv (db : scans_db) (n : nat) : Prop :=
  db_seq db = Z.of_nat n /\
  (forall r, In r (db_rows db) -> (1 <= row_id r <= Z.of_nat n)%Z /\
                               (row_api_used r = 0 \/ row_api_used r = 1)%Z) /\
  NoDup (map row_id (db_rows db)).

(* DEFS-END *)

(** * Properties *)

(** ** String lemmas *)

Lemma substring_one_has_char (c : ascii) (s : string) (k : nat) :
  substring k 1 s = String c EmptyString -> has_char c s = true.
Proof.
  revert k. induction s as [|d r IH]; intros k H.
  - destruct k; discriminate.
  - destruct k as [|k]; simpl in H.
    + inversion H; subst. simpl. now rewrite Ascii.eqb_refl.
    + simpl. rewrite (IH k H). apply orb_true_r.
Qed.

Lemma ends_with_one_has_char (c : ascii) (s : string) :
  ends_with (String c EmptyString) s = true -> has_char c s = true.
Proof.
  unfold ends_with. intros H. apply andb_true_iff in H as [_ H].
  apply String.eqb_eq in H. eapply substring_one_has_char; exact H.
Qed.

Lemma forall_chars_has_char (p : ascii -> bool) (c : ascii) (s : string) :
  forall_chars p s = true -> has_char c s = true -> p c = true.
Proof.
  induction s as [|d r IH]; simpl; [discriminate|].
  intros Hall Hc. apply andb_true_iff in Hall as [Hd Hr].
  apply orb_true_iff in Hc as [Hc|Hc]; auto.
  apply Ascii.eqb_eq in Hc. now subst.
Qed.

(** ** C10: the IPv6 branch of [_is_ip_address] *)

(** C10. Every non-empty host made only of hexadecimal digits and colons is
    taken for an IP address by [_is_ip_address], and [analyze_url] then adds
    the flat [+15] of check 6 (the pair [(RRawIP, 15)] is among the amounts
    it sums), whatever the path, the URL and the entropy. *)
Theorem hex_colon_host_is_ip (hp : hparsed) (e : R) :
  hp_host hp <> EmptyString ->
  forall_chars (fun c => is_hex_digit c || Ascii.eqb c ":") (hp_host hp) = true ->
  is_ip_address (hp_host hp) = true /\ In (RRawIP, 15%R) (contributions (measure hp) e).
Proof.
  intros Hne Hall.
  assert (Hip : is_ip_address (hp_host hp) = true).
  { unfold is_ip_address, dollar_match, ipv6_body.
    destruct (hp_host hp) as [|c r] eqn:Eh; [congruence|].
    assert (Hc : Ascii.eqb c "[" = false).
    { simpl in Hall. apply andb_true_iff in Hall as [Hc _].
      destruct (Ascii.eqb c "[") eqn:E; [|reflexivity].
      apply Ascii.eqb_eq in E. subst. discriminate. }
    rewrite Hc.
    destruct (ends_with "]" (String c r)) eqn:Eend.
    - apply ends_with_one_has_char in Eend.
      pose proof (forall_chars_has_char _ _ _ Hall Eend). discriminate.
    - simpl String.eqb. rewrite Hall. simpl. now rewrite !orb_true_r. }
  split; [exact Hip|].
  unfold contributions.
  assert (Hm : m_is_ip (measure hp) = true) by exact Hip.
  rewrite Hm.
  do 5 (apply in_app_iff; right).
  apply in_app_iff; left. left. reflexivity.
Qed.

(** The host [cafe] (no dot, no colon) of the URL [cafe]. *)
Lemma hex_colon_host_is_ip_witness :
  heuristic_parse no_brackets "cafe" = Some (Returns (mk_hparsed "http://cafe" "http" "cafe" "")) /\
  is_ip_address "cafe" = true /\
  In (RRawIP, 15%R) (contributions (measure (mk_hparsed "http://cafe" "http" "cafe" "")) 2%R).
Proof.
  split; [vm_compute; reflexivity|].
  apply (hex_colon_host_is_ip (mk_hparsed "http://cafe" "http" "cafe" "") 2%R);
    [discriminate | vm_compute; reflexivity].
Defined.

(** ** Rationals *)

Lemma qlt_true (a b : Q) : qlt a b = true <-> (a < b)%Q.
Proof.
  unfold qlt. rewrite negb_true_iff. split; intro H.
  - apply Qnot_le_lt. intro H'. apply Qle_bool_iff in H'. congruence.
  - destruct (Qle_bool b a) eqn:E; [|reflexivity].
    apply Qle_bool_iff in E. exfalso. exact (Qlt_not_le _ _ H E).
Qed.

Lemma qlt_false (a b : Q) : qlt a b = false <-> (b <= a)%Q.
Proof.
  unfold qlt. rewrite negb_false_iff. apply Qle_bool_iff.
Qed.

(** Rounding a rational between two integers stays between them. *)
Lemma q_round_half_even_bounds (a b : Z) (y : Q) :
  (inject_Z a <= y)%Q -> (y <= inject_Z b)%Q -> (a <= q_round_half_even y <= b)%Z.
Proof.
  intros Ha Hb. unfold q_round_half_even.
  set (f := Qfloor y).
  assert (Haf : (a <= f)%Z) by (rewrite <- (Qfloor_Z a); now apply Qfloor_resp_le).
  assert (Hfb : (f <= b)%Z) by (rewrite <- (Qfloor_Z b); now apply Qfloor_resp_le).
  assert (Hfy : (inject_Z f <= y)%Q) by apply Qfloor_le.
  assert (Hup : ((1 # 2) <= y - inject_Z f)%Q -> (f + 1 <= b)%Z).
  { intros Hr. assert (Hlt : (f < b)%Z) by (rewrite Zlt_Qlt; Lqa.lra). lia. }
  destruct (qlt (y - inject_Z f) (1 # 2)) eqn:E1; [lia|].
  apply qlt_false in E1. specialize (Hup E1).
  destruct (qlt (1 # 2) (y - inject_Z f)); [lia|].
  destruct (Z.even f); lia.
Qed.

(** ** The result of [_build_result] *)

Lemma build_result_returns (stats : json) (r : vt_result) :
  build_result stats = Returns r ->
  exists m s h u, r = build_result_numbers stats m s h u.
Proof.
  unfold build_result, obind.
  destruct (py_get stats "malicious" (JNum 0)) as [m|]; [|discriminate].
  destruct (py_get stats "suspicious" (JNum 0)) as [s|]; [|discriminate].
  destruct (py_get stats "harmless" (JNum 0)) as [h|]; [|discriminate].
  destruct (py_get stats "undetected" (JNum 0)) as [u|]; [|discriminate].
  destruct (as_number m), (as_number s), (as_number h), (as_number u);
    try discriminate.
  intros H. inversion H. eauto.
Qed.

Lemma detection_ratio_bounds (m s h u : Q) :
  (0 <= m)%Q -> (0 <= s)%Q -> (0 <= h)%Q -> (0 <= u)%Q ->
  let total0 := (m + s + h + u)%Q in
  let total := if Qeq_bool total0 0 then 1%Q else total0 in
  (0 <= (m + s) / total <= 1)%Q.
Proof.
  intros Hm Hs Hh Hu total0 total. subst total total0.
  destruct (Qeq_bool (m + s + h + u) 0) eqn:E.
  - apply Qeq_bool_iff in E.
    assert (Hms : (m + s == 0)%Q) by Lqa.lra.
    rewrite Hms. split; discriminate.
  - assert (Hpos : (0 < m + s + h + u)%Q).
    { apply Qnot_le_lt. intro Hle. apply Qeq_bool_neq in E. apply E. Lqa.lra. }
    split.
    + apply Qle_shift_div_l; [exact Hpos|]. Lqa.lra.
    + apply Qle_shift_div_r; [exact Hpos|]. Lqa.lra.
Qed.

Lemma q_py_round_2_bounds (x : Q) :
  (0 <= x <= 100)%Q -> (0 <= q_py_round x 2 <= 100)%Q.
Proof.
  intros [H0 H1]. unfold q_py_round.
  change (10 ^ Z.of_nat 2)%Z with 100%Z.
  destruct (q_round_half_even_bounds 0 10000 (x * inject_Z 100)) as [Hk0 Hk1].
  - change (inject_Z 0) with 0%Q. change (inject_Z 100) with 100%Q. Lqa.lra.
  - change (inject_Z 10000) with 10000%Q. change (inject_Z 100) with 100%Q. Lqa.lra.
  - rewrite Zle_Qle in Hk0, Hk1. change (inject_Z 0) with 0%Q in Hk0.
    change (inject_Z 10000) with 10000%Q in Hk1.
    change (inject_Z 100) with 100%Q in *.
    set (k := inject_Z (q_round_half_even (x * 100))) in *.
    split.
    + apply Qle_shift_div_l; [reflexivity|]. Lqa.lra.
    + apply Qle_shift_div_r; [reflexivity|]. Lqa.lra.
Qed.

(** ** C2: the thresholds of the VirusTotal client *)

(** C2 (counterexample). With the statistics [{malicious: 1, harmless: 4}]
    the client reports a risk score of 20 classified Suspicious, where the
    thresholds of section 4.2 give Safe: the client's thresholds are not the
    heuristic's. *)
Lemma vt_thresholds_counterexample :
  exists r, build_result (JObj [("malicious", JNum 1); ("harmless", JNum 4)]) = Returns r /\
    Qeq_bool (vt_risk_score r) 20 = true /\
    vt_classification r = "Suspicious" /\
    spec_bucket_4_2 (vt_risk_score r) = "Safe".
Proof.
  eexists. split; [vm_compute; reflexivity|].
  vm_compute. repeat split.
Qed.

(** C2 (amended). Every result of [_build_result] is classified by its own
    thresholds 15 and 50: a risk score below 15 is Safe, from 15 below 50
    Suspicious, from 50 on Phishing; and when the four counts are
    non-negative the risk score lies in [[0, 100]]. *)
Theorem vt_classification_thresholds (stats : json) (r : vt_result) :
  build_result stats = Returns r ->
  ((vt_risk_score r < 15)%Q -> vt_classification r = "Safe") /\
  ((15 <= vt_risk_score r)%Q -> (vt_risk_score r < 50)%Q -> vt_classification r = "Suspicious") /\
  ((50 <= vt_risk_score r)%Q -> vt_classification r = "Phishing") /\
  ((0 <= vt_malicious r)%Q -> (0 <= vt_suspicious r)%Q -> (0 <= vt_harmless r)%Q ->
   (0 <= vt_undetected r)%Q -> (0 <= vt_risk_score r <= 100)%Q).
Proof.
  intros H. apply build_result_returns in H as (m & s & h & u & ->).
  assert (Hc : vt_classification (build_result_numbers stats m s h u) =
               vt_classify (vt_risk_score (build_result_numbers stats m s h u)))
    by reflexivity.
  set (x := vt_risk_score (build_result_numbers stats m s h u)) in *.
  rewrite Hc. unfold vt_classify.
  split; [|split; [|split]].
  - intros Hx. apply qlt_true in Hx. now rewrite Hx.
  - intros H15 H50. apply qlt_true in H50.
    assert (E : qlt x 15 = false) by (now apply qlt_false). now rewrite E, H50.
  - intros H50.
    assert (E1 : qlt x 15 = false) by (apply qlt_false; Lqa.lra).
    assert (E2 : qlt x 50 = false) by (now apply qlt_false). now rewrite E1, E2.
  - simpl. intros Hm Hs Hh Hu. subst x. simpl.
    apply q_py_round_2_bounds.
    pose proof (detection_ratio_bounds m s h u Hm Hs Hh Hu) as Hr. simpl in Hr.
    destruct (Qeq_bool (m + s + h + u) 0); Lqa.lra.
Qed.

(** Statistics [{malicious: 5, suspicious: 2, harmless: 60, undetected: 3}]:
    a ratio of 10 %, Safe. *)
Lemma vt_classification_thresholds_witness :
  build_result (JObj [("malicious", JNum 5); ("suspicious", JNum 2);
                      ("harmless", JNum 60); ("undetected", JNum 3)]) =
    Returns (build_result_numbers
               (JObj [("malicious", JNum 5); ("suspicious", JNum 2);
                      ("harmless", JNum 60); ("undetected", JNum 3)]) 5 2 60 3) /\
  vt_classification (build_result_numbers
               (JObj [("malicious", JNum 5); ("suspicious", JNum 2);
                      ("harmless", JNum 60); ("undetected", JNum 3)]) 5 2 60 3) = "Safe".
Proof.
  split; [reflexivity|].
  apply (vt_classification_thresholds
           (JObj [("malicious", JNum 5); ("suspicious", JNum 2);
                  ("harmless", JNum 60); ("undetected", JNum 3)])); [reflexivity|].
  vm_compute. reflexivity.
Defined.

(** ** Strings: appends and the [str] operations *)

Lemma append_empty_r (s : string) : (s ++ EmptyString)%string = s.
Proof. induction s as [|d r IH]; simpl; [reflexivity|]. now rewrite IH. Qed.

Lemma length_append (a b : string) :
  String.length (a ++ b) = String.length a + String.length b.
Proof. induction a as [|d r IH]; simpl; [reflexivity|]. now rewrite IH. Qed.

Lemma append_assoc (a b c : string) : ((a ++ b) ++ c)%string = (a ++ (b ++ c))%string.
Proof. induction a as [|d r IH]; simpl; [reflexivity|]. now rewrite IH. Qed.

Lemma has_char_app (c : ascii) (a b : string) :
  has_char c (a ++ b) = has_char c a || has_char c b.
Proof.
  induction a as [|d r IH]; simpl; [reflexivity|]. now rewrite IH, orb_assoc.
Qed.

Lemma forall_chars_app (p : ascii -> bool) (a b : string) :
  forall_chars p (a ++ b) = forall_chars p a && forall_chars p b.
Proof.
  induction a as [|d r IH]; simpl; [reflexivity|]. now rewrite IH, andb_assoc.
Qed.

Lemma forall_chars_impl (p q : ascii -> bool) (s : string) :
  (forall c, p c = true -> q c = true) ->
  forall_chars p s = true -> forall_chars q s = true.
Proof.
  intros Hpq. induction s as [|d r IH]; simpl; [reflexivity|].
  intros H. apply andb_true_iff in H as [Hd Hr]. now rewrite (Hpq d Hd), (IH Hr).
Qed.

Lemma has_char_false_forall (c : ascii) (s : string) :
  has_char c s = false <-> forall_chars (fun d => negb (Ascii.eqb c d)) s = true.
Proof.
  induction s as [|d r IH]; simpl; [tauto|].
  rewrite orb_false_iff, andb_true_iff, IH, negb_true_iff. tauto.
Qed.

Lemma split_first_none (c : ascii) (s : string) :
  has_char c s = false -> split_first c s = None.
Proof.
  induction s as [|d r IH]; simpl; [reflexivity|].
  intros H. apply orb_false_iff in H as [Hd Hr]. rewrite Hd, (IH Hr). reflexivity.
Qed.

Lemma split_first_app (c : ascii) (a b : string) :
  has_char c a = false ->
  split_first c (a ++ b) =
    match split_first c b with Some (x, y) => Some (a ++ x, y) | None => None end.
Proof.
  induction a as [|d r IH]; simpl; intros H.
  - destruct (split_first c b) as [[x y]|]; reflexivity.
  - apply orb_false_iff in H as [Hd Hr]. rewrite Hd, (IH Hr).
    destruct (split_first c b) as [[x y]|]; reflexivity.
Qed.

Lemma split_first_here (c : ascii) (a b : string) :
  has_char c a = false -> split_first c (a ++ String c b) = Some (a, b).
Proof.
  intros H. rewrite (split_first_app c a _ H). simpl. rewrite Ascii.eqb_refl.
  now rewrite append_empty_r.
Qed.

Lemma split_last_none (c : ascii) (s : string) :
  has_char c s = false -> split_last c s = None.
Proof.
  induction s as [|d r IH]; simpl; [reflexivity|].
  intros H. apply orb_false_iff in H as [Hd Hr]. rewrite (IH Hr), Hd. reflexivity.
Qed.

Lemma break_at_app (p : ascii -> bool) (a b : string) :
  forall_chars (fun c => negb (p c)) a = true ->
  break_at p (a ++ b) = (a ++ fst (break_at p b), snd (break_at p b)).
Proof.
  induction a as [|d r IH]; simpl; intros H.
  - destruct (break_at p b); reflexivity.
  - apply andb_true_iff in H as [Hd Hr]. apply negb_true_iff in Hd.
    rewrite Hd, (IH Hr). reflexivity.
Qed.

Lemma break_at_all (p : ascii -> bool) (s : string) :
  forall_chars (fun c => negb (p c)) s = true -> break_at p s = (s, EmptyString).
Proof.
  intros H. rewrite <- (append_empty_r s) at 1. rewrite (break_at_app p s EmptyString H).
  simpl. now rewrite append_empty_r.
Qed.

Lemma remove_chars_none (p : ascii -> bool) (s : string) :
  forall_chars (fun c => negb (p c)) s = true -> remove_chars p s = s.
Proof.
  induction s as [|d r IH]; simpl; [reflexivity|].
  intros H. apply andb_true_iff in H as [Hd Hr]. apply negb_true_iff in Hd.
  now rewrite Hd, (IH Hr).
Qed.

Lemma rstrip_by_none (p : ascii -> bool) (s : string) :
  forall_chars (fun c => negb (p c)) s = true -> rstrip_by p s = s.
Proof.
  induction s as [|d r IH]; simpl; [reflexivity|].
  intros H. apply andb_true_iff in H as [Hd Hr]. apply negb_true_iff in Hd.
  now rewrite Hd, (IH Hr).
Qed.

Lemma rstrip_by_app (p : ascii -> bool) (a b : string) :
  rstrip_by p b <> EmptyString -> rstrip_by p (a ++ b) = a ++ rstrip_by p b.
Proof.
  intros Hb. induction a as [|d r IH]; simpl; [reflexivity|].
  rewrite IH. destruct (r ++ rstrip_by p b)%string eqn:E.
  - destruct r; simpl in E; [contradiction|discriminate].
  - now rewrite andb_false_r.
Qed.

Lemma lower_app (a b : string) : lower (a ++ b) = lower a ++ lower b.
Proof.
  induction a as [|d r IH]; simpl; [reflexivity|]. now rewrite IH.
Qed.

Lemma lower_char_idem (c : ascii) : lower_char (lower_char c) = lower_char c.
Proof.
  revert c. apply (Ascii.ascii_rect (fun c => lower_char (lower_char c) = lower_char c)).
  intros [] [] [] [] [] [] [] []; vm_compute; reflexivity.
Qed.

Lemma lower_idem (s : string) : lower (lower s) = lower s.
Proof.
  induction s as [|d r IH]; simpl; [reflexivity|]. now rewrite lower_char_idem, IH.
Qed.

Lemma drop_app (a b : string) : drop (String.length a) (a ++ b) = b.
Proof.
  induction a as [|d r IH]; simpl; [destruct b; reflexivity|]. exact IH.
Qed.

Lemma starts_with_app (a b : string) : starts_with a (a ++ b) = true.
Proof.
  induction a as [|d r IH]; simpl; [reflexivity|]. now rewrite Ascii.eqb_refl, IH.
Qed.

(** ** Character classes *)

Lemma all_ascii_spec (f : ascii -> bool) : all_ascii f = true -> forall c, f c = true.
Proof.
  unfold all_ascii. rewrite forallb_forall. intros H c.
  apply H. rewrite <- (ascii_nat_embedding c). apply in_map. apply in_seq.
  pose proof (nat_ascii_bounded c). lia.
Qed.

Lemma forall_chars_weaken (p q : ascii -> bool) (s : string) :
  all_ascii (fun c => implb (p c) (q c)) = true ->
  forall_chars p s = true -> forall_chars q s = true.
Proof.
  intros H. apply forall_chars_impl. intros c Hc.
  pose proof (all_ascii_spec _ H c) as Hi. cbv beta in Hi. rewrite Hc in Hi. exact Hi.
Qed.

Lemma has_char_excluded (p : ascii -> bool) (c : ascii) (s : string) :
  forall_chars p s = true -> p c = false -> has_char c s = false.
Proof.
  intros Hs Hc. destruct (has_char c s) eqn:E; [|reflexivity].
  rewrite (forall_chars_has_char p c s Hs E) in Hc. discriminate.
Qed.

Ltac weaken_chars H := apply (fun Hi => forall_chars_weaken _ _ _ Hi H); vm_compute; reflexivity.
Ltac excluded_char H := apply (has_char_excluded _ _ _ H); vm_compute; reflexivity.

(** ** [str] and [int] of a natural number *)

Lemma digits_value_from_app (acc : N) (a b : string) :
  digits_value_from acc (a ++ b) = digits_value_from (digits_value_from acc a) b.
Proof.
  revert acc. induction a as [|d r IH]; intros acc; simpl; [reflexivity|]. apply IH.
Qed.

Lemma code_digit_char (d : N) : (d < 10)%N -> code (digit_char d) = N.to_nat (48 + d).
Proof.
  intros Hd. unfold code, digit_char, nat_of_ascii.
  rewrite N_ascii_embedding; [reflexivity|lia].
Qed.

Lemma dec_from_spec (fuel : nat) (n : N) (acc : string) :
  (n < 2 ^ N.of_nat (S fuel))%N ->
  exists D, dec_from (S fuel) n acc = (D ++ acc)%string /\ D <> EmptyString /\
    forall_chars is_ascii_digit D = true /\
    forall a, digits_value_from a D = (a * 10 ^ N.of_nat (String.length D) + n)%N.
Proof.
  revert n acc. induction fuel as [|f IH]; intros n acc Hn;
    change (dec_from (S ?k) n acc) with
      (if (n <? 10)%N then String (digit_char (n mod 10)) acc
       else dec_from k (n / 10)%N (String (digit_char (n mod 10)) acc)).
  - assert (Hlt : (n < 10)%N) by (simpl in Hn; lia).
    apply N.ltb_lt in Hlt as Hb. rewrite Hb.
    exists (String (digit_char (n mod 10)) EmptyString).
    pose proof (N.mod_lt n 10 ltac:(lia)) as Hm.
    pose proof (code_digit_char (n mod 10) Hm) as Hc.
    rewrite (N.mod_small n 10) in * by exact Hlt.
    split; [reflexivity|]. split; [discriminate|]. split.
    + simpl. unfold is_ascii_digit. rewrite Hc, andb_true_r, andb_true_iff, !Nat.leb_le. lia.
    + intros a. simpl. rewrite Hc. lia.
  - destruct (n <? 10)%N eqn:Hb.
    + apply N.ltb_lt in Hb.
      exists (String (digit_char (n mod 10)) EmptyString).
      pose proof (code_digit_char (n mod 10) ltac:(apply N.mod_lt; lia)) as Hc.
      rewrite (N.mod_small n 10) in * by exact Hb.
      split; [reflexivity|]. split; [discriminate|]. split.
      * simpl. unfold is_ascii_digit. rewrite Hc, andb_true_r, andb_true_iff, !Nat.leb_le. lia.
      * intros a. simpl. rewrite Hc. lia.
    + apply N.ltb_ge in Hb.
      assert (Hq : (n / 10 < 2 ^ N.of_nat (S f))%N).
      { rewrite Nat2N.inj_succ, N.pow_succ_r' in Hn.
        apply N.Div0.div_lt_upper_bound. lia. }
      destruct (IH (n / 10)%N (String (digit_char (n mod 10)) acc) Hq)
        as (D' & HD & HD0 & HDd & HDv).
      pose proof (code_digit_char (n mod 10) ltac:(apply N.mod_lt; lia)) as Hc.
      exists (D' ++ String (digit_char (n mod 10)) EmptyString)%string.
      split; [rewrite HD, append_assoc; reflexivity|].
      split; [destruct D'; [contradiction|discriminate]|].
      split.
      * rewrite forall_chars_app, HDd. simpl. unfold is_ascii_digit. rewrite Hc.
        pose proof (N.mod_lt n 10 ltac:(lia)).
        rewrite andb_true_r, andb_true_iff, !Nat.leb_le.
        set (k := (n mod 10)%N) in *. lia.
      * intros a. rewrite digits_value_from_app, HDv. cbn [digits_value_from]. rewrite Hc.
        rewrite length_append. cbn [String.length]. rewrite Nat.add_1_r, Nat2N.inj_succ, N.pow_succ_r'.
        pose proof (N.div_mod n 10 ltac:(lia)).
        pose proof (N.mod_lt n 10 ltac:(lia)).
        set (k := (n mod 10)%N) in *. set (q := (n / 10)%N) in *.
        replace (N.of_nat (N.to_nat (48 + k) - 48)) with k by lia.
        nia.
Qed.

Lemma dec_spec (n : N) :
  forall_chars is_ascii_digit (dec n) = true /\ digits_value (dec n) = n /\
  dec n <> EmptyString.
Proof.
  unfold dec.
  assert (Hn : (n < 2 ^ N.of_nat (S (N.to_nat (N.log2 n))))%N).
  { rewrite Nat2N.inj_succ, N2Nat.id.
    destruct (N.eq_dec n 0) as [->|Hne]; [reflexivity|].
    apply N.log2_spec. lia. }
  destruct (dec_from_spec _ n EmptyString Hn) as (D & HD & HD0 & HDd & HDv).
  rewrite HD, append_empty_r. unfold digits_value. rewrite HDv. split; [exact HDd|].
  split; [lia|exact HD0].
Qed.

(** ** [_checknetloc] on U+0000..U+00FF *)

Lemma nfkc_char_safe :
  all_ascii (fun c => implb (negb (has_char c "/@:#?"))
    (negb (existsb (fun x => existsb (N.eqb x) (code_points "/?#@:")) (nfkc_char c)))) = true.
Proof. vm_compute. reflexivity. Qed.

Lemma nfkc_remove_safe (s : string) :
  has_char "/" s = false ->
  existsb (fun x => existsb (N.eqb x) (code_points "/?#@:"))
    (nfkc (remove_chars (fun c => has_char c "@:#?") s)) = false.
Proof.
  induction s as [|c r IH]; [reflexivity|].
  intros H. cbn [has_char] in H. cbn [remove_chars]. apply orb_false_iff in H as [Hc Hr].
  destruct (has_char c "@:#?") eqn:Ec; [exact (IH Hr)|].
  unfold nfkc. cbn [list_ascii_of_string flat_map]. rewrite existsb_app.
  fold (nfkc (remove_chars (fun c => has_char c "@:#?") r)). rewrite (IH Hr), orb_false_r.
  pose proof (all_ascii_spec _ nfkc_char_safe c) as Hs. cbv beta in Hs.
  assert (Hn : has_char c "/@:#?" = false).
  { change (has_char c "/@:#?") with (Ascii.eqb c "/" || has_char c "@:#?").
    rewrite Ec, orb_false_r, Ascii.eqb_sym. exact Hc. }
  rewrite Hn in Hs. cbn [negb implb] in Hs. apply negb_true_iff. exact Hs.
Qed.

(** [_checknetloc] never raises on a netloc without [/] whose characters
    lie in U+0000..U+00FF: no NFKC form of them holds [/ ? # @ :]. *)
Lemma checknetloc_no_slash (nl : string) :
  has_char "/" nl = false -> checknetloc nl = Returns tt.
Proof.
  intros H. unfold checknetloc. cbv zeta.
  destruct (String.eqb nl "" || forall_chars is_ascii_char nl); [reflexivity|].
  destruct (list_eq_dec _ _ _); [reflexivity|].
  rewrite (nfkc_remove_safe nl H). reflexivity.
Qed.

Lemma break_at_fst_excludes (p : ascii -> bool) (c : ascii) (s : string) :
  p c = true -> has_char c (fst (break_at p s)) = false.
Proof.
  intros Hc. induction s as [|d r IH]; cbn [break_at]; [reflexivity|].
  destruct (p d) eqn:Ed; [reflexivity|].
  destruct (break_at p r) as [a b]. cbn [fst] in *. cbn [has_char]. rewrite IH, orb_false_r.
  destruct (Ascii.eqb c d) eqn:E; [apply Ascii.eqb_eq in E; subst; congruence|reflexivity].
Qed.

Lemma netloc_part_no_slash (chk : string -> option string) (u nl r : string) :
  netloc_part chk u = Returns (nl, r) -> has_char "/" nl = false.
Proof.
  unfold netloc_part. destruct (starts_with "//" u); [|intros H; injection H as <- _; reflexivity].
  pose proof (break_at_fst_excludes netloc_delim "/" (drop 2 u) eq_refl) as Hb.
  destruct (break_at netloc_delim (drop 2 u)) as [nl' rest]. cbn [fst] in Hb.
  destruct (_ || _); [discriminate|].
  destruct (_ && _).
  - destruct (check_bracketed_netloc chk nl'); cbn [obind]; [|discriminate].
    intros H; injection H as <- _; exact Hb.
  - intros H; injection H as <- _; exact Hb.
Qed.

(** ** [urlsplit], [hostname] and [port] on a plain netloc *)

Lemma urlsplit_netloc (chk : string -> option string) (sch nl : string) :
  (sch = "http" \/ sch = "https") ->
  forall_chars (fun c => negb (has_char c "/?#[]") && negb (unsafe_url_byte c)) nl = true ->
  urlsplit chk (sch ++ "://" ++ nl) = Returns (mk_split sch nl "" "" "").
Proof.
  intros Hs Hnl.
  assert (Hu : forall_chars (fun c => negb (unsafe_url_byte c)) nl = true) by weaken_chars Hnl.
  assert (Hd : forall_chars (fun c => negb (netloc_delim c)) nl = true) by weaken_chars Hnl.
  assert (Hb1 : has_char "[" nl = false) by excluded_char Hnl.
  assert (Hb2 : has_char "]" nl = false) by excluded_char Hnl.
  destruct Hs as [-> | ->]; unfold urlsplit, netloc_part; simpl lstrip_by;
    (rewrite remove_chars_none; [|simpl; exact Hu]); simpl split_first; simpl;
    rewrite break_at_all by exact Hd; simpl; rewrite Hb1, Hb2; cbn;
    rewrite (checknetloc_no_slash nl) by excluded_char Hnl; reflexivity.
Qed.

Lemma hostinfo_host_port (h pt : string) :
  has_char "@" h = false -> has_char "[" h = false -> has_char ":" h = false ->
  has_char "@" pt = false -> has_char "[" pt = false ->
  hostinfo (h ++ ":" ++ pt) = (h, if String.eqb pt "" then None else Some pt).
Proof.
  intros H1 H2 H3 P1 P2. unfold hostinfo, rpartition, partition.
  rewrite split_last_none by (rewrite has_char_app; simpl; now rewrite H1, P1).
  cbv beta iota zeta.
  rewrite split_first_none by (rewrite has_char_app; simpl; now rewrite H2, P2).
  cbv beta iota zeta.
  change (":" ++ pt) with (String ":" pt).
  rewrite split_first_here by exact H3. reflexivity.
Qed.

(** ** C9: which explicit ports [_normalize_url] drops *)

(** C9 (code bug). Port 443 is dropped from an [http] URL and port 80
    from an [https] URL, though neither is the scheme's default, and so is
    port 0. *)
Theorem normalize_drops_non_default_port :
  normalize_url no_brackets "http://a:443/" = Returns "http://a/" /\
  normalize_url no_brackets "https://a:80/" = Returns "https://a/" /\
  normalize_url no_brackets "http://a:0/" = Returns "http://a/".
Proof. vm_compute. repeat split. Qed.

(** For an [http] or [https] URL [scheme://host:port] with a
    plain host and a port in 0..65535, [_normalize_url] drops the port
    exactly when it is 0, 80 or 443, whatever the scheme, and keeps it as
    [:port] otherwise; the host is lowercased and the path becomes [/]. *)
Theorem normalize_url_explicit_port (chk : string -> option string) (s h : string) (p : N) :
  (s = "http" \/ s = "https") ->
  forall_chars plain_host_char h = true ->
  (p <= 65535)%N ->
  normalize_url chk (s ++ "://" ++ h ++ ":" ++ dec p) =
    Returns (s ++ "://" ++ lower h ++
             (if (p =? 0)%N || (p =? 80)%N || (p =? 443)%N then "" else ":" ++ dec p) ++ "/").
Proof.
  intros Hs Hh Hp.
  destruct (dec_spec p) as (Dd & Dv & Dne).
  assert (Hn : forall_chars (fun c => negb (has_char c "/?#[]") && negb (unsafe_url_byte c))
                 (h ++ ":" ++ dec p) = true).
  { rewrite forall_chars_app. apply andb_true_iff; split; [weaken_chars Hh|].
    simpl. weaken_chars Dd. }
  assert (Hstrip : py_strip (s ++ "://" ++ h ++ ":" ++ dec p) = (s ++ "://" ++ h ++ ":" ++ dec p)).
  { unfold py_strip.
    assert (Hl : lstrip_by is_space (s ++ "://" ++ h ++ ":" ++ dec p) = (s ++ "://" ++ h ++ ":" ++ dec p))
      by (destruct Hs as [-> | ->]; reflexivity).
    rewrite Hl.
    replace (s ++ "://" ++ h ++ ":" ++ dec p) with ((s ++ "://" ++ h ++ ":") ++ dec p)
      by (now rewrite !append_assoc).
    rewrite rstrip_by_app; rewrite (rstrip_by_none is_space (dec p)) by weaken_chars Dd; auto. }
  unfold normalize_url, http_prefixed. rewrite Hstrip.
  assert (Hpre : starts_with "http://" (s ++ "://" ++ h ++ ":" ++ dec p) ||
                 starts_with "https://" (s ++ "://" ++ h ++ ":" ++ dec p) = true)
    by (destruct Hs as [-> | ->]; simpl; rewrite ?orb_true_r; reflexivity).
  rewrite Hpre.
  unfold urlparse. rewrite (urlsplit_netloc chk s _ Hs Hn). cbn [obind].
  rewrite andb_false_r. cbn [obind pr_scheme pr_netloc pr_path pr_query].
  assert (Hhi : hostinfo (h ++ ":" ++ dec p) = (h, Some (dec p))).
  { rewrite hostinfo_host_port; try excluded_char Hh; try excluded_char Dd.
    destruct (dec p); [contradiction|reflexivity]. }
  cbn [sr_scheme sr_netloc sr_path sr_query sr_fragment].
  unfold hostname, port. rewrite Hhi. cbn [fst snd].
  assert (Hdig : forall_chars is_digit (dec p) && forall_chars is_ascii_char (dec p) = true).
  { apply andb_true_iff; split; weaken_chars Dd. }
  rewrite Hdig, Dv. apply N.leb_le in Hp. rewrite Hp. cbn [obind].
  assert (Hlow : lower (match (if String.eqb h "" then None else
                              let '(a, pct, zone) := partition "%" h in
                              Some (lower a ++ (if pct then "%" else "") ++ zone)) with
                        | Some x => x | None => "" end) = lower h).
  { destruct (String.eqb h "") eqn:E.
    - apply String.eqb_eq in E. now subst.
    - unfold partition. rewrite split_first_none by excluded_char Hh. simpl.
      now rewrite append_empty_r, lower_idem. }
  rewrite Hlow.
  replace (lower s) with s by (destruct Hs as [-> | ->]; reflexivity).
  change (rstrip_by (Ascii.eqb "/") "") with "". change (String.eqb "" "") with true.
  cbv iota.
  destruct ((p =? 0)%N || (p =? 80)%N || (p =? 443)%N); rewrite ?append_assoc; reflexivity.
Qed.


(** [http://Example:8080] becomes [http://example:8080/]. *)
Lemma normalize_url_explicit_port_witness :
  normalize_url no_brackets ("http" ++ "://" ++ "Example" ++ ":" ++ dec 8080) =
    Returns ("http" ++ "://" ++ lower "Example" ++
             (if (8080 =? 0)%N || (8080 =? 80)%N || (8080 =? 443)%N then "" else ":" ++ dec 8080) ++ "/").
Proof.
  apply (normalize_url_explicit_port no_brackets "http" "Example" 8080);
    [left; reflexivity | vm_compute; reflexivity | lia].
Defined.

(** ** Where [_normalize_url] raises *)

Lemma has_char_remove_chars (c : ascii) (p : ascii -> bool) (s : string) :
  has_char c (remove_chars p s) = true -> has_char c s = true.
Proof.
  induction s as [|d r IH]; simpl; [auto|].
  destruct (p d); simpl; intros H; [rewrite (IH H); apply orb_true_r|].
  apply orb_true_iff in H as [H|H]; [now rewrite H|rewrite (IH H); apply orb_true_r].
Qed.

Lemma has_char_lstrip (c : ascii) (p : ascii -> bool) (s : string) :
  has_char c (lstrip_by p s) = true -> has_char c s = true.
Proof.
  induction s as [|d r IH]; simpl; [auto|].
  destruct (p d); [intros H; simpl; rewrite (IH H); apply orb_true_r|auto].
Qed.

Lemma has_char_rstrip (c : ascii) (p : ascii -> bool) (s : string) :
  has_char c (rstrip_by p s) = true -> has_char c s = true.
Proof.
  induction s as [|d r IH]; simpl; [auto|].
  destruct (p d && String.eqb (rstrip_by p r) EmptyString); simpl; [discriminate|].
  intros H. apply orb_true_iff in H as [H|H]; [now rewrite H|rewrite (IH H); apply orb_true_r].
Qed.

Lemma has_char_drop (c : ascii) (n : nat) (s : string) :
  has_char c (drop n s) = true -> has_char c s = true.
Proof.
  revert s. induction n as [|n IH]; intros [|d r]; simpl; auto.
  intros H. rewrite (IH r H). apply orb_true_r.
Qed.

Lemma has_char_break_at (c : ascii) (p : ascii -> bool) (s : string) :
  (has_char c (fst (break_at p s)) = true -> has_char c s = true) /\
  (has_char c (snd (break_at p s)) = true -> has_char c s = true).
Proof.
  induction s as [|d r IH]; simpl; [auto|].
  destruct (p d); simpl; [split; [discriminate|auto]|].
  destruct (break_at p r) as [a b]. simpl in *. destruct IH as [IH1 IH2].
  split; intros H.
  - apply orb_true_iff in H as [H|H]; [now rewrite H|rewrite (IH1 H); apply orb_true_r].
  - rewrite (IH2 H). apply orb_true_r.
Qed.

Lemma has_char_split_first (c d : ascii) (s a b : string) :
  split_first d s = Some (a, b) ->
  (has_char c a = true -> has_char c s = true) /\ (has_char c b = true -> has_char c s = true).
Proof.
  revert a b. induction s as [|e r IH]; intros a b; simpl; [discriminate|].
  destruct (Ascii.eqb d e).
  - intros H. injection H as <- <-. simpl. split; [discriminate|].
    intros H'. rewrite H'. apply orb_true_r.
  - destruct (split_first d r) as [[a' b']|]; [|discriminate].
    intros H. injection H as <- <-. destruct (IH a' b' eq_refl) as [IH1 IH2].
    simpl. split; intros H'.
    + apply orb_true_iff in H' as [H'|H']; [now rewrite H'|rewrite (IH1 H'); apply orb_true_r].
    + rewrite (IH2 H'). apply orb_true_r.
Qed.

Lemma check_bracketed_netloc_raises (chk : string -> option string) (nl : string) (e : exc) :
  check_bracketed_netloc chk nl = Raises e -> exc_type e = ValueError.
Proof.
  unfold check_bracketed_netloc, run_check_bracketed_host, raise_value_error.
  destruct (rpartition "@" nl) as [[x y] hp].
  destruct (partition "[" hp) as [[bb [|]] br].
  - destruct (negb (String.eqb bb "")).
    + intros H. now inversion H.
    + destruct (partition "]" br) as [[hn z] pt].
      destruct (negb (String.eqb pt "") && negb (starts_with ":" pt)).
      * intros H. now inversion H.
      * destruct (chk hn); intros H; now inversion H.
  - destruct (partition ":" hp) as [[hn z] pt].
    destruct (chk hn); intros H; now inversion H.
Qed.

Lemma netloc_part_raises (chk : string -> option string) (u : string) (e : exc) :
  netloc_part chk u = Raises e ->
  exc_type e = ValueError /\ (has_char "[" u || has_char "]" u) = true.
Proof.
  unfold netloc_part. destruct (starts_with "//" u); [|discriminate].
  pose proof (fun c => has_char_drop c 2 u) as Hd.
  remember (drop 2 u) as d eqn:Hdd. clear Hdd.
  pose proof (has_char_break_at "[" netloc_delim d) as [Hb1 _].
  pose proof (has_char_break_at "]" netloc_delim d) as [Hb2 _].
  destruct (break_at netloc_delim d) as [nl rest]. cbn [fst] in Hb1, Hb2.
  destruct (has_char "[" nl) eqn:E1, (has_char "]" nl) eqn:E2; cbn [andb orb negb];
    try discriminate; intros H.
  - destruct (check_bracketed_netloc chk nl) eqn:Ec; cbn [obind] in H; [discriminate|].
    injection H as <-. split; [exact (check_bracketed_netloc_raises _ _ _ Ec)|].
    now rewrite (Hd _ (Hb1 eq_refl)).
  - injection H as <-. split; [reflexivity|].
    now rewrite (Hd _ (Hb1 eq_refl)).
  - injection H as <-. split; [reflexivity|].
    rewrite (Hd _ (Hb2 eq_refl)). apply orb_true_r.
Qed.

Lemma urlsplit_raises (chk : string -> option string) (u : string) (e : exc) :
  urlsplit chk u = Raises e ->
  exc_type e = ValueError /\ (has_char "[" u || has_char "]" u) = true.
Proof.
  unfold urlsplit.
  set (url1 := remove_chars unsafe_url_byte (lstrip_by c0_control_or_space u)).
  assert (Hsub : forall c, has_char c url1 = true -> has_char c u = true).
  { intros c H. apply (has_char_lstrip c c0_control_or_space).
    exact (has_char_remove_chars _ _ _ H). }
  assert (Hgen : forall url2, (forall c, has_char c url2 = true -> has_char c u = true) ->
            forall sch,
            obind (netloc_part chk url2) (fun nl =>
              let '(netloc, url3) := nl in
              let '(url4, fragment) :=
                match split_first "#" url3 with Some (a, b) => (a, b) | None => (url3, EmptyString) end in
              let '(url5, query) :=
                match split_first "?" url4 with Some (a, b) => (a, b) | None => (url4, EmptyString) end in
              _ <- checknetloc netloc ;;
              Returns (mk_split sch netloc url5 query fragment)) = Raises e ->
            exc_type e = ValueError /\ (has_char "[" u || has_char "]" u) = true).
  { intros url2 Hs2 sch H.
    destruct (netloc_part chk url2) as [[nl url3]|e'] eqn:En; simpl in H.
    - rewrite (checknetloc_no_slash nl (netloc_part_no_slash _ _ _ _ En)) in H.
      destruct (split_first "#" url3) as [[a b]|];
        destruct (split_first "?" _) as [[a' b']|]; discriminate.
    - inversion H; subst. apply netloc_part_raises in En as [Ht Hb]. split; [exact Ht|].
      apply orb_true_iff in Hb as [Hb|Hb]; [now rewrite (Hs2 _ Hb)|].
      rewrite (Hs2 _ Hb). apply orb_true_r. }
  destruct (split_first ":" url1) as [[before after]|] eqn:Hsf.
  - destruct before as [|c0 b'].
    + apply (Hgen url1 Hsub).
    + destruct (is_ascii_char c0 && is_ascii_alpha c0 && forall_chars scheme_char (String c0 b')).
      * apply (Hgen after). intros c Hc. apply Hsub.
        exact (proj2 (has_char_split_first c ":" _ _ _ Hsf) Hc).
      * apply (Hgen url1 Hsub).
  - apply (Hgen url1 Hsub).
Qed.

Lemma urlparse_raises (chk : string -> option string) (u : string) (e : exc) :
  urlparse chk u = Raises e -> urlsplit chk u = Raises e.
Proof.
  unfold urlparse. destruct (urlsplit chk u) as [sr|e']; cbn [obind].
  - destruct (existsb _ _ && _); [destruct (splitparams (sr_path sr))|]; intros H; discriminate H.
  - intros H. injection H as ->. reflexivity.
Qed.

Lemma urlparse_netloc (chk : string -> option string) (u : string) (pr : parse_result) :
  urlparse chk u = Returns pr ->
  exists sr, urlsplit chk u = Returns sr /\ pr_netloc pr = sr_netloc sr.
Proof.
  unfold urlparse. destruct (urlsplit chk u) as [sr|e']; cbn [obind]; [|discriminate].
  intros H. exists sr. split; [reflexivity|].
  destruct (existsb _ _ && _); [destruct (splitparams (sr_path sr))|]; injection H as <-; reflexivity.
Qed.

Lemma forall_chars_digit_ascii (s : string) :
  forall_chars is_digit s && forall_chars is_ascii_char s = forall_chars is_ascii_digit s.
Proof.
  induction s as [|c r IH]; [reflexivity|]. cbn [forall_chars].
  assert (Hc : is_digit c && is_ascii_char c = is_ascii_digit c).
  { apply Bool.eqb_prop.
    apply (all_ascii_spec (fun c => Bool.eqb (is_digit c && is_ascii_char c) (is_ascii_digit c))).
    vm_compute. reflexivity. }
  rewrite <- IH, <- Hc. destruct (is_digit c), (is_ascii_char c), (forall_chars is_digit r),
    (forall_chars is_ascii_char r); reflexivity.
Qed.

Lemma port_raises (nl : string) (e : exc) :
  port nl = Raises e ->
  exc_type e = ValueError /\
  exists p, snd (hostinfo nl) = Some p /\
            (forall_chars is_ascii_digit p = false \/ (65535 < digits_value p)%N).
Proof.
  unfold port. destruct (snd (hostinfo nl)) as [p|]; [|discriminate].
  rewrite forall_chars_digit_ascii.
  destruct (forall_chars is_ascii_digit p) eqn:Ed.
  - destruct (digits_value p <=? 65535)%N eqn:Ev; [discriminate|].
    intros H. injection H as <-. split; [reflexivity|]. exists p. split; [reflexivity|].
    right. apply N.leb_gt. exact Ev.
  - intros H. injection H as <-. split; [reflexivity|]. exists p. auto.
Qed.

Lemma has_char_http_prefixed (c : ascii) (s : string) :
  has_char c "http://" = false -> has_char c (http_prefixed s) = true -> has_char c s = true.
Proof.
  unfold http_prefixed. destruct (_ || _); [auto|].
  change ("http://" ++ s) with (String "h" (String "t" (String "t" (String "p"
    (String ":" (String "/" (String "/" s))))))).
  cbn [has_char]. intros H1 H2. cbn [has_char] in H1.
  rewrite !orb_false_iff in H1. destruct H1 as [? [? [? [? [? [? [? _]]]]]]].
  repeat match goal with Hx : Ascii.eqb c _ = false |- _ => rewrite Hx in H2 end.
  exact H2.
Qed.

Lemma has_char_py_strip (c : ascii) (s : string) :
  has_char c (py_strip s) = true -> has_char c s = true.
Proof.
  unfold py_strip. intros H. apply (has_char_lstrip c is_space).
  exact (has_char_rstrip _ _ _ H).
Qed.

(** Extra: on an input whose characters lie in U+0000..U+00FF,
    [_normalize_url] raises only [ValueError], and only when the input holds
    a square bracket or the port text of the netloc is not a string of ASCII
    digits of value at most 65535.  (Beyond U+00FF, [_checknetloc] also
    raises [ValueError] on a netloc whose NFKC form holds one of
    [/ ? # @ :], as for the fullwidth number sign U+FF03.) *)
Lemma normalize_url_raises (chk : string -> option string) (url0 : string) (e : exc) :
  normalize_url chk url0 = Raises e ->
  exc_type e = ValueError /\
  ((has_char "[" url0 || has_char "]" url0) = true \/
   exists sr p, urlsplit chk (http_prefixed (py_strip url0)) = Returns sr /\
     snd (hostinfo (sr_netloc sr)) = Some p /\
     (forall_chars is_ascii_digit p = false \/ (65535 < digits_value p)%N)).
Proof.
  unfold normalize_url.
  destruct (urlparse chk (http_prefixed (py_strip url0))) as [pr|e'] eqn:Ep; cbn [obind].
  - destruct (port (pr_netloc pr)) as [prt|e'] eqn:Eport; cbn [obind].
    + destruct prt as [p|]; [destruct (_ || _)|]; discriminate.
    + intros H. injection H as <-. apply port_raises in Eport as [Ht [p [Hp Hbad]]].
      split; [exact Ht|]. right.
      destruct (urlparse_netloc _ _ _ Ep) as [sr [Hs Hn]].
      exists sr, p. rewrite <- Hn. auto.
  - intros H. injection H as <-. apply urlparse_raises, urlsplit_raises in Ep as [Ht Hb].
    split; [exact Ht|]. left.
    apply orb_true_iff in Hb as [Hb|Hb].
    + rewrite (has_char_py_strip _ _ (has_char_http_prefixed "[" _ eq_refl Hb)). reflexivity.
    + rewrite (has_char_py_strip _ _ (has_char_http_prefixed "]" _ eq_refl Hb)). apply orb_true_r.
Qed.

(** [http://a:b/] (port text [b]) raises. *)
Lemma normalize_url_raises_witness :
  normalize_url no_brackets "http://a:b/" =
    Raises (mk_exc ValueError "Port could not be cast to integer value as 'b'") /\
  (exc_type (mk_exc ValueError "Port could not be cast to integer value as 'b'") = ValueError /\
   ((has_char "[" "http://a:b/" || has_char "]" "http://a:b/") = true \/
    exists sr p, urlsplit no_brackets (http_prefixed (py_strip "http://a:b/")) = Returns sr /\
      snd (hostinfo (sr_netloc sr)) = Some p /\
      (forall_chars is_ascii_digit p = false \/ (65535 < digits_value p)%N))).
Proof.
  split; [reflexivity|].
  apply (normalize_url_raises no_brackets "http://a:b/"). reflexivity.
Defined.

(** C7 (code bug): normalization is not total. The port text [b] of
    [http://a:b/] makes [_normalize_url] raise [ValueError] (whose message
    holds [repr] of the port text), and so does the
    unmatched bracket of [http://[x/], whatever [_check_bracketed_host]
    does. *)
Theorem normalize_url_not_total (chk : string -> option string) :
  normalize_url chk "http://a:b/" =
    Raises (mk_exc ValueError "Port could not be cast to integer value as 'b'") /\
  normalize_url chk "http://[x/" = Raises (mk_exc ValueError "Invalid IPv6 URL").
Proof. split; reflexivity. Qed.

(** C8 (code bug): normalization is not idempotent. [_normalize_url] drops
    the [;params] that [urlparse] cuts from the last path segment, and the
    trailing slash it strips can expose such a segment: [http://x/a;b/]
    becomes [http://x/a;b], which becomes [http://x/a]. A query ending in a
    space is kept at the first pass and stripped at the second. *)
Theorem normalize_url_not_idempotent (chk : string -> option string) :
  normalize_url chk "http://x/a;b/" = Returns "http://x/a;b" /\
  normalize_url chk "http://x/a;b" = Returns "http://x/a" /\
  normalize_url chk "http://a/?q #f" = Returns "http://a/?q " /\
  normalize_url chk "http://a/?q " = Returns "http://a/?q".
Proof. repeat split; reflexivity. Qed.

(** ** [_run_scan] *)

(** C4: when the reputation client is not used or raises, and no model is
    available, [_run_scan] emits the heuristic dict with [api_used] set to
    [False] when [analyze_url] returns it and the database write succeeds;
    when either of the two raises an exception [e], it emits the error dict
    of [e] instead. *)
Theorem run_scan_heuristic_fallback (V : Type) (py_int : Z -> V) (py_str : string -> V)
  (py_bool : bool -> V) (py_list : list V -> V) (py_dict : list (string * V) -> V)
  (key_available : bool) (scan : outcome (list (string * V))) (model_ok : bool)
  (ml : outcome (option (list (string * V)))) (heuristic : outcome (list (string * V)))
  (insert_scan : list (string * V) -> outcome unit) :
  (key_available = false \/ exists e, scan = Raises e) ->
  model_ok = false ->
  run_scan V py_int py_str py_bool py_list py_dict key_available scan model_ok ml heuristic
    insert_scan =
  match heuristic with
  | Returns h =>
      match insert_scan (dict_set V "api_used" (py_bool false) h) with
      | Returns _ => dict_set V "api_used" (py_bool false) h
      | Raises e => error_dict V py_int py_str py_list py_dict e
      end
  | Raises e => error_dict V py_int py_str py_list py_dict e
  end.
Proof.
  intros Hscan ->. unfold run_scan.
  destruct Hscan as [-> | [e ->]]; [|destruct key_available];
    cbv zeta; cbn [dict_empty andb obind];
    (destruct heuristic as [h|e']; cbn [obind]; [|reflexivity]);
    destruct (insert_scan (dict_set V "api_used" (py_bool false) h)); reflexivity.
Qed.

(** A run: the API key is rejected, no model, the heuristic returns a dict
    and the database write succeeds. *)
Lemma run_scan_heuristic_fallback_witness :
  run_scan pyval PInt PStr PBool PList PDict true (Raises (mk_exc RuntimeError MSG_INVALID_KEY))
    false (Returns None) (Returns [("risk_score", PInt 5)]) (fun _ => Returns tt) =
  match Returns [("risk_score", PInt 5)] with
  | Returns h =>
      match (fun _ : list (string * pyval) => Returns tt) (dict_set pyval "api_used" (PBool false) h) with
      | Returns _ => dict_set pyval "api_used" (PBool false) h
      | Raises e => error_dict pyval PInt PStr PList PDict e
      end
  | Raises e => error_dict pyval PInt PStr PList PDict e
  end.
Proof.
  apply run_scan_heuristic_fallback; [right; eexists; reflexivity | reflexivity].
Defined.

(** C4 counterexample: for [http://%5Bx] the reputation client can fail with
    its own [RuntimeError] (here the key is rejected, HTTP 401) while
    [analyze_url] raises [ValueError] on the unquoted [http://[x]; with no
    model, [_run_scan] emits the error dict, not a heuristic result. *)
Lemma run_scan_fallback_counterexample :
  snd (scan_url no_brackets "0123456789abcdef0123456789abcdef" (Http 401 (BodyInvalid "Expecting value: line 1 column 1 (char 0)"))
         (fun _ => NetError "unused") "http://%5Bx") =
    Raises (mk_exc RuntimeError MSG_INVALID_KEY) /\
  analyze_url no_brackets "http://%5Bx" = Some (Raises (mk_exc ValueError "Invalid IPv6 URL")) /\
  run_scan pyval PInt PStr PBool PList PDict true (Raises (mk_exc RuntimeError MSG_INVALID_KEY))
    false (Returns None) (Raises (mk_exc ValueError "Invalid IPv6 URL")) (fun _ => Returns tt) =
    [("risk_score", PInt 0); ("classification", PStr "Error"); ("confidence", PInt 0);
     ("engine", PStr "N/A"); ("reasoning", PList [PStr "Invalid IPv6 URL"]);
     ("features", PDict [])].
Proof. split; [|split]; reflexivity. Qed.

(** ** [round(x, 2)] on reals *)

Lemma round_half_even_bounds (y : R) (a b : Z) :
  (IZR a <= y <= IZR b)%R -> (a <= round_half_even y <= b)%Z.
Proof.
  intros [Ha Hb]. unfold round_half_even.
  destruct (base_Int_part y) as [B1 B2].
  set (f := Int_part y) in *.
  assert (Haf : (a <= f)%Z).
  { assert (IZR a < IZR (f + 1))%R by (rewrite plus_IZR; lra).
    apply lt_IZR in H. lia. }
  assert (Hfb : (f <= b)%Z) by (apply le_IZR; lra).
  destruct (Rlt_dec (y - IZR f) (1 / 2)) as [Hr|Hr]; [lia|].
  assert (Hfb' : (f < b)%Z) by (apply lt_IZR; lra).
  destruct (Rlt_dec (1 / 2) (y - IZR f)); [lia|].
  destruct (Z.even f); lia.
Qed.

Lemma round_half_even_near (y : R) (z : Z) :
  (IZR z - 1 / 2 < y < IZR z + 1 / 2)%R -> round_half_even y = z.
Proof.
  intros [H1 H2]. unfold round_half_even.
  destruct (Rle_lt_dec (IZR z) y) as [Hz|Hz].
  - assert (Hf : Int_part y = z) by (symmetry; apply Int_part_spec; lra).
    rewrite Hf. destruct (Rlt_dec (y - IZR z) (1 / 2)); [reflexivity|lra].
  - assert (Hf : Int_part y = (z - 1)%Z)
      by (symmetry; apply Int_part_spec; rewrite minus_IZR; lra).
    rewrite Hf, minus_IZR.
    destruct (Rlt_dec (y - (IZR z - 1)) (1 / 2)); [lra|].
    destruct (Rlt_dec (1 / 2) (y - (IZR z - 1))); [lia|lra].
Qed.

Lemma py_round_2_bounds (x : R) (a b : Z) :
  (IZR a <= x <= IZR b)%R -> (IZR a <= py_round x 2 <= IZR b)%R.
Proof.
  intros Hx. unfold py_round.
  assert (Hp : (10 ^ 2 = 100)%R) by (simpl; lra). rewrite Hp.
  destruct (round_half_even_bounds (x * 100) (a * 100) (b * 100)) as [L U].
  { rewrite !mult_IZR. lra. }
  apply IZR_le in L, U. rewrite mult_IZR in L, U. lra.
Qed.

(** ** The example URL of the specification *)

(** [analyze_url] on [http://paypa1-secure-login.tk/verify/account/update]:
    the host [paypa1-secure-login.tk] has two hyphens (+6), five keywords
    (+20), the [.tk] TLD (+8), one brand variant (+8), no HTTPS (+5), and an
    entropy penalty between 0 and 15. *)
Lemma paypal_example_analysis :
  exists r,
    analyze_url no_brackets "http://paypa1-secure-login.tk/verify/account/update" =
      Some (Returns r) /\
    In (RKeywords ["login"; "verify"; "secure"; "account"; "update"] 20) (h_reasoning r) /\
    In (RBrandSpoofing [("paypal (variant: paypa1)", 1)] 8) (h_reasoning r) /\
    In (RRiskyTld 8) (h_reasoning r) /\
    h_classification r = "Suspicious" /\
    (47 <= h_risk_score r <= 62)%R.
Proof.
  unfold analyze_url.
  assert (Hp : heuristic_parse no_brackets "http://paypa1-secure-login.tk/verify/account/update" =
               Some (Returns (mk_hparsed "http://paypa1-secure-login.tk/verify/account/update"
                                "http" "paypa1-secure-login.tk" "/verify/account/update")))
    by (vm_compute; reflexivity).
  rewrite Hp. cbn [option_map omap]. eexists. split; [reflexivity|].
  unfold analyze_parsed. cbn [hp_host].
  assert (Hm : measure (mk_hparsed "http://paypa1-secure-login.tk/verify/account/update"
                                "http" "paypa1-secure-login.tk" "/verify/account/update") =
               mk_measures 22 2 ["login"; "verify"; "secure"; "account"; "update"] 8 false 0 []
                 [("paypal (variant: paypa1)", 1)] false 3 false 1)
    by (vm_compute; reflexivity).
  rewrite Hm.
  set (e := shannon_entropy "paypa1-secure-login.tk").
  assert (Hd : check_digits (digit_ratio 22 1) = []).
  { unfold check_digits, digit_ratio. cbn [Nat.eqb].
    destruct (Rlt_dec 0.3 (INR 1 / INR 22)) as [H|H]; [|reflexivity].
    exfalso. simpl INR in H. lra. }
  assert (Hc : contributions (mk_measures 22 2 ["login"; "verify"; "secure"; "account"; "update"]
                 8 false 0 [] [("paypal (variant: paypa1)", 1)] false 3 false 1) e =
               (check_entropy e ++
                [(RHyphens 2 6, 6%R);
                 (RKeywords ["login"; "verify"; "secure"; "account"; "update"] 20, 20%R);
                 (RRiskyTld 8, 8%R);
                 (RBrandSpoofing [("paypal (variant: paypa1)", 1)] 8, 8%R);
                 (RNoHttps, 5%R)])%list).
  { unfold contributions. cbn [m_domain_len m_hyphen_count m_keywords m_tld_score m_is_ip
      m_subdomain_depth m_homographs m_brand_hits m_uses_https m_path_depth m_at_sign
      m_digit_count].
    rewrite Hd.
    unfold check_domain_length, check_hyphens, check_keywords, check_tld, check_ip,
      check_subdomains, check_homographs, check_brands, check_https, check_path.
    cbn [Nat.ltb Nat.leb Nat.eqb Z.leb List.length app].
    replace (Rmin (INR 2 * 3) 12) with 6%R by (rewrite Rmin_left; simpl; lra).
    replace (Rmin (INR 5 * 4) 20) with 20%R by (rewrite Rmin_left; simpl; lra).
    replace (Rmin (INR 1 * 8) 20) with 8%R by (rewrite Rmin_left; simpl; lra).
    replace (INR 8) with 8%R by (simpl; lra).
    reflexivity. }
  unfold score_measures. rewrite Hc.
  assert (He : exists s, (0 <= s <= 15)%R /\ sum_amounts (check_entropy e ++
                [(RHyphens 2 6, 6%R);
                 (RKeywords ["login"; "verify"; "secure"; "account"; "update"] 20, 20%R);
                 (RRiskyTld 8, 8%R);
                 (RBrandSpoofing [("paypal (variant: paypa1)", 1)] 8, 8%R);
                 (RNoHttps, 5%R)])%list = (47 + s)%R).
  { unfold check_entropy, sum_amounts.
    destruct (Rlt_dec 3.8 e) as [H|H]; cbn [app fold_left snd].
    - exists (Rmin ((e - 3.8) * 8) 15). split; [|lra].
      split; [apply Rmin_glb; lra|apply Rmin_r].
    - exists 0%R. split; lra. }
  destruct He as [s [Hs Hsum]]. rewrite Hsum.
  assert (Hsc : Rmax 0 (Rmin 100 (47 + s)) = (47 + s)%R).
  { rewrite Rmin_right by lra. apply Rmax_right. lra. }
  rewrite Hsc. cbn [h_reasoning h_classification h_risk_score].
  assert (Hcs : forall (l : list (reason * R)) a rest,
            match (l ++ a :: rest)%list with [] => [RNoIndicators] | _ => map fst (l ++ a :: rest) end =
            map fst (l ++ a :: rest)) by (intros [|] ? ?; reflexivity).
  rewrite Hcs, map_app. cbn [map fst].
  repeat split; try (apply in_app_iff; right; cbn; tauto).
  - unfold classify. destruct (Rlt_dec (47 + s) 30); [lra|].
    destruct (Rlt_dec (47 + s) 65); [reflexivity|lra].
  - apply (py_round_2_bounds (47 + s) 47 62). lra.
  - apply (py_round_2_bounds (47 + s) 47 62). lra.
Qed.

(** C3: on [http://paypa1-secure-login.tk/verify/account/update] the
    keyword, brand-spoofing and high-risk-TLD checks fire, and the result is
    [Suspicious] with a risk score between 47 and 62. *)
Theorem paypal_example_suspicious :
  exists r,
    analyze_url no_brackets "http://paypa1-secure-login.tk/verify/account/update" =
      Some (Returns r) /\
    In (RKeywords ["login"; "verify"; "secure"; "account"; "update"] 20) (h_reasoning r) /\
    In (RBrandSpoofing [("paypal (variant: paypa1)", 1)] 8) (h_reasoning r) /\
    In (RRiskyTld 8) (h_reasoning r) /\
    h_classification r = "Suspicious" /\
    (47 <= h_risk_score r <= 62)%R.
Proof. exact paypal_example_analysis. Qed.

(** C3 counterexample: the example URL is not classified [Phishing] and its
    risk score is below 65. *)
Lemma paypal_example_not_phishing :
  exists r,
    analyze_url no_brackets "http://paypa1-secure-login.tk/verify/account/update" =
      Some (Returns r) /\
    h_classification r <> "Phishing" /\ (h_risk_score r < 65)%R.
Proof.
  destruct paypal_example_analysis as (r & H1 & _ & _ & _ & H5 & _ & H6).
  exists r. split; [exact H1|]. split; [rewrite H5; discriminate|lra].
Qed.

(** ** The bucket of the score and its rounding *)

(** [analyze_url] classifies the clamped score before rounding it; the risk
    score is that score rounded to two places and lies in [0, 100]. *)
Lemma analyze_parsed_score (hp : hparsed) :
  exists s,
    s = Rmax 0 (Rmin 100 (sum_amounts (contributions (measure hp) (shannon_entropy (hp_host hp))))) /\
    (0 <= s <= 100)%R /\
    h_risk_score (analyze_parsed hp) = py_round s 2 /\
    h_classification (analyze_parsed hp) = classify s /\
    (0 <= h_risk_score (analyze_parsed hp) <= 100)%R.
Proof.
  eexists. split; [reflexivity|].
  set (t := sum_amounts (contributions (measure hp) (shannon_entropy (hp_host hp)))).
  assert (Hb : (0 <= Rmax 0 (Rmin 100 t) <= 100)%R).
  { split; [apply Rmax_l|]. apply Rmax_lub; [lra|apply Rmin_l]. }
  split; [exact Hb|].
  unfold analyze_parsed, score_measures. cbn [h_risk_score h_classification]. fold t.
  split; [reflexivity|]. split; [reflexivity|].
  apply (py_round_2_bounds _ 0 100). exact Hb.
Qed.

Lemma ln_le_minus_1 (y : R) : (0 < y)%R -> (ln y <= y - 1)%R.
Proof.
  intros Hy. rewrite <- (ln_exp (y - 1)).
  assert (Hle : (y <= exp (y - 1))%R) by (pose proof (exp_ineq1_le (y - 1)); lra).
  destruct (Rle_lt_or_eq_dec _ _ Hle) as [Hlt|Heq].
  - left. apply ln_increasing; assumption.
  - right. rewrite <- Heq. reflexivity.
Qed.

Lemma entropy_term_le (p : R) : (0 < p)%R -> (- (p * log2 p) <= (1 - p) / ln 2)%R.
Proof.
  intros Hp. unfold log2.
  assert (Hl2 : (0 < ln 2)%R) by (pose proof ln_lt_2; lra).
  pose proof (ln_le_minus_1 (/ p) (Rinv_0_lt_compat _ Hp)) as H.
  rewrite ln_Rinv in H by exact Hp.
  assert (Hq : (- (p * (ln p / ln 2)) = (p * - ln p) / ln 2)%R) by (field; lra).
  rewrite Hq. apply Rmult_le_compat_r; [left; apply Rinv_0_lt_compat; exact Hl2|].
  replace (1 - p)%R with (p * (/ p - 1))%R by (field; lra).
  apply Rmult_le_compat_l; lra.
Qed.

(** C1 (code bug): for [http://] followed by 94 digits [1], 115 letters [z]
    and the path [/z/z/z/z/z/z/z], the score is 12 (long domain) + 5 (no
    HTTPS) + 4 (path depth 7) + 1880/209 (digit ratio 94/209) = 6269/209,
    about 29.9952; the entropy of the two-letter host is below 2.  The
    classification of that score is [Safe] while the risk score, rounded to
    two places, is 30.0, in the [Suspicious] bucket. *)
Theorem risk_score_rounds_past_bucket :
  exists r,
    analyze_url no_brackets
      ("http://" ++ (repeat_char 94 "1" ++ repeat_char 115 "z") ++ "/z/z/z/z/z/z/z") =
      Some (Returns r) /\
    h_risk_score r = 30%R /\ h_classification r = "Safe".
Proof.
  set (host := repeat_char 94 "1" ++ repeat_char 115 "z").
  set (url := "http://" ++ host ++ "/z/z/z/z/z/z/z").
  unfold analyze_url.
  assert (Hp : heuristic_parse no_brackets url =
               Some (Returns (mk_hparsed url "http" host "/z/z/z/z/z/z/z")))
    by (vm_compute; reflexivity).
  rewrite Hp. cbn [option_map omap]. eexists. split; [reflexivity|].
  unfold analyze_parsed. cbn [hp_host].
  assert (Hm : measure (mk_hparsed url "http" host "/z/z/z/z/z/z/z") =
               mk_measures 209 0 [] 0 false (-1) [] [] false 7 false 94)
    by (vm_compute; reflexivity).
  rewrite Hm.
  assert (Hl2 : (/ 2 < ln 2)%R) by exact ln_lt_2.
  assert (He : (shannon_entropy host <= 3.8)%R).
  { unfold shannon_entropy.
    assert (Hc : counter host = [("1"%char, 94); ("z"%char, 115)]) by (vm_compute; reflexivity).
    assert (Hlen : String.length host = 209) by (vm_compute; reflexivity).
    assert (Hne : String.eqb host "" = false) by (vm_compute; reflexivity).
    rewrite Hne, Hc, Hlen. cbn [fold_left snd].
    replace (INR 94) with 94%R by (simpl; lra).
    replace (INR 115) with 115%R by (simpl; lra).
    replace (INR 209) with 209%R by (simpl; lra).
    set (p1 := (94 / 209)%R). set (p2 := (115 / 209)%R).
    assert (H1 : (0 < p1)%R) by (unfold p1; lra).
    assert (H2 : (0 < p2)%R) by (unfold p2; lra).
    assert (H12 : (p1 + p2 = 1)%R) by (unfold p1, p2; lra).
    pose proof (entropy_term_le p1 H1). pose proof (entropy_term_le p2 H2).
    assert (Hb : ((1 - p1) / ln 2 + (1 - p2) / ln 2 = / ln 2)%R)
      by (replace p2 with (1 - p1)%R by lra; field; lra).
    assert (Hi : (/ ln 2 < 2)%R).
    { apply (Rmult_lt_reg_r (ln 2)); [lra|]. rewrite Rinv_l by lra. lra. }
    lra. }
  set (e := shannon_entropy host) in *.
  assert (Hc : contributions (mk_measures 209 0 [] 0 false (-1) [] [] false 7 false 94) e =
               [(RLongDomain 209 12, 12%R); (RNoHttps, 5%R); (RDeepPath 7 4, 4%R);
                (RDigitRatio (INR 94 / INR 209) (INR 94 / INR 209 * 20), (INR 94 / INR 209 * 20)%R)]).
  { unfold contributions. cbn [m_domain_len m_hyphen_count m_keywords m_tld_score m_is_ip
      m_subdomain_depth m_homographs m_brand_hits m_uses_https m_path_depth m_at_sign
      m_digit_count].
    unfold check_domain_length, check_entropy, check_hyphens, check_keywords, check_tld, check_ip,
      check_subdomains, check_homographs, check_brands, check_https, check_path,
      check_digits, digit_ratio.
    destruct (Rlt_dec 3.8 e) as [H|_]; [lra|].
    cbn [Nat.ltb Nat.leb Nat.eqb List.length app Nat.sub].
    change ((3 <=? -1)%Z) with false. cbn [app].
    destruct (Rlt_dec 0.3 (INR 94 / INR 209)) as [_|H]; [|exfalso; simpl INR in H; lra].
    replace (Rmin ((INR 209 - 30) * 0.5) 12) with 12%R by (rewrite Rmin_right; simpl INR; lra).
    replace (Rmin (INR 2 * 2) 8) with 4%R by (rewrite Rmin_left; simpl INR; lra).
    replace (Rmin (INR 94 / INR 209 * 20) 10) with (INR 94 / INR 209 * 20)%R
      by (rewrite Rmin_left; simpl INR; lra).
    reflexivity. }
  unfold score_measures. rewrite Hc. unfold sum_amounts. cbn [fold_left snd].
  assert (Hs : (0 + 12 + 5 + 4 + INR 94 / INR 209 * 20 = 6269 / 209)%R) by (simpl INR; field).
  rewrite Hs.
  assert (Hsc : Rmax 0 (Rmin 100 (6269 / 209)) = (6269 / 209)%R).
  { rewrite Rmin_right by lra. apply Rmax_right. lra. }
  rewrite Hsc. cbn [h_classification h_risk_score]. split.
  - unfold py_round. replace (10 ^ 2)%R with 100%R by (simpl; lra).
    rewrite (round_half_even_near (6269 / 209 * 100) 3000) by lra. lra.
  - unfold classify. destruct (Rlt_dec (6269 / 209) 30); [reflexivity|lra].
Qed.

(** ** [scan_url] *)

(** A loop of [n] polls all pending performs [n] rounds of sleep, rate-limit
    acquisition and GET, then raises the time-out error. *)
Lemma poll_loop_pending (aid : json) (poll : nat -> net_response) (n k : nat) :
  (forall i, k <= i < k + n -> poll_pending (poll i) = true) ->
  poll_loop aid poll k n =
    (List.concat (repeat [ESleep 5; EAcquire; EGet aid] n), runtime_error MSG_TIMED_OUT).
Proof.
  revert k. induction n as [|n IH]; intros k Hp; [reflexivity|].
  cbn [poll_loop]. rewrite (IH (S k)) by (intros i Hi; apply Hp; lia).
  specialize (Hp k ltac:(lia)). unfold poll_pending in Hp.
  destruct (poll k) as [msg|status b]; [reflexivity|].
  destruct (negb (status =? 200)%Z); [reflexivity|].
  destruct (poll_body b) as [[r|]|e]; cbn in Hp; [discriminate|reflexivity|discriminate].
Qed.

(** When the submission is accepted and every one of the 12 polls is
    pending, [scan_url] performs the acquisition and the POST, then 12 rounds
    of a 5-second sleep, an acquisition and a GET, and raises
    [VirusTotal analysis timed out]. *)
Theorem scan_url_times_out (chk : string -> option string) (env_key url0 url : string)
  (status : Z) (j aid : json) (poll : nat -> net_response) :
  String.eqb (py_strip env_key) "" = false ->
  normalize_url chk url0 = Returns url ->
  ((status =? 200)%Z || (status =? 201)%Z) = true ->
  (d <- py_getitem j "data" ;; py_getitem d "id") = Returns aid ->
  (forall i, i < 12 -> poll_pending (poll i) = true) ->
  scan_url chk env_key (Http status (BodyJson j)) poll url0 =
    ((EAcquire :: EPost url :: List.concat (repeat [ESleep 5; EAcquire; EGet aid] 12))%list,
     runtime_error MSG_TIMED_OUT).
Proof.
  intros Hk Hn Hs Hj Hp. unfold scan_url. rewrite Hk, Hn.
  assert (H401 : (status =? 401)%Z = false) by (apply Z.eqb_neq; intros ->; discriminate Hs).
  assert (H429 : (status =? 429)%Z = false) by (apply Z.eqb_neq; intros ->; discriminate Hs).
  rewrite H401, H429, Hs. cbn [negb resp_json obind].
  rewrite Hj. rewrite (poll_loop_pending aid poll 12 0) by (intros i Hi; apply Hp; lia).
  reflexivity.
Qed.

(** Twelve polls answering [queued] *)
Lemma scan_url_times_out_witness :
  scan_url no_brackets "0123456789abcdef0123456789abcdef"
    (Http 200 (BodyJson (JObj [("data", JObj [("id", JStr "u-1")])])))
    (fun _ => Http 200 (BodyJson (JObj [("data", JObj [("attributes", JObj [("status", JStr "queued")])])])))
    "http://example.com/" =
    ((EAcquire :: EPost "http://example.com/" ::
      List.concat (repeat [ESleep 5; EAcquire; EGet (JStr "u-1")] 12))%list,
     runtime_error MSG_TIMED_OUT).
Proof.
  apply scan_url_times_out; [reflexivity | reflexivity | reflexivity | reflexivity |].
  intros i _. reflexivity.
Defined.

(** A submission answered 401 raises [Invalid VirusTotal API key] after one
    acquisition and the POST, with no poll. *)
Theorem scan_url_invalid_key (chk : string -> option string) (env_key url0 url : string)
  (b : body) (poll : nat -> net_response) :
  String.eqb (py_strip env_key) "" = false ->
  normalize_url chk url0 = Returns url ->
  scan_url chk env_key (Http 401 b) poll url0 = ([EAcquire; EPost url], runtime_error MSG_INVALID_KEY).
Proof. intros Hk Hn. unfold scan_url. rewrite Hk, Hn. reflexivity. Qed.

(** A 401 on the submission of [http://example.com/] *)
Lemma scan_url_invalid_key_witness :
  scan_url no_brackets "0123456789abcdef0123456789abcdef" (Http 401 (BodyInvalid "Expecting value: line 1 column 1 (char 0)"))
    (fun _ => NetError "unused") "http://example.com/" =
  ([EAcquire; EPost "http://example.com/"], runtime_error MSG_INVALID_KEY).
Proof. apply scan_url_invalid_key; reflexivity. Defined.

(** C5 (code bug): a poll answered 200 with a body that is not JSON makes
    [scan_url] raise, after the first poll, the [JSONDecodeError] (a
    [ValueError]) of [resp.json()] with the decoder's message [msg], whatever
    that message is; the job never reached [completed], and the loop does not
    go on to 12 polls and the time-out error. *)
Theorem scan_url_invalid_poll_body (msg : string) :
  scan_url no_brackets "0123456789abcdef0123456789abcdef"
    (Http 200 (BodyJson (JObj [("data", JObj [("id", JStr "u-1")])])))
    (fun _ => Http 200 (BodyInvalid msg)) "http://example.com/" =
  ([EAcquire; EPost "http://example.com/"; ESleep 5; EAcquire; EGet (JStr "u-1")],
   Raises (mk_exc ValueError msg)).
Proof. reflexivity. Qed.


(** ** [_rate_limit_wait] *)

Lemma filter_all_true {A} (f : A -> bool) (l : list A) :
  (forall y, In y l -> f y = true) -> filter f l = l.
Proof.
  induction l as [|x r IH]; intros H; [reflexivity|]. cbn [filter].
  rewrite (H x (or_introl eq_refl)), IH; [reflexivity|]. intros y Hy. apply H. now right.
Qed.

(** A filter whose predicate, once true along the list, stays true keeps a
    suffix. *)
Lemma filter_upclosed (f : Q -> bool) (l : list Q) :
  (forall i j, i <= j < List.length l -> f (nth i l 0%Q) = true -> f (nth j l 0%Q) = true) ->
  exists q, q <= List.length l /\ filter f l = skipn q l /\
    (forall i, i < q -> f (nth i l 0%Q) = false) /\
    (forall i, q <= i < List.length l -> f (nth i l 0%Q) = true).
Proof.
  induction l as [|x r IH]; intros Hup.
  - exists 0. repeat split; intros; cbn in *; lia.
  - destruct (f x) eqn:Ex.
    + exists 0. cbn [List.length].
      assert (Hall : forall i, i < S (List.length r) -> f (nth i (x :: r) 0%Q) = true).
      { intros i Hi. apply (Hup 0 i); [cbn [List.length]; lia|exact Ex]. }
      split; [lia|]. split; [|split; [intros; lia|intros i Hi; apply Hall; lia]].
      apply filter_all_true. intros y Hy.
      destruct (In_nth _ _ 0%Q Hy) as [i [Hi <-]]. apply Hall. exact Hi.
    + destruct IH as [q (Hq & Hf & Hlo & Hhi)].
      { intros i j Hij Hi. apply (Hup (S i) (S j)); [cbn [List.length]; lia|exact Hi]. }
      exists (S q). cbn [List.length filter]. rewrite Ex.
      split; [lia|]. split; [exact Hf|]. split.
      * intros [|i] Hi; [exact Ex|]. apply Hlo. lia.
      * intros [|i] Hi; [lia|]. apply Hhi. lia.
Qed.

Lemma hd_nth_0 (l : list Q) : hd 0%Q l = nth 0 l 0%Q.
Proof. destruct l; reflexivity. Qed.

(** Along a run: the admissions are in time order and not after the clock;
    each admission is at least 60 seconds after the one four places before
    it; [_request_times] is a suffix of the admissions, and each admission
    before it lies 60 seconds or more before the clock. *)
Lemma limiter_run_inv (L adm : list Q) (clock : Q) :
  limiter_run L adm clock ->
  (forall i j, i <= j < List.length adm -> (nth i adm 0 <= nth j adm 0)%Q) /\
  (forall i, i < List.length adm -> (nth i adm 0 <= clock)%Q) /\
  (forall i, i + 4 < List.length adm -> (nth i adm 0 + 60 <= nth (i + 4) adm 0)%Q) /\
  exists p, p <= List.length adm /\ L = skipn p adm /\
    (forall i, i < p -> (nth i adm 0 + 60 <= clock)%Q).
Proof.
  induction 1 as [c|L adm clock now t L' Hrun IH Hclock Hw].
  - split; [intros; cbn in *; lia|]. split; [intros; cbn in *; lia|].
    split; [intros; cbn in *; lia|]. exists 0. repeat split; intros; cbn in *; lia.
  - destruct IH as (Hsort & Hle & Hsp & p & Hp & HL & Hpre).
    set (n := List.length adm) in *.
    inversion Hw as [Hst]; subst L'.
    (* the kept timestamps form a suffix of [adm] *)
    destruct (filter_upclosed (fun t0 => qlt (now - t0) RATE_WINDOW) (skipn p adm))
      as [q0 (Hq0 & Hf & Hlo & Hhi)].
    { intros i j Hij Hi. rewrite length_skipn in Hij. rewrite nth_skipn in Hi |- *.
      apply qlt_true in Hi. apply qlt_true.
      pose proof (Hsort (p + i) (p + j) ltac:(fold n; lia)). unfold RATE_WINDOW in *. Lqa.lra. }
    rewrite length_skipn in Hq0, Hhi. fold n in Hq0, Hhi.
    set (q := p + q0).
    assert (HK : prune now L = skipn q adm).
    { unfold prune. rewrite HL, Hf, skipn_skipn. f_equal. lia. }
    assert (Hout : forall i, p <= i < q -> (nth i adm 0 + 60 <= now)%Q).
    { intros i Hi. specialize (Hlo (i - p) ltac:(lia)). rewrite nth_skipn in Hlo.
      replace (p + (i - p)) with i in Hlo by lia. apply qlt_false in Hlo.
      unfold RATE_WINDOW in Hlo. Lqa.lra. }
    assert (Hin : forall i, q <= i < n -> (now - nth i adm 0 < 60)%Q).
    { intros i Hi. specialize (Hhi (i - p) ltac:(lia)). rewrite nth_skipn in Hhi.
      replace (p + (i - p)) with i in Hhi by lia. apply qlt_true in Hhi. exact Hhi. }
    rewrite HK in Hst.
    (* the second reading is not before the first *)
    assert (Hnt : (now <= t)%Q).
    { unfold sleep_time in Hst.
      destruct (RATE_LIMIT <=? List.length (skipn q adm)); [|exact Hst].
      destruct (qlt 0 _) eqn:Eq; [|exact Hst].
      apply qlt_true in Eq. Lqa.lra. }
    assert (Hlen : List.length (adm ++ [t]) = S n) by (rewrite length_app; cbn; fold n; lia).
    assert (Hnth : forall i, i < n -> nth i (adm ++ [t]) 0%Q = nth i adm 0%Q)
      by (intros i Hi; apply app_nth1; exact Hi).
    assert (Hlast : nth n (adm ++ [t]) 0%Q = t)
      by (rewrite app_nth2 by (unfold n; lia); fold n; rewrite Nat.sub_diag; reflexivity).
    rewrite Hlen. split; [|split; [|split]].
    + intros i j Hij. destruct (Nat.eq_dec j n) as [->|Hj].
      * rewrite Hlast. destruct (Nat.eq_dec i n) as [->|Hi]; [rewrite Hlast; apply Qle_refl|].
        rewrite Hnth by lia. specialize (Hle i ltac:(lia)). Lqa.lra.
      * rewrite !Hnth by lia. apply Hsort. lia.
    + intros i Hi. destruct (Nat.eq_dec i n) as [->|Hi']; [rewrite Hlast; apply Qle_refl|].
      rewrite Hnth by lia. specialize (Hle i ltac:(lia)). Lqa.lra.
    + intros i Hi. destruct (Nat.eq_dec (i + 4) n) as [Hn|Hn].
      * rewrite Hn, Hlast, Hnth by lia.
        destruct (Nat.lt_ge_cases i q) as [Hiq|Hiq].
        -- destruct (Nat.lt_ge_cases i p) as [Hip|Hip].
           ++ specialize (Hpre i Hip). Lqa.lra.
           ++ specialize (Hout i ltac:(lia)). Lqa.lra.
        -- (* [i] is kept, so exactly the last four are kept and the call sleeps *)
           assert (Hq : q = i).
           { destruct (Nat.eq_dec q i) as [E|E]; [exact E|].
             assert (Hq4 : q + 4 < n) by lia.
             specialize (Hsp q Hq4). specialize (Hle (q + 4) ltac:(lia)).
             specialize (Hin q ltac:(lia)). Lqa.lra. }
           unfold sleep_time in Hst. rewrite length_skipn in Hst. fold n in Hst.
           replace (RATE_LIMIT <=? n - q) with true in Hst
             by (symmetry; apply Nat.leb_le; unfold RATE_LIMIT; lia).
           rewrite hd_nth_0, nth_skipn, Nat.add_0_r in Hst.
           specialize (Hin q ltac:(lia)).
           assert (Hpos : qlt 0 (RATE_WINDOW - (now - nth q adm 0) + (1 # 2))%Q = true)
             by (apply qlt_true; unfold RATE_WINDOW; Lqa.lra).
           rewrite Hpos in Hst. rewrite <- Hq. unfold RATE_WINDOW in Hst. Lqa.lra.
      * rewrite !Hnth by lia. apply Hsp. lia.
    + exists q. split; [lia|]. split.
      * rewrite HK, skipn_app. fold n. replace (q - n) with 0 by lia. reflexivity.
      * intros i Hi. rewrite Hnth by lia.
        destruct (Nat.lt_ge_cases i p) as [Hip|Hip].
        -- specialize (Hpre i Hip). Lqa.lra.
        -- specialize (Hout i ltac:(lia)). Lqa.lra.
Qed.

(** Past [k] elements selected by [f], two of them lie [k] positions apart. *)
Lemma filter_far_pair (f : Q -> bool) (l : list Q) (k : nat) :
  k < List.length (filter f l) ->
  exists i j, i + k <= j < List.length l /\ f (nth i l 0%Q) = true /\ f (nth j l 0%Q) = true.
Proof.
  revert k. induction l as [|x r IH]; intros k Hk; [cbn in Hk; lia|].
  cbn [filter] in Hk. destruct (f x) eqn:Ex.
  - cbn [List.length] in Hk. destruct k as [|k].
    + exists 0, 0. cbn [List.length nth]. repeat split; try lia; exact Ex.
    + destruct (IH k ltac:(lia)) as (i & j & Hij & Hi & Hj).
      exists 0, (S j). cbn [List.length nth]. repeat split; try lia; assumption.
  - destruct (IH k Hk) as (i & j & Hij & Hi & Hj).
    exists (S i), (S j). cbn [List.length nth]. repeat split; try lia; assumption.
Qed.

(** C6: along any run of [_rate_limit_wait] calls, at most 4 admissions
    lie in any interval [[x, x + 60)], and each admission is at least 60
    seconds after the admission four places before it: a fifth call made
    right after four others is admitted only once the first admission has
    left the 60-second window. *)
Theorem rate_limiter_window (L adm : list Q) (clock : Q) :
  limiter_run L adm clock ->
  (forall x, List.length (filter (in_window x) adm) <= RATE_LIMIT) /\
  (forall i, i + 4 < List.length adm -> (nth i adm 0 + RATE_WINDOW <= nth (i + 4) adm 0)%Q).
Proof.
  intros Hrun. destruct (limiter_run_inv _ _ _ Hrun) as (Hsort & _ & Hsp & _).
  split; [|exact Hsp].
  intros x. unfold RATE_LIMIT. destruct (Nat.le_gt_cases (List.length (filter (in_window x) adm)) 4)
    as [H|H]; [exact H|exfalso].
  destruct (filter_far_pair _ _ 4 H) as (i & j & Hij & Hi & Hj).
  unfold in_window in Hi, Hj. apply andb_true_iff in Hi as [Hi _], Hj as [_ Hj].
  apply Qle_bool_iff in Hi. apply qlt_true in Hj.
  specialize (Hsp i ltac:(lia)). specialize (Hsort (i + 4) j ltac:(lia)).
  unfold RATE_WINDOW in *. Lqa.lra.
Qed.

(** Four calls at time 0, then a fifth at time 0 that sleeps 60.5 seconds *)
Lemma rate_limiter_window_witness :
  limiter_run [0; 0; 0; 0; 121 # 2]%Q [0; 0; 0; 0; 121 # 2]%Q (121 # 2) /\
  ((forall x, List.length (filter (in_window x) [0; 0; 0; 0; 121 # 2]%Q) <= RATE_LIMIT) /\
   (forall i, i + 4 < List.length [0; 0; 0; 0; 121 # 2]%Q ->
      (nth i [0; 0; 0; 0; 121 # 2]%Q 0 + RATE_WINDOW <= nth (i + 4) [0; 0; 0; 0; 121 # 2]%Q 0)%Q)).
Proof.
  assert (R : limiter_run [0; 0; 0; 0; 121 # 2]%Q [0; 0; 0; 0; 121 # 2]%Q (121 # 2)).
  { apply (run_call [0; 0; 0; 0]%Q [0; 0; 0; 0]%Q 0 0 (121 # 2)); [| vm_compute; discriminate |].
    2: { apply rlw_call. vm_compute. discriminate. }
    apply (run_call [0; 0; 0]%Q [0; 0; 0]%Q 0 0 0); [| vm_compute; discriminate |].
    2: { apply rlw_call. vm_compute. discriminate. }
    apply (run_call [0; 0]%Q [0; 0]%Q 0 0 0); [| vm_compute; discriminate |].
    2: { apply rlw_call. vm_compute. discriminate. }
    apply (run_call [0]%Q [0]%Q 0 0 0); [| vm_compute; discriminate |].
    2: { apply rlw_call. vm_compute. discriminate. }
    apply (run_call [] [] 0 0 0); [| vm_compute; discriminate |].
    2: { apply rlw_call. vm_compute. discriminate. }
    exact (run_start 0). }
  split; [exact R|]. exact (rate_limiter_window _ _ _ R).
Defined.

(** ** Properties: _levenshtein *)

Lemma lev_row_length (c1 : ascii) (s2 : list ascii) (prev : list nat) (left : nat) :
  List.length s2 < List.length prev -> List.length (lev_row c1 s2 prev left) = List.length s2.
Proof.
  revert prev left. induction s2 as [|c2 s2 IH]; intros prev left H; [reflexivity|].
  destruct prev as [|pj [|pj1 prev]]; cbn in H; [lia|lia|].
  cbn [lev_row List.length]. f_equal. apply IH. cbn. lia.
Qed.

Lemma lev_row_ok (c1 : ascii) (s2 : list ascii) (prev : list nat) (left i j : nat) :
  List.length s2 < List.length prev ->
  row_ok i j prev ->
  (i + 1 - j) + (j - (i + 1)) <= left <= Nat.max (i + 1) j ->
  row_ok (i + 1) (j + 1) (lev_row c1 s2 prev left).
Proof.
  revert prev left j. induction s2 as [|c2 s2 IH]; intros prev left j Hlen Hp Hl.
  - intros k Hk. cbn in Hk. lia.
  - destruct prev as [|pj [|pj1 prev]]; cbn in Hlen; [lia|lia|].
    cbn [lev_row].
    pose proof (Hp 0 ltac:(cbn; lia)) as H0. pose proof (Hp 1 ltac:(cbn; lia)) as H1.
    cbn [nth] in H0, H1.
    set (v := Nat.min (Nat.min (pj1 + 1) (left + 1)) (pj + (if Ascii.eqb c1 c2 then 0 else 1))).
    assert (Hv : (i + 1 - (j + 1)) + ((j + 1) - (i + 1)) <= v <= Nat.max (i + 1) (j + 1)).
    { unfold v. destruct (Ascii.eqb c1 c2); lia. }
    intros [|k] Hk.
    + cbn [nth]. rewrite Nat.add_0_r. exact Hv.
    + cbn [nth]. cbn [List.length] in Hk.
      pose proof (IH (pj1 :: prev) v (j + 1) ltac:(cbn in *; lia)) as IH'.
      assert (Hp' : row_ok i (j + 1) (pj1 :: prev)).
      { intros k' Hk'. pose proof (Hp (S k') ltac:(cbn in *; lia)) as Hx.
        cbn [nth] in Hx. replace (j + 1 + k') with (j + S k') by lia. exact Hx. }
      specialize (IH' Hp' ltac:(lia) k ltac:(lia)).
      replace (j + 1 + S k) with (j + 1 + 1 + k) by lia. exact IH'.
Qed.

Lemma lev_rows_ok (s1 : list ascii) (i : nat) (s2 : list ascii) (prev : list nat) :
  List.length prev = List.length s2 + 1 -> row_ok i 0 prev ->
  List.length (lev_rows s1 i s2 prev) = List.length s2 + 1 /\
  row_ok (i + List.length s1) 0 (lev_rows s1 i s2 prev).
Proof.
  revert i prev. induction s1 as [|c1 s1 IH]; intros i prev Hlen Hp.
  - cbn. rewrite Nat.add_0_r. split; assumption.
  - cbn [lev_rows List.length].
    replace (i + S (List.length s1)) with (S i + List.length s1) by lia.
    apply IH.
    + cbn [List.length]. rewrite lev_row_length by lia. lia.
    + intros [|k] Hk.
      * cbn [nth]. lia.
      * cbn [nth]. cbn [List.length] in Hk.
        rewrite lev_row_length in Hk by lia.
        pose proof (lev_row_ok c1 s2 prev (S i) i 0 ltac:(lia) Hp ltac:(lia) k
                      ltac:(rewrite lev_row_length; lia)) as H.
        replace (0 + 1 + k) with (0 + S k) in H by lia.
        replace (i + 1) with (S i) in H by lia. exact H.
Qed.

Lemma lev_row_diag (c1 : ascii) (s2 : list ascii) (prev : list nat) (left k : nat) :
  k < List.length s2 -> List.length s2 < List.length prev ->
  nth k (lev_row c1 s2 prev left) 0 <= nth k prev 0 + (if Ascii.eqb c1 (nth k s2 "0"%char) then 0 else 1).
Proof.
  revert prev left k. induction s2 as [|c2 s2 IH]; intros prev left k Hk Hlen; [cbn in Hk; lia|].
  destruct prev as [|pj [|pj1 prev]]; cbn in Hlen; [lia|lia|].
  cbn [lev_row]. destruct k as [|k].
  - cbn [nth]. destruct (Ascii.eqb c1 c2); lia.
  - cbn [nth]. apply IH; cbn in *; lia.
Qed.

Lemma lev_rows_diag (rest : list ascii) (i : nat) (s2 : list ascii) (prev : list nat) :
  i + List.length rest = List.length s2 -> List.length prev = List.length s2 + 1 ->
  nth (i + List.length rest) (lev_rows rest i s2 prev) 0 <= nth i prev 0 + mism_list rest (skipn i s2).
Proof.
  revert i prev. induction rest as [|c1 rest IH]; intros i prev Hi Hlen.
  - cbn [lev_rows List.length]. rewrite Nat.add_0_r. lia.
  - cbn [lev_rows List.length].
    replace (i + S (List.length rest)) with (S i + List.length rest) by lia.
    assert (Hlen' : List.length (S i :: lev_row c1 s2 prev (S i)) = List.length s2 + 1)
      by (cbn [List.length]; rewrite lev_row_length by lia; lia).
    eapply Nat.le_trans; [apply (IH (S i)); [cbn in Hi; lia|exact Hlen']|].
    cbn [nth].
    pose proof (lev_row_diag c1 s2 prev (S i) i ltac:(cbn in Hi; lia) ltac:(lia)) as Hd.
    destruct (skipn i s2) as [|c2 s2'] eqn:Es.
    { exfalso. apply (f_equal (@List.length ascii)) in Es. rewrite length_skipn in Es. cbn in Es, Hi. lia. }
    assert (Hc2 : nth i s2 "0"%char = c2).
    { rewrite <- (firstn_skipn i s2) at 1. rewrite app_nth2; rewrite length_firstn; [|lia].
      replace (i - Nat.min i (List.length s2)) with 0 by lia. rewrite Es. reflexivity. }
    assert (Hsk : skipn (S i) s2 = s2').
    { rewrite <- (skipn_skipn 1 i). rewrite Es. reflexivity. }
    rewrite Hsk. cbn [mism_list]. rewrite Hc2 in Hd. lia.
Qed.

Lemma length_list_ascii (s : string) : List.length (list_ascii_of_string s) = String.length s.
Proof. induction s as [|c r IH]; cbn; [reflexivity|]. now rewrite IH. Qed.

Lemma last_nth_len (l : list nat) (d : nat) : last l d = nth (List.length l - 1) l d.
Proof.
  induction l as [|x [|y r] IH]; [reflexivity|reflexivity|].
  change (last (x :: y :: r) d) with (last (y :: r) d). rewrite IH.
  cbn [List.length]. replace (S (S (List.length r)) - 1) with (S (S (List.length r) - 1)) by lia.
  reflexivity.
Qed.

Lemma mismatches_list (s1 s2 : string) :
  mismatches s1 s2 = mism_list (list_ascii_of_string s1) (list_ascii_of_string s2).
Proof.
  revert s2. induction s1 as [|c1 r1 IH]; intros [|c2 r2]; cbn; try reflexivity. now rewrite IH.
Qed.

(** [_levenshtein] is at least the difference of the two lengths and at
    most the larger length; on strings of equal length it is at most the
    number of positions where they differ. *)
Theorem levenshtein_bounds (s1 s2 : string) :
  let n1 := String.length s1 in let n2 := String.length s2 in
  (n1 - n2) + (n2 - n1) <= levenshtein s1 s2 <= Nat.max n1 n2 /\
  (n1 = n2 -> levenshtein s1 s2 <= mismatches s1 s2).
Proof.
  cbn zeta. unfold levenshtein.
  assert (Hgen : forall a b, String.length b <= String.length a ->
    (String.length a - String.length b) <=
      (if String.length b =? 0 then String.length a
       else last (lev_rows (list_ascii_of_string a) 0 (list_ascii_of_string b)
                   (seq 0 (String.length b + 1))) 0) <= String.length a /\
    (String.length a = String.length b ->
      (if String.length b =? 0 then String.length a
       else last (lev_rows (list_ascii_of_string a) 0 (list_ascii_of_string b)
                   (seq 0 (String.length b + 1))) 0) <= mismatches a b)).
  { intros a b Hab. destruct (String.length b =? 0) eqn:Eb.
    { apply Nat.eqb_eq in Eb. split; [lia|]. intros. lia. }
    apply Nat.eqb_neq in Eb.
    set (la := list_ascii_of_string a). set (lb := list_ascii_of_string b).
    assert (Hla : List.length la = String.length a) by apply length_list_ascii.
    assert (Hlb : List.length lb = String.length b) by apply length_list_ascii.
    assert (Hseq : row_ok 0 0 (seq 0 (String.length b + 1))).
    { intros k Hk. rewrite length_seq in Hk. rewrite seq_nth by lia. lia. }
    destruct (lev_rows_ok la 0 lb (seq 0 (String.length b + 1))
                ltac:(rewrite length_seq; lia) Hseq) as [HL Hok].
    rewrite last_nth_len, HL.
    specialize (Hok (List.length lb + 1 - 1) ltac:(lia)). rewrite Hla in Hok.
    split; [lia|].
    intros Heq. pose proof (lev_rows_diag la 0 lb (seq 0 (String.length b + 1))
                              ltac:(lia) ltac:(rewrite length_seq; lia)) as Hd.
    rewrite seq_nth in Hd by lia. cbn [skipn] in Hd. rewrite mismatches_list.
    fold la lb. replace (List.length lb + 1 - 1) with (0 + List.length la) by lia. lia. }
  destruct (String.length s1 <? String.length s2) eqn:E.
  - apply Nat.ltb_lt in E. destruct (Hgen s2 s1 ltac:(lia)) as [H1 _].
    split; [lia|]. intros; lia.
  - apply Nat.ltb_ge in E. destruct (Hgen s1 s2 E) as [H1 H2]. split; [lia|]. exact H2.
Qed.

(** ** Properties: _shannon_entropy *)

Section EntropyBounds.

Lemma counter_add_props (c : ascii) (l : list (ascii * nat)) :
  count_total (counter_add c l) = S (count_total l) /\
  List.length (counter_add c l) <= S (List.length l) /\
  (Forall (fun kc => 1 <= snd kc) l -> Forall (fun kc => 1 <= snd kc) (counter_add c l)).
Proof.
  induction l as [|[d k] r IH]; cbn [counter_add].
  - cbn. split; [reflexivity|]. split; [lia|]. intros _. constructor; [cbn; lia|constructor].
  - destruct (Ascii.eqb c d).
    + cbn. split; [lia|]. split; [lia|]. intros H. inversion H; subst. constructor; [cbn in *; lia|assumption].
    + destruct IH as (H1 & H2 & H3). cbn [count_total fold_right List.length snd] in *.
      unfold count_total in H1. rewrite H1. split; [lia|]. split; [lia|].
      intros H. inversion H; subst. constructor; [assumption|]. apply H3. assumption.
Qed.

Lemma counter_from_props (acc : list (ascii * nat)) (s : string) :
  count_total (counter_from acc s) = count_total acc + String.length s /\
  List.length (counter_from acc s) <= List.length acc + String.length s /\
  (Forall (fun kc => 1 <= snd kc) acc -> Forall (fun kc => 1 <= snd kc) (counter_from acc s)).
Proof.
  revert acc. induction s as [|c r IH]; intros acc; cbn [counter_from String.length].
  - split; [lia|]. split; [lia|]. tauto.
  - destruct (counter_add_props c acc) as (A1 & A2 & A3).
    destruct (IH (counter_add c acc)) as (B1 & B2 & B3).
    split; [lia|]. split; [lia|]. tauto.
Qed.

Lemma counter_props (s : string) :
  count_total (counter s) = String.length s /\
  List.length (counter s) <= String.length s /\
  Forall (fun kc => 1 <= snd kc) (counter s).
Proof.
  destruct (counter_from_props [] s) as (A1 & A2 & A3). unfold counter.
  split; [exact A1|]. split; [exact A2|]. apply A3. constructor.
Qed.

Lemma Forall_le_total (l : list (ascii * nat)) :
  Forall (fun kc => snd kc <= count_total l) l.
Proof.
  induction l as [|kc r IH]; constructor.
  - unfold count_total. cbn [fold_right]. lia.
  - eapply Forall_impl; [|exact IH]. intros a Ha. unfold count_total in *. cbn [fold_right]. lia.
Qed.



Local Open Scope R_scope.

Lemma fold_left_sum {A} (g : A -> R) (l : list A) (a : R) :
  fold_left (fun acc x => acc + g x) l a = a + fold_right (fun x s => g x + s) 0 l.
Proof.
  revert a. induction l as [|x r IH]; intros a; cbn; [lra|]. rewrite IH. lra.
Qed.

(** [- p log2 p <= p log2 k - (p - 1/k) / ln 2] *)
Lemma entropy_term_gibbs (p k : R) :
  0 < p -> 0 < k -> - (p * log2 p) <= p * log2 k - (p - / k) / ln 2.
Proof.
  intros Hp Hk. unfold log2.
  assert (Hl2 : 0 < ln 2) by (pose proof ln_lt_2; lra).
  assert (Hkp : 0 < k * p) by nra.
  pose proof (ln_le_minus_1 (/ (k * p)) (Rinv_0_lt_compat _ Hkp)) as H.
  rewrite ln_Rinv in H by exact Hkp. rewrite ln_mult in H by assumption.
  assert (H' : p * (ln k + ln p) >= p - / k).
  { assert (p * / (k * p) = / k) by (field; lra). nra. }
  apply (Rmult_le_reg_r (ln 2)); [exact Hl2|].
  replace ((- (p * (ln p / ln 2))) * ln 2) with (- (p * ln p)) by (field; lra).
  replace ((p * (ln k / ln 2) - (p - / k) / ln 2) * ln 2) with (p * ln k - (p - / k)) by (field; lra).
  lra.
Qed.

Lemma entropy_sum_bounds (l : list (ascii * nat)) (nn k : R) :
  0 < nn -> 0 < k ->
  Forall (fun kc => (1 <= snd kc)%nat /\ INR (snd kc) <= nn) l ->
  let T := fold_right (fun kc s => (INR (snd kc) / nn) * log2 (INR (snd kc) / nn) + s) 0 l in
  let S := fold_right (fun kc s => INR (snd kc) / nn + s) 0 l in
  T <= 0 /\ - T <= log2 k * S - (S - INR (List.length l) / k) / ln 2.
Proof.
  intros Hn Hk. induction l as [|[d c] r IH]; intros Hall T S.
  - unfold T, S. cbn. unfold Rdiv. rewrite Rmult_0_l. lra.
  - inversion Hall as [|x y [Hc1 Hc2] Hr]; subst. cbn [snd] in Hc1, Hc2.
    destruct (IH Hr) as [IH1 IH2].
    set (T' := fold_right (fun kc s => (INR (snd kc) / nn) * log2 (INR (snd kc) / nn) + s) 0 r) in *.
    set (S' := fold_right (fun kc s => INR (snd kc) / nn + s) 0 r) in *.
    assert (HT : T = INR c / nn * log2 (INR c / nn) + T') by reflexivity.
    assert (HS : S = INR c / nn + S') by reflexivity.
    set (p := INR c / nn) in *.
    assert (Hp0 : 0 < p).
    { unfold p. apply Rdiv_lt_0_compat; [|exact Hn]. apply lt_0_INR. lia. }
    assert (Hp1 : p <= 1).
    { unfold p. apply (Rmult_le_reg_r nn); [exact Hn|]. unfold Rdiv.
      rewrite Rmult_assoc, Rinv_l by lra. lra. }
    assert (Hl2 : 0 < ln 2) by (pose proof ln_lt_2; lra).
    assert (Hterm : p * log2 p <= 0).
    { unfold log2. pose proof (ln_le_minus_1 p Hp0) as Hlp.
      assert (ln p / ln 2 <= 0).
      { assert (Hi : 0 < / ln 2) by (apply Rinv_0_lt_compat; exact Hl2). unfold Rdiv. nra. }
      nra. }
    pose proof (entropy_term_gibbs p k Hp0 Hk) as Hg.
    split; [lra|].
    rewrite HT, HS. cbn [List.length]. rewrite S_INR.
    assert (E : log2 k * (p + S') - (p + S' - (INR (List.length r) + 1) / k) / ln 2 =
                (p * log2 k - (p - / k) / ln 2) +
                (log2 k * S' - (S' - INR (List.length r) / k) / ln 2)) by (field; lra).
    rewrite E. lra.
Qed.

Lemma entropy_S_total (l : list (ascii * nat)) (nn : R) :
  0 < nn ->
  fold_right (fun kc s => INR (snd kc) / nn + s) 0 l = INR (count_total l) / nn.
Proof.
  intros Hn. induction l as [|[d c] r IH].
  - cbn. unfold Rdiv. rewrite Rmult_0_l. reflexivity.
  - cbn [fold_right]. rewrite IH. unfold count_total. cbn [fold_right snd].
    rewrite plus_INR. fold (count_total r). field. lra.
Qed.

(** In exact arithmetic the Shannon entropy of a string is at least 0 and,
    for a non-empty string, at most [log2] of the number of its distinct
    characters.  (The sum of doubles the code computes can exceed that bound
    by an ulp: 3.459431618637298 for [abcdefghijk], whose 11 characters give
    [log2 11 = 3.4594316186372973].) *)
Lemma shannon_entropy_le_log2 (text : string) :
  0 <= shannon_entropy text /\
  (text <> "" -> shannon_entropy text <= log2 (INR (List.length (counter text))))%string.
Proof.
  unfold shannon_entropy.
  destruct (String.eqb text "") eqn:E.
  { apply String.eqb_eq in E. split; [lra|]. intros H. contradiction. }
  apply String.eqb_neq in E.
  destruct (counter_props text) as (P1 & P2 & P3).
  set (nn := INR (String.length text)).
  assert (Hn : 0 < nn).
  { unfold nn. apply lt_0_INR. destruct text; [contradiction|cbn; lia]. }
  set (l := counter text) in *.
  assert (Hk : 0 < INR (List.length l)).
  { apply lt_0_INR. destruct l as [|x r]; [|cbn; lia].
    cbn in P1. destruct text; [contradiction|cbn in P1; lia]. }
  assert (Hall : Forall (fun kc => (1 <= snd kc)%nat /\ INR (snd kc) <= nn) l).
  { pose proof (Forall_le_total l) as Ht. rewrite P1 in Ht.
    apply Forall_forall. intros x Hx. split.
    - exact (proj1 (Forall_forall _ _) P3 x Hx).
    - apply le_INR. exact (proj1 (Forall_forall _ _) Ht x Hx). }
  destruct (entropy_sum_bounds l nn (INR (List.length l)) Hn Hk Hall) as [B1 B2].
  rewrite entropy_S_total in B2 by exact Hn. rewrite P1 in B2. fold nn in B2.
  replace (nn / nn) with 1 in B2 by (field; lra).
  replace (INR (List.length l) / INR (List.length l)) with 1 in B2 by (field; lra).
  rewrite (fold_left_sum (fun kc => INR (snd kc) / nn * log2 (INR (snd kc) / nn))).
  split; [lra|]. intros _. lra.
Qed.

Lemma counts_below_total (l : list (ascii * nat)) :
  Forall (fun kc => (1 <= snd kc)%nat) l -> (2 <= List.length l)%nat ->
  Forall (fun kc => (snd kc < count_total l)%nat) l.
Proof.
  destruct l as [|kc [|y r]]; cbn [List.length]; intros Hall Hlen; [lia|lia|].
  inversion Hall as [|x z Hk Hr]; subst. inversion Hr as [|x z Hy Hr']; subst.
  pose proof (Forall_le_total (y :: r)) as Ht.
  unfold count_total in *. cbn [fold_right] in *.
  constructor; [lia|].
  eapply Forall_impl; [|exact Ht]. intros a Ha. cbn [fold_right] in Ha. lia.
Qed.

Lemma entropy_terms_neg (l : list (ascii * nat)) (nn : R) :
  0 < nn -> Forall (fun kc => (1 <= snd kc)%nat /\ INR (snd kc) < nn) l -> l <> [] ->
  fold_right (fun kc s => (INR (snd kc) / nn) * log2 (INR (snd kc) / nn) + s) 0 l < 0.
Proof.
  intros Hn. induction l as [|[d c] r IH]; intros Hall Hne; [contradiction|].
  inversion Hall as [|x y [Hc1 Hc2] Hr]; subst. cbn [fold_right snd] in *.
  set (p := INR c / nn).
  assert (Hp0 : 0 < p).
  { unfold p. apply Rdiv_lt_0_compat; [|exact Hn]. apply lt_0_INR. lia. }
  assert (Hp1 : p < 1).
  { unfold p. apply (Rmult_lt_reg_r nn); [exact Hn|]. unfold Rdiv.
    rewrite Rmult_assoc, Rinv_l by lra. lra. }
  assert (Hl2 : 0 < ln 2) by (pose proof ln_lt_2; lra).
  assert (Hlp : ln p < 0) by (rewrite <- ln_1; apply ln_increasing; lra).
  assert (Hterm : p * log2 p < 0).
  { unfold log2. assert (Hi : 0 < / ln 2) by (apply Rinv_0_lt_compat; exact Hl2).
    assert (ln p / ln 2 < 0) by (unfold Rdiv; nra). nra. }
  destruct r as [|y r']; [cbn; lra|].
  specialize (IH Hr ltac:(discriminate)). lra.
Qed.

(** X7: the Shannon entropy of a string is at least 0, and it is 0 exactly
    when the string has at most one distinct character.  Both facts carry
    over to the sum of doubles of the code: a single character has
    frequency [1.0] and [log2(1.0) = 0.0]; with two distinct characters or
    more every frequency lies strictly between 0 and 1, every term
    [p * log2(p)] is a negative double far from underflow, and a rounded sum
    of negative doubles stays negative. *)
Theorem shannon_entropy_zero (text : string) :
  0 <= shannon_entropy text /\
  (shannon_entropy text = 0 <-> (List.length (counter text) <= 1)%nat).
Proof.
  unfold shannon_entropy.
  destruct (String.eqb text "") eqn:E.
  { apply String.eqb_eq in E. subst text. split; [lra|]. split; intros _; [cbn; lia|reflexivity]. }
  apply String.eqb_neq in E.
  destruct (counter_props text) as (P1 & P2 & P3).
  set (nn := INR (String.length text)).
  assert (Hn : 0 < nn).
  { unfold nn. apply lt_0_INR. destruct text; [contradiction|cbn; lia]. }
  set (l := counter text) in *.
  assert (Hl : l <> []).
  { intros Hl. rewrite Hl in P1. cbn in P1. destruct text; [contradiction|cbn in P1; lia]. }
  assert (Hall : Forall (fun kc => (1 <= snd kc)%nat /\ INR (snd kc) <= nn) l).
  { pose proof (Forall_le_total l) as Ht. rewrite P1 in Ht.
    apply Forall_forall. intros x Hx. split.
    - exact (proj1 (Forall_forall _ _) P3 x Hx).
    - apply le_INR. exact (proj1 (Forall_forall _ _) Ht x Hx). }
  destruct (entropy_sum_bounds l nn 1 Hn Rlt_0_1 Hall) as [B1 _].
  rewrite (fold_left_sum (fun kc => INR (snd kc) / nn * log2 (INR (snd kc) / nn))).
  split; [lra|]. split.
  - intros H0. destruct (Nat.le_gt_cases (List.length l) 1) as [Hle|Hgt]; [exact Hle|exfalso].
    pose proof (counts_below_total l P3 Hgt) as Hb. rewrite P1 in Hb.
    assert (Hs : Forall (fun kc => (1 <= snd kc)%nat /\ INR (snd kc) < nn) l).
    { apply Forall_forall. intros x Hx. split.
      - exact (proj1 (Forall_forall _ _) P3 x Hx).
      - apply lt_INR. exact (proj1 (Forall_forall _ _) Hb x Hx). }
    pose proof (entropy_terms_neg l nn Hn Hs Hl). lra.
  - intros Hle. destruct l as [|[d c] [|y r]]; [contradiction| |cbn in Hle; lia].
    unfold count_total in P1. cbn [fold_right snd] in P1 |- *.
    assert (Hc0 : INR c = nn) by (unfold nn; rewrite <- P1, Nat.add_0_r; reflexivity).
    assert (Hc : INR c / nn = 1) by (rewrite Hc0; field; lra).
    rewrite Hc. unfold log2. rewrite ln_1. unfold Rdiv. ring.
Qed.

Lemma ln_le_mono (x y : R) : 0 < x -> x <= y -> ln x <= ln y.
Proof.
  intros Hx Hxy. destruct (Rle_lt_or_eq_dec _ _ Hxy) as [H|H].
  - left. apply ln_increasing; assumption.
  - rewrite H. right. reflexivity.
Qed.

(** [log2 13 < 3.8], as [13^5 < 2^19] *)
Lemma log2_13_lt : log2 13 < 3.8.
Proof.
  unfold log2. assert (Hl2 : 0 < ln 2) by (pose proof ln_lt_2; lra).
  assert (H : ln (13 ^ 5) < ln (2 ^ 19)).
  { apply ln_increasing; [apply pow_lt; lra|].
    replace (13 ^ 5) with 371293 by ring. replace (2 ^ 19) with 524288 by ring. lra. }
  rewrite !ln_pow in H by lra. cbn [INR] in H.
  apply (Rmult_lt_reg_r (ln 2)); [exact Hl2|].
  unfold Rdiv. rewrite Rmult_assoc, Rinv_l by lra. lra.
Qed.

(** The entropy check of [analyze_url] fires only on a host with at least
    14 distinct characters. *)
Theorem entropy_check_needs_14_distinct (host : string) :
  check_entropy (shannon_entropy host) <> [] ->
  (14 <= List.length (counter host) <= String.length host)%nat.
Proof.
  intros Hc. unfold check_entropy in Hc.
  destruct (Rlt_dec 3.8 (shannon_entropy host)) as [He|]; [|contradiction].
  destruct (counter_props host) as (P1 & P2 & _).
  split; [|exact P2].
  destruct (Nat.le_gt_cases 14 (List.length (counter host))) as [H|H]; [exact H|exfalso].
  assert (Hne : host <> "").
  { intros ->. unfold shannon_entropy in He. cbn in He. lra. }
  destruct (shannon_entropy_le_log2 host) as [_ Hb]. specialize (Hb Hne).
  destruct (List.length (counter host)) as [|k] eqn:Ek.
  { apply length_zero_iff_nil in Ek. rewrite Ek in P1. cbn in P1.
    destruct host; [contradiction|cbn in P1; lia]. }
  assert (Hk : INR (S k) <= 13) by (replace 13 with (INR 13) by (cbn; ring); apply le_INR; lia).
  assert (Hk0 : 0 < INR (S k)) by (apply lt_0_INR; lia).
  assert (Hl : log2 (INR (S k)) <= log2 13).
  { unfold log2, Rdiv. apply Rmult_le_compat_r.
    - left. apply Rinv_0_lt_compat. pose proof ln_lt_2; lra.
    - apply ln_le_mono; assumption. }
  pose proof log2_13_lt. lra.
Qed.

Lemma log2_14_gt : 3.8 < log2 14.
Proof.
  unfold log2. assert (Hl2 : 0 < ln 2) by (pose proof ln_lt_2; lra).
  assert (H : ln (2 ^ 19) < ln (14 ^ 5)).
  { apply ln_increasing; [apply pow_lt; lra|].
    replace (14 ^ 5) with 537824 by ring. replace (2 ^ 19) with 524288 by ring. lra. }
  rewrite !ln_pow in H by lra. cbn [INR] in H.
  apply (Rmult_lt_reg_r (ln 2)); [exact Hl2|].
  unfold Rdiv. rewrite Rmult_assoc, Rinv_l by lra. lra.
Qed.

(** The host [abcdefghijklmn]: 14 distinct characters, entropy [log2 14] *)
Lemma entropy_check_needs_14_distinct_witness :
  check_entropy (shannon_entropy "abcdefghijklmn") <> [] /\
  (14 <= List.length (counter "abcdefghijklmn") <= String.length "abcdefghijklmn")%nat.
Proof.
  assert (H : check_entropy (shannon_entropy "abcdefghijklmn") <> []).
  { assert (E : shannon_entropy "abcdefghijklmn" = log2 14).
    { unfold shannon_entropy. cbn [String.eqb Ascii.eqb Bool.eqb String.length].
      replace (counter "abcdefghijklmn")
        with (map (fun c => (c, 1%nat)) ["a"; "b"; "c"; "d"; "e"; "f"; "g"; "h"; "i"; "j"; "k"; "l"; "m"; "n"]%char)
        by reflexivity.
      cbn [map fold_left snd].
      replace (INR 14) with 14 by (cbn; ring). replace (INR 1) with 1 by reflexivity.
      unfold log2. replace (1 / 14) with (/ 14) by (field; lra). rewrite ln_Rinv by lra.
      assert (0 < ln 2) by (pose proof ln_lt_2; lra). field. lra. }
    rewrite E. unfold check_entropy. destruct (Rlt_dec 3.8 (log2 14)) as [_|Hn].
    - discriminate.
    - exfalso. pose proof log2_14_gt. lra. }
  split; [exact H|]. exact (entropy_check_needs_14_distinct _ H).
Defined.

End EntropyBounds.

(** ** Properties: the confidence of analyze_url *)

Section HeuristicConfidence.
Local Open Scope R_scope.

Lemma contributions_no_default (m : measures) (e : R) :
  Forall (fun c => fst c <> RNoIndicators) (contributions m e).
Proof.
  unfold contributions.
  repeat (apply Forall_app; split);
  unfold check_domain_length, check_entropy, check_hyphens, check_keywords, check_tld,
    check_ip, check_subdomains, check_homographs, check_brands, check_https, check_path,
    check_digits;
  repeat match goal with
         | |- context [if ?b then _ else _] => destruct b
         | |- context [match ?l with [] => _ | _ :: _ => _ end] => destruct l
         end;
  repeat (apply Forall_app; split);
  repeat constructor; cbn [fst]; discriminate.
Qed.

Lemma py_round_3_bounds (x : R) (a b : Z) :
  (IZR a / 1000 <= x <= IZR b / 1000)%R -> (IZR a / 1000 <= py_round x 3 <= IZR b / 1000)%R.
Proof.
  intros Hx. unfold py_round.
  assert (Hp : (10 ^ 3 = 1000)%R) by (simpl; lra). rewrite Hp.
  destruct (round_half_even_bounds (x * 1000) a b) as [L U].
  { split; [apply (Rmult_le_reg_r (/ 1000)); [lra|]|apply (Rmult_le_reg_r (/ 1000)); [lra|]];
    unfold Rdiv in Hx; field_simplify; lra. }
  apply IZR_le in L, U. unfold Rdiv. split; apply Rmult_le_compat_r; lra.
Qed.



(** The confidence of [analyze_url] lies in [[0.5, 1]]; it is 0.5 exactly
    when no check fired and the reasoning is the single line "No suspicious
    indicators detected", and then the risk score is 0 and the result is
    Safe. *)
Theorem heuristic_confidence (hp : hparsed) :
  let r := analyze_parsed hp in
  (1 / 2 <= h_confidence r <= 1)%R /\
  (h_confidence r = 1 / 2 <-> h_reasoning r = [RNoIndicators])%R /\
  (h_reasoning r = [RNoIndicators] -> h_risk_score r = 0 /\ h_classification r = "Safe")%R.
Proof.
  cbn zeta. unfold analyze_parsed, score_measures. cbn [h_confidence h_reasoning h_risk_score h_classification].
  pose proof (contributions_no_default (measure hp) (shannon_entropy (hp_host hp))) as Hnd.
  set (cs := contributions (measure hp) (shannon_entropy (hp_host hp))) in *.
  destruct cs as [|c cs'] eqn:Ecs.
  - cbn [List.length INR].
    assert (Hc : py_round (Rmin (0.5 + 0 / 12 * 0.5) 1) 3 = 1 / 2).
    { replace (Rmin (0.5 + 0 / 12 * 0.5) 1) with (1 / 2)%R
        by (rewrite Rmin_left; lra).
      unfold py_round. replace (1 / 2 * 10 ^ 3)%R with (IZR 500) by (simpl; lra).
      rewrite (round_half_even_near (IZR 500) 500) by lra. simpl; lra. }
    rewrite Hc. split; [lra|]. split; [tauto|]. intros _.
    assert (Hs : Rmax 0 (Rmin 100 (sum_amounts [])) = 0) by
      (unfold sum_amounts; cbn; rewrite Rmin_right by lra; rewrite Rmax_left; lra).
    rewrite Hs. split.
    + unfold py_round. replace (0 * 10 ^ 2)%R with (IZR 0) by lra.
      rewrite (round_half_even_near (IZR 0) 0) by lra. lra.
    + unfold classify. destruct (Rlt_dec 0 30); [reflexivity|lra].
  - inversion Hnd as [|x y Hc Hr]; subst.
    assert (Hk : (1 <= INR (List.length (c :: cs')))%R)
      by (replace 1%R with (INR 1) by reflexivity; apply le_INR; cbn; lia).
    set (k := INR (List.length (c :: cs'))) in *.
    assert (Hx : (IZR 541 / 1000 <= Rmin (0.5 + k / 12 * 0.5) 1 <= IZR 1000 / 1000)%R).
    { split; [apply Rmin_glb; lra|rewrite Rmin_r; lra]. }
    pose proof (py_round_3_bounds _ 541 1000 Hx) as [L U].
    split; [lra|]. split.
    + split; [intros; lra|]. intros Hm. cbn [map] in Hm. injection Hm as Hm _. contradiction.
    + intros Hm. cbn [map] in Hm. injection Hm as Hm _. contradiction.
Qed.

End HeuristicConfidence.

(** ** Properties: _detect_brand_spoofing *)

Lemma target_brands_names :
  forall b vs, In (b, vs) TARGET_BRANDS ->
    has_char " " b = false /\ forall v, In v vs -> has_char ")" v = false.
Proof.
  assert (H : forallb (fun bv => negb (has_char " " (fst bv)) &&
                                 forallb (fun v => negb (has_char ")" v)) (snd bv)) TARGET_BRANDS = true)
    by reflexivity.
  intros b vs Hin. rewrite forallb_forall in H. specialize (H _ Hin).
  cbn [fst snd] in H. apply andb_true_iff in H as [H1 H2]. apply negb_true_iff in H1.
  split; [exact H1|]. intros v Hv. rewrite forallb_forall in H2. apply negb_true_iff. exact (H2 v Hv).
Qed.

Lemma variant_label_inj (b b' v v' : string) :
  has_char " " b = false -> has_char " " b' = false ->
  has_char ")" v = false -> has_char ")" v' = false ->
  b' ++ " (variant: " ++ v' ++ ")" = b ++ " (variant: " ++ v ++ ")" -> b' = b /\ v' = v.
Proof.
  intros Hb Hb' Hv Hv' E.
  pose proof (f_equal (split_first " ") E) as E1.
  rewrite (split_first_app " " b' _ Hb'), (split_first_app " " b _ Hb) in E1.
  cbn in E1. rewrite !append_empty_r in E1.
  injection E1 as <- E2. split; [reflexivity|].
  pose proof (f_equal (split_first ")") E2) as E4.
  rewrite (split_first_app ")" v' _ Hv'), (split_first_app ")" v _ Hv) in E4.
  cbn in E4. rewrite !append_empty_r in E4.
  injection E4 as <-. reflexivity.
Qed.

(** [_detect_brand_spoofing] reports a brand of [TARGET_BRANDS] with
    distance 0 exactly when the brand occurs in the lowercased domain and the
    domain's first label is not the brand itself; and it reports a variant
    of that brand, with the Levenshtein distance of the variant to the brand,
    exactly when the variant occurs in the lowercased domain. *)
Theorem brand_spoofing_hits (domain brand : string) (variants : list string) :
  In (brand, variants) TARGET_BRANDS ->
  (In (brand, 0) (detect_brand_spoofing domain) <->
     contains brand (lower domain) = true /\ hd "" (split_on "." (lower domain)) <> brand) /\
  (forall v n, In v variants ->
     (In (brand ++ " (variant: " ++ v ++ ")", n) (detect_brand_spoofing domain) <->
        contains v (lower domain) = true /\ n = levenshtein v brand)).
Proof.
  intros Hin. destruct (target_brands_names _ _ Hin) as [Hb Hvs].
  unfold detect_brand_spoofing. set (dl := lower domain).
  split.
  - split.
    + intros H. apply in_flat_map in H as [[b' vs'] [Hin' H]].
      destruct (target_brands_names _ _ Hin') as [Hb' Hvs'].
      apply in_app_iff in H as [H|H].
      * destruct (contains b' dl) eqn:Ec; [|contradiction].
        destruct (negb (String.eqb (hd "" (split_on "." dl)) b')) eqn:Ed; [|contradiction].
        destruct H as [H|[]]. injection H as ->. split; [exact Ec|].
        apply negb_true_iff, String.eqb_neq in Ed. exact Ed.
      * apply in_flat_map in H as [v' [_ H]].
        destruct (contains v' dl); [|contradiction].
        destruct H as [H|[]]. injection H as H _.
        apply (f_equal (has_char " ")) in H. rewrite has_char_app, Hb in H. cbn in H.
        rewrite orb_true_r in H. discriminate.
    + intros [Hc Hd]. apply in_flat_map. exists (brand, variants). split; [exact Hin|].
      apply in_app_iff. left. rewrite Hc.
      apply String.eqb_neq in Hd. rewrite Hd. left. reflexivity.
  - intros v n Hv. split.
    + intros H. apply in_flat_map in H as [[b' vs'] [Hin' H]].
      destruct (target_brands_names _ _ Hin') as [Hb' Hvs'].
      apply in_app_iff in H as [H|H].
      * destruct (contains b' dl); [|contradiction].
        destruct (negb _); [|contradiction].
        destruct H as [H|[]]. injection H as H _.
        apply (f_equal (has_char " ")) in H. rewrite Hb' in H. rewrite has_char_app in H. cbn in H.
        rewrite orb_true_r in H. discriminate.
      * apply in_flat_map in H as [v' [Hv' H]].
        destruct (contains v' dl) eqn:Ec; [|contradiction].
        destruct H as [H|[]]. injection H as H Hn.
        destruct (variant_label_inj brand b' v v' Hb Hb' (Hvs v Hv) (Hvs' v' Hv') H) as [-> ->].
        split; [exact Ec|]. symmetry. exact Hn.
    + intros [Hc ->]. apply in_flat_map. exists (brand, variants). split; [exact Hin|].
      apply in_app_iff. right. apply in_flat_map. exists v. split; [exact Hv|].
      rewrite Hc. left. reflexivity.
Qed.

(** [www.paypal.com] is reported as a spoof of [paypal]: its first label is
    [www]. *)
Lemma brand_spoofing_hits_witness :
  In ("paypal", ["paypa1"; "paypall"; "pay-pal"; "payp4l"]) TARGET_BRANDS /\
  In ("paypal", 0) (detect_brand_spoofing "www.paypal.com").
Proof.
  assert (Hin : In ("paypal", ["paypa1"; "paypall"; "pay-pal"; "payp4l"]) TARGET_BRANDS)
    by (cbn; tauto).
  split; [exact Hin|].
  apply (proj1 (brand_spoofing_hits "www.paypal.com" _ _ Hin)).
  split; [reflexivity|]. vm_compute. discriminate.
Defined.

(** ** Properties: scan_url: key check, polls and exceptions *)

Lemma normalize_url_value_error (chk : string -> option string) (url0 : string) (e : exc) :
  normalize_url chk url0 = Raises e -> exc_type e = ValueError.
Proof.
  unfold normalize_url.
  destruct (urlparse chk (http_prefixed (py_strip url0))) as [pr|e'] eqn:Ep; cbn [obind].
  - destruct (port (pr_netloc pr)) as [prt|e'] eqn:Eport; cbn [obind].
    + destruct prt as [p|]; [destruct (_ || _)|]; discriminate.
    + intros H. injection H as <-. exact (proj1 (port_raises _ _ Eport)).
  - intros H. injection H as <-. apply urlparse_raises, urlsplit_raises in Ep. exact (proj1 Ep).
Qed.

Lemma py_get_raises (d : json) (k : string) (dflt : json) (e : exc) :
  py_get d k dflt = Raises e -> exc_type e = AttributeError.
Proof. destruct d; cbn; intros H; try discriminate; injection H as <-; reflexivity. Qed.

Lemma py_getitem_raises (d : json) (k : string) (e : exc) :
  py_getitem d k = Raises e -> exc_type e = KeyError \/ exc_type e = TypeError.
Proof.
  destruct d; cbn; intros H; try (injection H as <-; right; reflexivity).
  destruct (assoc_last k kv); [discriminate|]. injection H as <-. left. reflexivity.
Qed.

Lemma build_result_raises (stats : json) (e : exc) :
  build_result stats = Raises e -> exc_type e = AttributeError \/ exc_type e = TypeError.
Proof.
  unfold build_result.
  destruct (py_get stats "malicious" (JNum 0)) as [m|e1] eqn:E1; cbn [obind];
    [|intros H; injection H as <-; left; exact (py_get_raises _ _ _ _ E1)].
  destruct (py_get stats "suspicious" (JNum 0)) as [s|e1] eqn:E2; cbn [obind];
    [|intros H; injection H as <-; left; exact (py_get_raises _ _ _ _ E2)].
  destruct (py_get stats "harmless" (JNum 0)) as [h|e1] eqn:E3; cbn [obind];
    [|intros H; injection H as <-; left; exact (py_get_raises _ _ _ _ E3)].
  destruct (py_get stats "undetected" (JNum 0)) as [u|e1] eqn:E4; cbn [obind];
    [|intros H; injection H as <-; left; exact (py_get_raises _ _ _ _ E4)].
  destruct (as_number m), (as_number s), (as_number h), (as_number u);
    intros H; try discriminate; injection H as <-; right; reflexivity.
Qed.

Lemma poll_body_raises (b : body) (e : exc) :
  poll_body b = Raises e ->
  exc_type e = ValueError \/ exc_type e = AttributeError \/ exc_type e = TypeError.
Proof.
  unfold poll_body.
  destruct (resp_json b) as [j|e1] eqn:E0; cbn [obind];
    [|intros H; injection H as <-; left; destruct b; cbn in E0; [injection E0 as <-; reflexivity|discriminate]].
  destruct (py_get j "data" (JObj [])) as [d|e1] eqn:E1; cbn [obind];
    [|intros H; injection H as <-; right; left; exact (py_get_raises _ _ _ _ E1)].
  destruct (py_get d "attributes" (JObj [])) as [a|e1] eqn:E2; cbn [obind];
    [|intros H; injection H as <-; right; left; exact (py_get_raises _ _ _ _ E2)].
  destruct (py_get a "status" JNull) as [st|e1] eqn:E3; cbn [obind];
    [|intros H; injection H as <-; right; left; exact (py_get_raises _ _ _ _ E3)].
  destruct st; try discriminate. destruct (String.eqb s "completed"); [|discriminate].
  destruct (py_get a "stats" (JObj [])) as [sts|e1] eqn:E4; cbn [obind];
    [|intros H; injection H as <-; right; left; exact (py_get_raises _ _ _ _ E4)].
  destruct (build_result sts) as [r|e1] eqn:E5; cbn [omap]; [discriminate|].
  intros H; injection H as <-. right. exact (build_result_raises _ _ E5).
Qed.

Lemma poll_loop_raises (aid : json) (poll : nat -> net_response) (k n : nat) (e : exc) :
  snd (poll_loop aid poll k n) = Raises e ->
  (exc_type e = ValueError \/ exc_type e = AttributeError \/ exc_type e = TypeError) \/
  e = mk_exc RuntimeError MSG_TIMED_OUT.
Proof.
  revert k. induction n as [|n IH]; intros k.
  - cbn. intros H. injection H as <-. right. reflexivity.
  - cbn [poll_loop].
    assert (Hnext : snd (let '(evs, o) := poll_loop aid poll (S k) n in
                         (([ESleep 5; EAcquire; EGet aid] ++ evs)%list, o)) =
                    snd (poll_loop aid poll (S k) n))
      by (destruct (poll_loop aid poll (S k) n); reflexivity).
    destruct (poll k) as [msg|status b].
    + rewrite Hnext. apply IH.
    + destruct (negb (status =? 200)%Z); [rewrite Hnext; apply IH|].
      destruct (poll_body b) as [[r|]|e1] eqn:Eb.
      * discriminate.
      * rewrite Hnext. apply IH.
      * cbn [snd]. intros H. injection H as <-. left. exact (poll_body_raises _ _ Eb).
Qed.

(** [scan_url] fails as not configured exactly when [_get_api_key()] finds
    no key, and then before any request; a key that [api_key_available()]
    accepts always gets past that check. *)
Theorem scan_url_key_check (chk : string -> option string) (env_key : string)
  (submit : net_response) (poll : nat -> net_response) (url0 : string) :
  (snd (scan_url chk env_key submit poll url0) = runtime_error MSG_NOT_CONFIGURED <->
   get_api_key env_key = None) /\
  (get_api_key env_key = None -> fst (scan_url chk env_key submit poll url0) = []) /\
  (api_key_available env_key = true ->
   snd (scan_url chk env_key submit poll url0) <> runtime_error MSG_NOT_CONFIGURED).
Proof.
  assert (Hkey : get_api_key env_key = None <-> String.eqb (py_strip env_key) "" = true).
  { unfold get_api_key. destruct (String.eqb (py_strip env_key) ""); split; auto; discriminate. }
  assert (Hmain : String.eqb (py_strip env_key) "" = false ->
                  snd (scan_url chk env_key submit poll url0) <> runtime_error MSG_NOT_CONFIGURED).
  { intros Hk. unfold scan_url. rewrite Hk.
    destruct (normalize_url chk url0) as [url|e] eqn:En.
    2: { cbn [snd]. unfold runtime_error. intros H. injection H as H. pose proof (normalize_url_value_error _ _ _ En) as Hv.
         rewrite H in Hv. discriminate. }
    destruct submit as [msg|status b].
    - cbn [snd]. unfold runtime_error. intros H. injection H as H. discriminate.
    - destruct (status =? 401)%Z; [cbn; discriminate|].
      destruct (status =? 429)%Z; [cbn; discriminate|].
      destruct (negb _); [cbn [snd]; unfold runtime_error, MSG_SUBMISSION_FAILED; intros H; injection H as H; discriminate|].
      destruct (j <- resp_json b ;; d <- py_getitem j "data" ;; py_getitem d "id") as [aid|e] eqn:Ej.
      + destruct (poll_loop aid poll 0 12) as [evs o] eqn:Ep. cbn [snd].
        intros H. pose proof (poll_loop_raises aid poll 0 12) as Hp. rewrite Ep in Hp. cbn [snd] in Hp.
        rewrite H in Hp. destruct (Hp _ eq_refl) as [Hp'|Hp']; [|discriminate].
        destruct Hp' as [Hx|[Hx|Hx]]; discriminate Hx.
      + destruct (is_key_or_value_error e) eqn:Ekv; [cbn; discriminate|].
        cbn [snd]. unfold runtime_error. intros H. injection H as H. subst e.
        destruct (resp_json b) as [j|e1] eqn:E0; cbn [obind] in Ej.
        * destruct (py_getitem j "data") as [d|e1] eqn:E1; cbn [obind] in Ej.
          -- destruct (py_getitem_raises _ _ _ Ej) as [Ht|Ht]; discriminate Ht.
          -- injection Ej as Ej. subst e1. destruct (py_getitem_raises _ _ _ E1) as [Ht|Ht]; discriminate Ht.
        * injection Ej as Ej. subst e1. destruct b; cbn in E0; [injection E0 as E0; subst|]; discriminate. }
  split; [|split].
  - split.
    + intros H. apply Hkey. destruct (String.eqb (py_strip env_key) "") eqn:E; [reflexivity|].
      exfalso. exact (Hmain eq_refl H).
    + intros H. apply Hkey in H. unfold scan_url. rewrite H. reflexivity.
  - intros H. apply Hkey in H. unfold scan_url. rewrite H. reflexivity.
  - intros Ha. apply Hmain. unfold api_key_available, get_api_key in Ha.
    destruct (String.eqb (py_strip env_key) ""); [discriminate|reflexivity].
Qed.

Lemma poll_loop_stops (aid : json) (poll : nat -> net_response) (n k j : nat) (b : body)
  (o : outcome vt_result) :
  j < n ->
  (forall i, k <= i < k + j -> poll_pending (poll i) = true) ->
  poll (k + j) = Http 200 b -> poll_body b = omap Some o ->
  poll_loop aid poll k n = (List.concat (repeat [ESleep 5; EAcquire; EGet aid] (S j)), o).
Proof.
  revert k n. induction j as [|j IH]; intros k n Hj Hp Hk Hb.
  - destruct n as [|n]; [lia|]. cbn [poll_loop]. rewrite Nat.add_0_r in Hk. rewrite Hk.
    cbn [Z.eqb Pos.eqb negb]. rewrite Hb. destruct o; reflexivity.
  - destruct n as [|n]; [lia|]. cbn [poll_loop].
    rewrite (IH (S k) n); [| lia | intros i Hi; apply Hp; lia | rewrite <- Hk; f_equal; lia | exact Hb].
    specialize (Hp k ltac:(lia)). unfold poll_pending in Hp.
    destruct (poll k) as [msg|status b']; [reflexivity|].
    destruct (negb (status =? 200)%Z); [reflexivity|].
    destruct (poll_body b') as [[r|]|e]; cbn in Hp; [discriminate|reflexivity|discriminate].
Qed.

(** Once the submission gives an analysis id, [scan_url] ends at the first
    poll that is answered [200] and not pending: after [k] pending polls it
    has made [k + 1] rounds of a 5-second sleep, an acquisition and a GET,
    and its outcome is that of the answer of poll [k] ([_build_result] of the
    stats, or the exception raised on the way). *)
Theorem scan_url_poll_result (chk : string -> option string) (env_key url0 url : string)
  (status : Z) (j aid : json) (poll : nat -> net_response) (k : nat) (b : body)
  (o : outcome vt_result) :
  String.eqb (py_strip env_key) "" = false ->
  normalize_url chk url0 = Returns url ->
  ((status =? 200)%Z || (status =? 201)%Z) = true ->
  (d <- py_getitem j "data" ;; py_getitem d "id") = Returns aid ->
  k < 12 ->
  (forall i, i < k -> poll_pending (poll i) = true) ->
  poll k = Http 200 b -> poll_body b = omap Some o ->
  scan_url chk env_key (Http status (BodyJson j)) poll url0 =
    ((EAcquire :: EPost url :: List.concat (repeat [ESleep 5; EAcquire; EGet aid] (S k)))%list, o).
Proof.
  intros Hk Hn Hs Hj Hlt Hp Hpk Hb. unfold scan_url. rewrite Hk, Hn.
  assert (H401 : (status =? 401)%Z = false) by (apply Z.eqb_neq; intros ->; discriminate Hs).
  assert (H429 : (status =? 429)%Z = false) by (apply Z.eqb_neq; intros ->; discriminate Hs).
  rewrite H401, H429, Hs. cbn [negb resp_json obind].
  rewrite Hj. rewrite (poll_loop_stops aid poll 12 0 k b o); auto; intros i Hi; apply Hp; lia.
Qed.

(** A job that is queued at the first poll and completed at the second *)
Lemma scan_url_poll_result_witness :
  scan_url no_brackets "0123456789abcdef0123456789abcdef"
    (Http 200 (BodyJson (JObj [("data", JObj [("id", JStr "u-1")])])))
    (fun i => match i with
              | O => Http 200 (BodyJson (JObj [("data", JObj [("attributes", JObj [("status", JStr "queued")])])]))
              | _ => Http 200 (BodyJson (JObj [("data", JObj [("attributes",
                       JObj [("status", JStr "completed"); ("stats", witness_stats)])])]))
              end)
    "http://example.com/" =
    ((EAcquire :: EPost "http://example.com/" ::
      List.concat (repeat [ESleep 5; EAcquire; EGet (JStr "u-1")] 2))%list,
     build_result witness_stats).
Proof.
  eapply (scan_url_poll_result _ _ _ _ _ _ _ _ 1); try reflexivity; [lia|].
  intros i Hi. assert (i = 0) as -> by lia. reflexivity.
Defined.

Lemma poll_loop_first_step (aid : json) (poll : nat -> net_response) (k n : nat) :
  exists rest, fst (poll_loop aid poll k (S n)) = ESleep 5 :: EAcquire :: EGet aid :: rest.
Proof.
  cbn [poll_loop].
  destruct (poll_loop aid poll (S k) n) as [evs o].
  destruct (poll k) as [m|st b]; [eexists; reflexivity|].
  destruct (negb (st =? 200)%Z); [eexists; reflexivity|].
  destruct (poll_body b) as [[r|]|e]; eexists; reflexivity.
Qed.

(** With a configured key whose characters lie in U+0000..U+00FF (the
    ones [http.client] can encode in the [x-apikey] header; a key with a
    character beyond makes [requests.post] raise a [UnicodeEncodeError] that
    [except requests.RequestException] does not catch), once the URL is
    normalized, [scan_url] either stops right after the submission POST,
    with a [RuntimeError] or, only for a submission body that is JSON but
    not an object (or whose [data] is not an object), the [TypeError] of the
    subscript that its [except (KeyError, ValueError)] does not catch; or it
    goes on to poll, with a sleep, an acquisition and a GET of the
    analysis. *)
Theorem scan_url_after_submission (chk : string -> option string) (env_key url0 url : string)
  (submit : net_response) (poll : nat -> net_response) :
  String.eqb (py_strip env_key) "" = false ->
  normalize_url chk url0 = Returns url ->
  (exists e, scan_url chk env_key submit poll url0 = ([EAcquire; EPost url], Raises e) /\
     (exc_type e = RuntimeError \/
      (exc_type e = TypeError /\
       exists status j, submit = Http status (BodyJson j) /\
         (is_obj j = false \/ exists d, py_getitem j "data" = Returns d /\ is_obj d = false)))) \/
  (exists aid rest, fst (scan_url chk env_key submit poll url0) =
     EAcquire :: EPost url :: ESleep 5 :: EAcquire :: EGet aid :: rest).
Proof.
  intros Hk Hn. unfold scan_url. rewrite Hk, Hn.
  destruct submit as [msg|status b].
  { left. eexists. split; [reflexivity|]. left. reflexivity. }
  destruct (status =? 401)%Z; [left; eexists; split; [reflexivity|]; left; reflexivity|].
  destruct (status =? 429)%Z; [left; eexists; split; [reflexivity|]; left; reflexivity|].
  destruct (negb _); [left; eexists; split; [reflexivity|]; left; reflexivity|].
  destruct (j <- resp_json b ;; d <- py_getitem j "data" ;; py_getitem d "id") as [aid|e] eqn:Ej.
  - right. exists aid. destruct (poll_loop_first_step aid poll 0 11) as [rest Hr].
    destruct (poll_loop aid poll 0 12) as [evs o] eqn:Ep. cbn [fst] in Hr |- *.
    rewrite Hr. eexists. reflexivity.
  - destruct (is_key_or_value_error e) eqn:Ekv.
    + left. eexists. split; [reflexivity|]. left. reflexivity.
    + left. exists e. split; [reflexivity|]. right.
      destruct b as [bm|jv]; cbn [resp_json obind] in Ej.
      { injection Ej as <-. discriminate Ekv. }
      split.
      * destruct (py_getitem jv "data") as [d|e1] eqn:E1; cbn [obind] in Ej.
        -- destruct (py_getitem_raises _ _ _ Ej) as [Ht|Ht]; [|exact Ht].
           unfold is_key_or_value_error in Ekv. rewrite Ht in Ekv. discriminate.
        -- injection Ej as <-. destruct (py_getitem_raises _ _ _ E1) as [Ht|Ht]; [|exact Ht].
           unfold is_key_or_value_error in Ekv. rewrite Ht in Ekv. discriminate.
      * exists status, jv. split; [reflexivity|].
        destruct jv as [| | | | |kv]; try (left; reflexivity). right.
        cbn [py_getitem] in Ej |- *. destruct (assoc_last "data" kv) as [d|] eqn:Ed; cbn [obind] in Ej.
        -- exists d. split; [reflexivity|]. destruct d; try reflexivity.
           cbn in Ej. destruct (assoc_last "id" kv0); [discriminate|].
           injection Ej as <-. discriminate Ekv.
        -- injection Ej as <-. discriminate Ekv.
Qed.

(** [scan_url] never lets a [KeyError] escape: the subscripts of the
    submission body are guarded by its [except (KeyError, ValueError)], and
    the polls and [_build_result] only use [.get]. *)
Theorem scan_url_no_key_error (chk : string -> option string) (env_key : string)
  (submit : net_response) (poll : nat -> net_response) (url0 : string) (e : exc) :
  snd (scan_url chk env_key submit poll url0) = Raises e -> exc_type e <> KeyError.
Proof.
  unfold scan_url. destruct (String.eqb (py_strip env_key) ""); [cbn; intros H; injection H as <-; discriminate|].
  destruct (normalize_url chk url0) as [url|e'] eqn:En.
  2: { cbn [snd]. intros H. injection H as <-. rewrite (normalize_url_value_error _ _ _ En). discriminate. }
  destruct submit as [msg|status b]; [cbn; intros H; injection H as <-; discriminate|].
  destruct (status =? 401)%Z; [cbn; intros H; injection H as <-; discriminate|].
  destruct (status =? 429)%Z; [cbn; intros H; injection H as <-; discriminate|].
  destruct (negb _); [cbn; intros H; injection H as <-; discriminate|].
  destruct (j <- resp_json b ;; d <- py_getitem j "data" ;; py_getitem d "id") as [aid|e'] eqn:Ej.
  - destruct (poll_loop aid poll 0 12) as [evs o] eqn:Ep. cbn [snd]. intros H.
    pose proof (poll_loop_raises aid poll 0 12 e) as Hp. rewrite Ep in Hp. cbn [snd] in Hp.
    destruct (Hp H) as [[Ht|[Ht|Ht]]|Ht]; [rewrite Ht; discriminate..|subst e; discriminate].
  - destruct (is_key_or_value_error e') eqn:Ekv; [cbn; intros H; injection H as <-; discriminate|].
    cbn [snd]. intros H. injection H as <-. intros Ht. unfold is_key_or_value_error in Ekv.
    rewrite Ht in Ekv. discriminate.
Qed.

(** A submission answered 200 with a JSON list *)
Lemma scan_url_after_submission_witness :
  String.eqb (py_strip "0123456789abcdef0123456789abcdef") "" = false /\
  normalize_url no_brackets "example.com" = Returns "http://example.com/" /\
  ((exists e, scan_url no_brackets "0123456789abcdef0123456789abcdef" (Http 200 (BodyJson (JArr [])))
                (fun _ => NetError "unused") "example.com" =
              ([EAcquire; EPost "http://example.com/"], Raises e) /\
     (exc_type e = RuntimeError \/
      (exc_type e = TypeError /\
       exists status j, Http 200 (BodyJson (JArr [])) = Http status (BodyJson j) /\
         (is_obj j = false \/ exists d, py_getitem j "data" = Returns d /\ is_obj d = false)))) \/
   (exists aid rest, fst (scan_url no_brackets "0123456789abcdef0123456789abcdef"
                           (Http 200 (BodyJson (JArr []))) (fun _ => NetError "unused") "example.com") =
      EAcquire :: EPost "http://example.com/" :: ESleep 5 :: EAcquire :: EGet aid :: rest)).
Proof.
  split; [reflexivity|]. split; [reflexivity|].
  apply scan_url_after_submission; reflexivity.
Defined.

(** The same submission: its [TypeError] escapes [scan_url] *)
Lemma scan_url_no_key_error_witness :
  snd (scan_url no_brackets "0123456789abcdef0123456789abcdef" (Http 200 (BodyJson (JArr [])))
         (fun _ => NetError "unused") "example.com") =
    Raises (mk_exc TypeError "indices must be integers") /\
  exc_type (mk_exc TypeError "indices must be integers") <> KeyError.
Proof.
  split; [reflexivity|]. apply (scan_url_no_key_error no_brackets "0123456789abcdef0123456789abcdef"
    (Http 200 (BodyJson (JArr []))) (fun _ => NetError "unused") "example.com"). reflexivity.
Defined.

(** ** Properties: _build_result confidence and the rate limiter store *)

Lemma q_py_round_3_unit (x : Q) :
  (0 <= x <= 1)%Q -> (0 <= q_py_round x 3 <= 1)%Q.
Proof.
  intros [H0 H1]. unfold q_py_round.
  change (10 ^ Z.of_nat 3)%Z with 1000%Z.
  destruct (q_round_half_even_bounds 0 1000 (x * inject_Z 1000)) as [Hk0 Hk1].
  - change (inject_Z 0) with 0%Q. change (inject_Z 1000) with 1000%Q. Lqa.lra.
  - change (inject_Z 1000) with 1000%Q. Lqa.lra.
  - rewrite Zle_Qle in Hk0, Hk1. change (inject_Z 0) with 0%Q in Hk0.
    change (inject_Z 1000) with 1000%Q in *.
    set (k := inject_Z (q_round_half_even (x * 1000))) in *.
    split.
    + apply Qle_shift_div_l; [reflexivity|]. Lqa.lra.
    + apply Qle_shift_div_r; [reflexivity|]. Lqa.lra.
Qed.

Lemma q_py_round_zero (x : Q) (nd : nat) : (x == 0)%Q -> (q_py_round x nd == 0)%Q.
Proof.
  intros Hx. unfold q_py_round.
  assert (Hp : (0 < inject_Z (10 ^ Z.of_nat nd))%Q).
  { change 0%Q with (inject_Z 0). rewrite <- Zlt_Qlt. apply Z.pow_pos_nonneg; lia. }
  destruct (q_round_half_even_bounds 0 0 (x * inject_Z (10 ^ Z.of_nat nd))) as [Hk0 Hk1].
  - rewrite Hx. change (inject_Z 0) with 0%Q. Lqa.lra.
  - rewrite Hx. change (inject_Z 0) with 0%Q. Lqa.lra.
  - assert (q_round_half_even (x * inject_Z (10 ^ Z.of_nat nd)) = 0%Z) as -> by lia.
    change (inject_Z 0) with 0%Q. unfold Qdiv. rewrite Qmult_0_l. reflexivity.
Qed.

(** The confidence of a VirusTotal result: with non-negative counts it is
    [round(min(total_engines / 70, 1), 3)], so it lies in [[0, 1]] and is 1
    from 70 engines on; when the four counts add up to 0 (as for a missing
    [stats] dict) the total is taken as 1 engine, the risk score is 0 and the
    result is Safe. *)
Theorem build_result_confidence (stats : json) (r : vt_result) :
  build_result stats = Returns r ->
  (0 <= vt_malicious r)%Q -> (0 <= vt_suspicious r)%Q ->
  (0 <= vt_harmless r)%Q -> (0 <= vt_undetected r)%Q ->
  (0 <= vt_confidence r <= 1)%Q /\
  ((70 <= vt_total_engines r)%Q -> (vt_confidence r == 1)%Q) /\
  ((vt_malicious r + vt_suspicious r + vt_harmless r + vt_undetected r == 0)%Q ->
   (vt_total_engines r == 1)%Q /\ (vt_risk_score r == 0)%Q /\ vt_classification r = "Safe").
Proof.
  intros H. apply build_result_returns in H as (m & s & h & u & ->). cbn.
  intros Hm Hs Hh Hu.
  assert (Htot : (0 < (if Qeq_bool (m + s + h + u) 0 then 1 else m + s + h + u))%Q).
  { destruct (Qeq_bool (m + s + h + u) 0) eqn:E; [reflexivity|].
    apply Qnot_le_lt. intro Hle. apply Qeq_bool_neq in E. apply E. Lqa.lra. }
  set (tot := if Qeq_bool (m + s + h + u) 0 then 1%Q else (m + s + h + u)%Q) in *.
  split; [|split].
  - apply q_py_round_3_unit.
    destruct (qlt (tot / 70) 1) eqn:E.
    + apply qlt_true in E. split; [|Lqa.lra].
      apply Qle_shift_div_l; [reflexivity|]. Lqa.lra.
    + split; discriminate.
  - intros H70. assert (E : qlt (tot / 70) 1 = false).
    { apply qlt_false. apply Qle_shift_div_l; [reflexivity|]. Lqa.lra. }
    rewrite E. reflexivity.
  - intros H0. subst tot.
    assert (E : Qeq_bool (m + s + h + u) 0 = true) by (apply Qeq_bool_iff; exact H0).
    rewrite E. split; [reflexivity|].
    assert (Hr : (q_py_round ((m + s) / 1 * 100) 2 == 0)%Q).
    { apply q_py_round_zero. assert (Hms : (m + s == 0)%Q) by Lqa.lra.
      rewrite Hms. reflexivity. }
    split; [exact Hr|].
    unfold vt_classify. assert (E15 : qlt (q_py_round ((m + s) / 1 * 100) 2) 15 = true).
    { apply qlt_true. rewrite Hr. reflexivity. }
    rewrite E15. reflexivity.
Qed.

Lemma build_result_confidence_witness :
  build_result (JObj [("harmless", JNum 70); ("undetected", JNum 2)]) =
    Returns (build_result_numbers (JObj [("harmless", JNum 70); ("undetected", JNum 2)]) 0 0 70 2) /\
  (vt_confidence (build_result_numbers (JObj [("harmless", JNum 70); ("undetected", JNum 2)]) 0 0 70 2) == 1)%Q.
Proof.
  split; [reflexivity|].
  apply (build_result_confidence (JObj [("harmless", JNum 70); ("undetected", JNum 2)]));
    try reflexivity; try discriminate; cbn; Lqa.lra.
Defined.

(** ** The rate limiter's store *)
Lemma prune_at_most_4 (L adm : list Q) (clock now : Q) :
  limiter_run L adm clock -> (clock <= now)%Q ->
  List.length (prune now L) <= 4.
Proof.
  intros Hrun Hnow.
  destruct (limiter_run_inv _ _ _ Hrun) as (Hsort & Hle & Hsp & p & Hp & HL & _).
  destruct (Nat.le_gt_cases (List.length (prune now L)) 4) as [H|H]; [exact H|exfalso].
  unfold prune in H. destruct (filter_far_pair _ _ 4 H) as (i & j & Hij & Hi & _).
  subst L. rewrite length_skipn in Hij. rewrite nth_skipn in Hi.
  apply qlt_true in Hi. unfold RATE_WINDOW in Hi.
  specialize (Hsp (p + i) ltac:(lia)).
  specialize (Hsort (p + i + 4) (p + j) ltac:(lia)).
  specialize (Hle (p + j) ltac:(lia)). Lqa.lra.
Qed.

(** Each [_rate_limit_wait()] call of a run keeps at most 4 earlier
    timestamps after pruning, so [_request_times] never holds more than 5
    entries; and when the call sleeps, it sleeps more than 0 and at most
    60.5 seconds. *)
Theorem rate_limit_wait_bounded (L adm : list Q) (clock now : Q) :
  limiter_run L adm clock -> (clock <= now)%Q ->
  List.length L <= 5 /\ List.length (prune now L) <= 4 /\
  (forall st, sleep_time now (prune now L) = Some st -> (0 < st <= 121 # 2)%Q).
Proof.
  intros Hrun Hnow. split; [|split].
  - inversion Hrun as [c|L0 adm0 clock0 now0 t L' Hrun0 Hclock Hw]; [cbn; lia|].
    inversion Hw as [Hst]. rewrite length_app. cbn [List.length].
    pose proof (prune_at_most_4 _ _ _ _ Hrun0 Hclock). lia.
  - exact (prune_at_most_4 _ _ _ _ Hrun Hnow).
  - intros st. unfold sleep_time.
    destruct (RATE_LIMIT <=? List.length (prune now L)) eqn:E; [|discriminate].
    destruct (qlt 0 _) eqn:E0; [|discriminate]. intros Hs. injection Hs as <-.
    apply qlt_true in E0. split; [exact E0|].
    destruct (limiter_run_inv _ _ _ Hrun) as (_ & Hle & _ & p & _ & HL & _).
    destruct (prune now L) as [|t0 rest] eqn:Ep; [cbn in E; discriminate|].
    assert (Hin : In t0 L).
    { apply (filter_In (fun t => qlt (now - t) RATE_WINDOW) t0 L). fold (prune now L). rewrite Ep. left. reflexivity. }
    subst L. apply In_nth with (d := 0%Q) in Hin as (k & Hk & Hkt).
    rewrite length_skipn in Hk. rewrite nth_skipn in Hkt.
    specialize (Hle (p + k) ltac:(lia)). rewrite Hkt in Hle.
    cbn [hd]. unfold RATE_WINDOW. Lqa.lra.
Qed.

(** Four calls at times 0, 1, 2 and 3; a fifth at time 10 sleeps 50.5
    seconds and is admitted at 60.5; a sixth at 60.5 prunes the admission
    at 0 and sleeps 1 second. *)
Lemma rate_limit_wait_bounded_witness :
  limiter_run [0; 1; 2; 3; 121 # 2]%Q [0; 1; 2; 3; 121 # 2]%Q (121 # 2) /\
  prune (121 # 2) [0; 1; 2; 3; 121 # 2]%Q = [1; 2; 3; 121 # 2]%Q /\
  (exists st, sleep_time (121 # 2) (prune (121 # 2) [0; 1; 2; 3; 121 # 2]%Q) = Some st /\
     (st == 1)%Q /\ (0 < st <= 121 # 2)%Q).
Proof.
  assert (R : limiter_run [0; 1; 2; 3; 121 # 2]%Q [0; 1; 2; 3; 121 # 2]%Q (121 # 2)).
  { apply (run_call [0; 1; 2; 3]%Q [0; 1; 2; 3]%Q 3 10 (121 # 2)); [| vm_compute; discriminate |].
    2: { apply rlw_call. vm_compute. discriminate. }
    apply (run_call [0; 1; 2]%Q [0; 1; 2]%Q 2 3 3); [| vm_compute; discriminate |].
    2: { apply rlw_call. vm_compute. discriminate. }
    apply (run_call [0; 1]%Q [0; 1]%Q 1 2 2); [| vm_compute; discriminate |].
    2: { apply rlw_call. vm_compute. discriminate. }
    apply (run_call [0]%Q [0]%Q 0 1 1); [| vm_compute; discriminate |].
    2: { apply rlw_call. vm_compute. discriminate. }
    apply (run_call [] [] 0 0 0); [| vm_compute; discriminate |].
    2: { apply rlw_call. vm_compute. discriminate. }
    exact (run_start 0). }
  split; [exact R|]. split; [vm_compute; reflexivity|].
  eexists. split; [vm_compute; reflexivity|]. split; [vm_compute; reflexivity|].
  apply (proj2 (proj2 (rate_limit_wait_bounded _ _ _ (121 # 2) R (Qle_refl _)))).
  vm_compute. reflexivity.
Defined.

(** ** Properties: _risk_color, ml_engine.predict and the order of engines *)

Lemma vt_classification_eq (stats : json) (r : vt_result) :
  build_result stats = Returns r -> vt_classification r = vt_classify (vt_risk_score r).
Proof. intros H. apply build_result_returns in H as (m & s & h & u & ->). reflexivity. Qed.

(** [_display_result] colours the classification card and the gauge with
    [_risk_color] of the risk score, whose thresholds are 30 and 65, while a
    VirusTotal result is classified with 15 and 50: a VirusTotal risk score
    from 15 below 30 is shown "Suspicious" in the colour of safe results, and
    one from 50 below 65 "Phishing" in the amber of suspicious ones. *)
Theorem vt_display_color (stats : json) (r : vt_result) :
  build_result stats = Returns r ->
  ((15 <= vt_risk_score r < 30)%Q ->
   vt_classification r = "Suspicious" /\ risk_color (vt_risk_score r) = SUCCESS) /\
  ((50 <= vt_risk_score r < 65)%Q ->
   vt_classification r = "Phishing" /\ risk_color (vt_risk_score r) = WARNING).
Proof.
  intros H. rewrite (vt_classification_eq _ _ H).
  set (x := vt_risk_score r). unfold vt_classify, risk_color.
  split; intros [H1 H2].
  - rewrite (proj2 (qlt_false x 15) H1), (proj2 (qlt_true x 50) ltac:(Lqa.lra)),
      (proj2 (qlt_true x 30) H2). split; reflexivity.
  - rewrite (proj2 (qlt_false x 15) ltac:(Lqa.lra)), (proj2 (qlt_false x 50) H1),
      (proj2 (qlt_false x 30) ltac:(Lqa.lra)), (proj2 (qlt_true x 65) H2). split; reflexivity.
Qed.

(** Statistics [{malicious: 1, harmless: 4}]: a risk score of 20 *)
Lemma vt_display_color_witness :
  build_result (JObj [("malicious", JNum 1); ("harmless", JNum 4)]) =
    Returns (build_result_numbers (JObj [("malicious", JNum 1); ("harmless", JNum 4)]) 1 0 4 0) /\
  vt_classification (build_result_numbers (JObj [("malicious", JNum 1); ("harmless", JNum 4)]) 1 0 4 0)
    = "Suspicious" /\
  risk_color (vt_risk_score (build_result_numbers (JObj [("malicious", JNum 1); ("harmless", JNum 4)]) 1 0 4 0))
    = SUCCESS.
Proof.
  split; [reflexivity|].
  apply (vt_display_color (JObj [("malicious", JNum 1); ("harmless", JNum 4)])); [reflexivity|].
  split; vm_compute; first [reflexivity | discriminate].
Defined.

Lemma q_py_round_bounds (x : Q) (nd : nat) (a b : Z) :
  (inject_Z a <= x * inject_Z (10 ^ Z.of_nat nd) <= inject_Z b)%Q ->
  (inject_Z a / inject_Z (10 ^ Z.of_nat nd) <= q_py_round x nd <=
   inject_Z b / inject_Z (10 ^ Z.of_nat nd))%Q.
Proof.
  intros [Ha Hb]. unfold q_py_round.
  assert (Hp : (0 < inject_Z (10 ^ Z.of_nat nd))%Q).
  { change 0%Q with (inject_Z 0). rewrite <- Zlt_Qlt. apply Z.pow_pos_nonneg; lia. }
  destruct (q_round_half_even_bounds a b _ Ha Hb) as [H0 H1].
  rewrite Zle_Qle in H0, H1.
  set (k := inject_Z (q_round_half_even (x * inject_Z (10 ^ Z.of_nat nd)))) in *.
  set (p := inject_Z (10 ^ Z.of_nat nd)) in *.
  split; apply Qmult_le_compat_r; try assumption; apply Qlt_le_weak, Qinv_lt_0_compat, Hp.
Qed.

(** [predict]'s scores for a phishing probability in [[0, 1]]: the risk
    score [round(p * 100, 2)] lies in [[0, 100]], the confidence
    [round(max(p, 1 - p), 3)] in [[0.5, 1]], and the classification is read
    off the rounded risk score with the thresholds 30 and 65 that
    [_risk_color] uses, so the scanner shows each class in its own colour. *)
Theorem ml_predict_scores (p : Q) :
  (0 <= p <= 1)%Q ->
  let r := ml_scores p in
  (0 <= ml_risk_score r <= 100)%Q /\ (1 # 2 <= ml_confidence r <= 1)%Q /\
  (ml_classification r = "Safe" <-> risk_color (ml_risk_score r) = SUCCESS) /\
  (ml_classification r = "Suspicious" <-> risk_color (ml_risk_score r) = WARNING) /\
  (ml_classification r = "Phishing" <-> risk_color (ml_risk_score r) = DANGER).
Proof.
  intros [H0 H1] r. subst r. unfold ml_scores. cbn [ml_risk_score ml_confidence ml_classification].
  split; [|split].
  - pose proof (q_py_round_bounds (p * 100) 2 0 10000) as Hb.
    change (10 ^ Z.of_nat 2)%Z with 100%Z in Hb.
    change (inject_Z 100) with 100%Q in Hb. change (inject_Z 0) with 0%Q in Hb.
    change (inject_Z 10000) with 10000%Q in Hb.
    destruct (Hb ltac:(split; Lqa.lra)) as [Hb0 Hb1].
    split; [eapply Qle_trans; [|exact Hb0]; discriminate|eapply Qle_trans; [exact Hb1|discriminate]].
  - pose proof (q_py_round_bounds (Qmax p (1 - p)) 3 500 1000) as Hb.
    change (10 ^ Z.of_nat 3)%Z with 1000%Z in Hb.
    change (inject_Z 1000) with 1000%Q in Hb. change (inject_Z 500) with 500%Q in Hb.
    assert (Hm : (1 # 2 <= Qmax p (1 - p) <= 1)%Q).
    { pose proof (Q.le_max_l p (1 - p)). pose proof (Q.le_max_r p (1 - p)).
      split; [Lqa.lra|]. apply Q.max_lub; Lqa.lra. }
    destruct (Hb ltac:(split; Lqa.lra)) as [Hb0 Hb1].
    split; [eapply Qle_trans; [|exact Hb0]; discriminate|eapply Qle_trans; [exact Hb1|discriminate]].
  - set (x := q_py_round (p * 100) 2). unfold ml_classify, risk_color.
    destruct (qlt x 30); [|destruct (qlt x 65)];
      (repeat split; intros Hc; try reflexivity; unfold SUCCESS, WARNING, DANGER in *; discriminate Hc).
Qed.

Lemma ml_predict_scores_witness :
  (0 <= 9 # 10 <= 1)%Q /\ (1 # 2 <= ml_confidence (ml_scores (9 # 10)) <= 1)%Q.
Proof.
  assert (H : (0 <= 9 # 10 <= 1)%Q) by (split; discriminate).
  split; [exact H|]. exact (proj1 (proj2 (ml_predict_scores (9 # 10) H))).
Defined.

Lemma dict_set_nonempty (V : Type) (k : string) (v : V) (d : list (string * V)) :
  dict_empty V (dict_set V k v d) = false.
Proof.
  destruct d as [|[k' v'] r]; [reflexivity|]. cbn [dict_set].
  destruct (String.eqb k k'); reflexivity.
Qed.

(** [_run_scan]'s order of engines: a non-empty VirusTotal dict is emitted
    as it is, without the model or the heuristic; when VirusTotal is not
    used or fails and the model gives a non-empty dict, that dict is emitted
    with [api_used] set to [False], without the heuristic; in both cases an
    exception of the database write replaces the result by the error dict. *)
Theorem run_scan_strategy (V : Type) (py_int : Z -> V) (py_str : string -> V)
  (py_bool : bool -> V) (py_list : list V -> V) (py_dict : list (string * V) -> V)
  (key_available : bool) (scan : outcome (list (string * V))) (model_ok : bool)
  (ml : outcome (option (list (string * V)))) (heuristic : outcome (list (string * V)))
  (insert_scan : list (string * V) -> outcome unit) :
  (forall r, key_available = true -> scan = Returns r -> r <> [] ->
   run_scan V py_int py_str py_bool py_list py_dict key_available scan model_ok ml heuristic
     insert_scan =
   match insert_scan r with
   | Returns _ => r
   | Raises e => error_dict V py_int py_str py_list py_dict e
   end) /\
  (forall d, (key_available = false \/ exists e, scan = Raises e) ->
   model_ok = true -> ml = Returns (Some d) -> d <> [] ->
   run_scan V py_int py_str py_bool py_list py_dict key_available scan model_ok ml heuristic
     insert_scan =
   match insert_scan (dict_set V "api_used" (py_bool false) d) with
   | Returns _ => dict_set V "api_used" (py_bool false) d
   | Raises e => error_dict V py_int py_str py_list py_dict e
   end).
Proof.
  assert (Hne : forall (d : list (string * V)), d <> [] -> dict_empty V d = false)
    by (intros [|x l] H; [congruence|reflexivity]).
  split.
  - intros r -> -> Hr. unfold run_scan. cbv zeta. rewrite (Hne r Hr). cbn [andb obind].
    rewrite (Hne r Hr). cbn [obind]. destruct (insert_scan r); reflexivity.
  - intros d Hscan -> -> Hd. unfold run_scan. cbv zeta.
    assert (Hd' := Hne d Hd).
    destruct Hscan as [-> | [e ->]]; [|destruct key_available];
      cbn [dict_empty andb obind]; rewrite Hd'; cbn [obind];
      rewrite dict_set_nonempty; cbn [obind];
      destruct (insert_scan _); reflexivity.
Qed.

(** ** Properties: RiskGauge *)

Lemma decay_nonneg (k : nat) : (0 <= decay k)%Q.
Proof. induction k as [|k IH]; cbn [decay]; [discriminate|]. Lqa.lra. Qed.

Lemma gauge_ticks_stopped (n : nat) (g : gauge) :
  g_running g = false -> gauge_ticks n g = g.
Proof.
  intros H. induction n as [|n IH]; [reflexivity|]. cbn [gauge_ticks]. unfold gauge_tick.
  rewrite H. exact IH.
Qed.

Lemma gauge_ticks_S (n : nat) (g : gauge) : gauge_ticks (S n) g = gauge_tick (gauge_ticks n g).
Proof. revert g. induction n as [|n IH]; intros g; [reflexivity|]. cbn [gauge_ticks] in *. apply IH. Qed.

Lemma gauge_invariant (g : gauge) (k : nat) :
  (0 <= g_score g <= 100)%Q -> (0 <= g_target g <= 100)%Q ->
  let g' := gauge_ticks k g in
  g_target g' = g_target g /\ g_label g' = g_label g /\ (0 <= g_score g' <= 100)%Q /\
  ((g_running g' = false /\ g_score g' = g_target g') \/
   (g_running g' = true /\ Qabs (g_target g' - g_score g') <= decay k)%Q \/
   (g_running g' = false /\ g_running g = false)).
Proof.
  intros Hs Ht. induction k as [|k IH]; cbv zeta in *.
  - cbn [gauge_ticks]. repeat split; try Lqa.lra. destruct (g_running g) eqn:E.
    + right; left. split; [reflexivity|]. apply Qabs_Qle_condition. cbn. split; Lqa.lra.
    + right; right. split; reflexivity.
  - rewrite gauge_ticks_S. set (h := gauge_ticks k g) in *.
    destruct IH as (Eq_t & Eq_l & [Hh0 Hh1] & Hr).
    unfold gauge_tick. destruct (g_running h) eqn:Er.
    2: { repeat split; try Lqa.lra; try assumption.
         rewrite Er. destruct Hr as [Hr|[[Hr _]|Hr]]; [left; exact Hr|discriminate Hr|right; right; exact Hr]. }
    destruct Hr as [[Hr _]|[[_ Hr]|[Hr _]]]; try congruence.
    unfold animate. destruct (qlt (Qabs (g_target h - g_score h)) (1 # 2)) eqn:Eq.
    + cbn [g_target g_label g_score g_running]. repeat split; try assumption; try (rewrite Eq_t; Lqa.lra).
      left. split; reflexivity.
    + cbn [g_target g_label g_score g_running decay].
      apply qlt_false in Eq. apply Qabs_Qle_condition in Hr.
      rewrite Eq_t in *.
      repeat split; try assumption.
      * destruct (Qlt_le_dec (g_target g) (g_score h)).
        -- rewrite Qabs_neg in Eq by Lqa.lra. Lqa.lra.
        -- Lqa.lra.
      * destruct (Qlt_le_dec (g_target g) (g_score h)).
        -- Lqa.lra.
        -- rewrite Qabs_pos in Eq by Lqa.lra. Lqa.lra.
      * right; left. split; [exact Er|]. apply Qabs_Qle_condition. split; Lqa.lra.
Qed.

(** After [set_score(score, label)] on a gauge showing a score in
    [[0, 100]], the shown score stays in [[0, 100]] and, within 43 timeouts
    of the 16 ms timer, the animation lands exactly on the clamped target
    [max(0, min(100, score))] and stops the timer. *)
Theorem gauge_settles (g : gauge) (score : Q) (label : string) :
  (0 <= g_score g <= 100)%Q ->
  (forall n, 0 <= g_score (gauge_ticks n (set_score g score label)) <= 100)%Q /\
  g_score (gauge_ticks 43 (set_score g score label)) = Qmax 0 (Qmin 100 score) /\
  g_label (gauge_ticks 43 (set_score g score label)) = label /\
  g_running (gauge_ticks 43 (set_score g score label)) = false.
Proof.
  intros Hs.
  set (g0 := set_score g score label).
  assert (Ht : (0 <= g_target g0 <= 100)%Q).
  { cbn. split; [apply Q.le_max_l|]. apply Q.max_lub; [discriminate|apply Q.le_min_l]. }
  assert (Hs0 : (0 <= g_score g0 <= 100)%Q) by exact Hs.
  split; [intros n; exact (proj1 (proj2 (proj2 (gauge_invariant g0 n Hs0 Ht))))|].
  change (Qmax 0 (Qmin 100 score)) with (g_target g0). change label with (g_label g0).
  rewrite gauge_ticks_S.
  destruct (gauge_invariant g0 42 Hs0 Ht) as (Eq_t & Eq_l & _ & Hr).
  set (h := gauge_ticks 42 g0) in *.
  unfold gauge_tick.
  destruct Hr as [[Er Hr]|[[Er Hr]|[_ Er]]]; [| |discriminate Er].
  - rewrite Er. rewrite Hr, Eq_t, Eq_l. repeat split; assumption.
  - rewrite Er. assert (Hd : (decay 42 < 1 # 2)%Q) by (vm_compute; reflexivity).
    unfold animate. rewrite (proj2 (qlt_true (Qabs (g_target h - g_score h)) (1 # 2)) ltac:(Lqa.lra)).
    cbn [g_score g_label g_running g_target]. rewrite Eq_t, Eq_l. repeat split.
Qed.

(** A gauge just built, set to 87.5 *)
Lemma gauge_settles_witness :
  (0 <= g_score gauge_init <= 100)%Q /\
  g_score (gauge_ticks 43 (set_score gauge_init (175 # 2) "Phishing")) = Qmax 0 (Qmin 100 (175 # 2)).
Proof.
  assert (H : (0 <= g_score gauge_init <= 100)%Q) by (split; discriminate).
  split; [exact H|]. exact (proj1 (proj2 (gauge_settles gauge_init (175 # 2) "Phishing" H))).
Defined.

(** ** Properties: ScannerTab._start_scan and _display_result *)

(** The [_scanning] flag keeps at most one [_run_scan] worker at a time: in
    every state the tab reaches, at most one worker is pending, [_scanning]
    holds exactly when one is, and [scan_btn] is enabled exactly when it
    does not.  [_start_scan] starts a worker only on a non-blank URL while no
    scan is running, and then the one worker, [_scanning] set, [scan_btn]
    disabled and an INFO line; otherwise it only logs a warning, leaving
    [_scanning], [scan_btn] and the workers as they are. *)
Theorem scan_tab_one_at_a_time (t : tab) :
  tab_reachable t ->
  t_pending t <= 1 /\ (t_scanning t = true <-> t_pending t = 1) /\
  t_btn_enabled t = negb (t_scanning t) /\
  (forall text, t_pending (start_scan t text) <> t_pending t <->
     py_strip text <> "" /\ t_scanning t = false) /\
  (forall text, py_strip text <> "" -> t_scanning t = false ->
     t_scanning (start_scan t text) = true /\ t_btn_enabled (start_scan t text) = false /\
     t_pending (start_scan t text) = 1 /\
     t_log (start_scan t text) = ("Starting scan: " ++ py_strip text, "INFO") :: t_log t) /\
  (forall text, py_strip text = "" \/ t_scanning t = true ->
     t_scanning (start_scan t text) = t_scanning t /\
     t_btn_enabled (start_scan t text) = t_btn_enabled t /\
     t_pending (start_scan t text) = t_pending t /\
     exists msg, t_log (start_scan t text) = (msg, "WARN") :: t_log t).
Proof.
  assert (Hinv : forall t, tab_reachable t ->
            t_pending t <= 1 /\ (t_scanning t = true <-> t_pending t = 1) /\
            t_btn_enabled t = negb (t_scanning t)).
  { clear t. induction 1 as [|t t' Hr IH Hs].
    - cbn. repeat split; try lia; discriminate.
    - destruct IH as (H1 & H2 & H3). destruct Hs as [t text|t Hp].
      + unfold start_scan. destruct (String.eqb (py_strip text) "");
          [cbn; auto|]. destruct (t_scanning t) eqn:E; cbn; [auto|].
        assert (H0 : t_pending t = 0).
        { destruct (t_pending t) as [|n] eqn:Ep; [reflexivity|].
          assert (Hn : S n = 1) by lia. apply H2 in Hn. discriminate. }
        rewrite H0. repeat split; lia.
      + cbn. repeat split; try lia; try discriminate. }
  intros Hr. destruct (Hinv t Hr) as (H1 & H2 & H3).
  split; [exact H1|]. split; [exact H2|]. split; [exact H3|]. split; [|split].
  - intros text. split.
    + unfold start_scan. destruct (String.eqb (py_strip text) "") eqn:E; cbn [t_pending].
      * intros H; congruence.
      * destruct (t_scanning t); cbn [t_pending]; [intros H; congruence|].
        intros _. split; [intros Hx; rewrite Hx in E; discriminate E|reflexivity].
    + intros [Hne Hs]. unfold start_scan.
      destruct (String.eqb (py_strip text) "") eqn:E; [apply String.eqb_eq in E; congruence|].
      rewrite Hs. cbn. lia.
  - intros text Hne Hs. unfold start_scan.
    destruct (String.eqb (py_strip text) "") eqn:E; [apply String.eqb_eq in E; congruence|].
    rewrite Hs. cbn [t_scanning t_btn_enabled t_pending t_log].
    assert (H0 : t_pending t = 0).
    { destruct (t_pending t) as [|n] eqn:Ep; [reflexivity|].
      assert (Hn : S n = 1) by lia. apply H2 in Hn. congruence. }
    rewrite H0. repeat split.
  - intros text Hw. unfold start_scan.
    destruct (String.eqb (py_strip text) "") eqn:E.
    + cbn [t_scanning t_btn_enabled t_pending t_log]. repeat split. eexists. reflexivity.
    + destruct Hw as [Hw|Hw]; [rewrite Hw in E; discriminate E|].
      rewrite Hw. cbn [t_scanning t_btn_enabled t_pending t_log]. repeat split. eexists. reflexivity.
Qed.

(** The tab after a click on [example.com] *)
Lemma scan_tab_one_at_a_time_witness :
  tab_reachable (start_scan tab_init "example.com") /\
  t_pending (start_scan tab_init "example.com") <= 1.
Proof.
  assert (H : tab_reachable (start_scan tab_init "example.com"))
    by (apply (reach_step tab_init); [constructor|constructor]).
  split; [exact H|]. exact (proj1 (scan_tab_one_at_a_time _ H)).
Defined.

(** ** Properties: the scans table of db_manager *)


Lemma max_id_le (rows : list scan_row) (n : Z) :
  (0 <= n)%Z -> (forall r, In r rows -> (row_id r <= n)%Z) -> (max_id rows <= n)%Z.
Proof.
  intros Hn. induction rows as [|x l IH]; intros H; cbn; [lia|].
  apply Z.max_lub; [apply H; left; reflexivity|apply IH; intros r Hr; apply H; right; exact Hr].
Qed.

Lemma insert_id (db : scans_db) (n : nat) u rs c cf a e rs' :
  db_inv db n -> snd (insert_scan db u rs c cf a e rs') = Z.of_nat (S n).
Proof.
  intros (Hs & Hr & _). cbn. rewrite Hs.
  rewrite Z.max_l by (apply max_id_le; [lia|intros r Hin; apply (Hr r Hin)]). lia.
Qed.

Lemma db_inv_run (ops : list db_op) (db : scans_db) (n : nat) :
  db_inv db n -> db_inv (fold_left apply_op ops db) (n + count_inserts ops).
Proof.
  revert db n. induction ops as [|op ops IH]; intros db n H.
  - cbn. rewrite Nat.add_0_r. exact H.
  - cbn [fold_left]. destruct op as [u rs c cf a e rs'|].
    + unfold count_inserts. cbn [filter List.length]. rewrite <- Nat.add_succ_comm.
      apply IH. pose proof (insert_id db n u rs c cf a e rs' H) as Hid.
      destruct H as (Hs & Hr & Hnd). cbn [apply_op]. unfold insert_scan in *. cbn [snd] in Hid.
      rewrite Hid. cbn [fst]. unfold db_inv. cbn [db_seq db_rows].
      split; [reflexivity|]. split.
      * intros r Hin. apply in_app_or in Hin as [Hin|[<-|[]]].
        -- destruct (Hr r Hin) as [H1 H2]. split; [lia|exact H2].
        -- cbn. split; [lia|]. destruct a; [right|left]; reflexivity.
      * rewrite map_app. apply NoDup_app; [exact Hnd|constructor; [intros []|constructor]|].
        intros x Hx Hy. destruct Hy as [Hy|[]]. cbn [row_id] in Hy.
        apply in_map_iff in Hx as (r & Hrx & Hin). destruct (Hr r Hin) as [[_ H1] _]. lia.
    + apply IH. destruct H as (Hs & _ & _). unfold db_inv. cbn. split; [exact Hs|]. split; [intros r []|constructor].
Qed.

Lemma sort_desc_head (r : scan_row) (l : list scan_row) :
  (forall x, In x l -> (row_id x < row_id r)%Z) ->
  exists rest, sort_desc (l ++ [r]) = r :: rest.
Proof.
  unfold sort_desc. rewrite fold_right_app. cbn [fold_right insert_desc].
  induction l as [|x l IH]; intros H; [exists []; reflexivity|].
  cbn [fold_right]. destruct IH as [rest ->]; [intros y Hy; apply H; right; exact Hy|].
  cbn [insert_desc]. assert (Hx := H x (or_introl eq_refl)).
  destruct (row_id r <? row_id x)%Z eqn:E; [apply Z.ltb_lt in E; lia|].
  eexists. reflexivity.
Qed.

Lemma api_split (rows : list scan_row) :
  (forall r, In r rows -> row_api_used r = 0 \/ row_api_used r = 1)%Z ->
  List.length (filter (fun r => (row_api_used r =? 1)%Z) rows) +
  List.length (filter (fun r => (row_api_used r =? 0)%Z) rows) = List.length rows.
Proof.
  induction rows as [|x l IH]; intros H; [reflexivity|].
  cbn [filter List.length]. rewrite <- IH by (intros r Hr; apply H; right; exact Hr).
  destruct (H x (or_introl eq_refl)) as [E|E]; rewrite E; cbn; lia.
Qed.

(** The [scans] table under any sequence of [insert_scan] and
    [clear_all_scans] calls from its creation: the [n]-th [insert_scan]
    returns the id [n], so no id is ever handed out twice, even after the
    table is cleared; the ids in the table are distinct; the two counts of
    [get_api_usage_ratio] add up to [get_scan_count], since [api_used] is
    stored as 1 or 0; [clear_all_scans] returns [get_scan_count] and
    empties the table; and right after an [insert_scan], [get_recent_scans]
    with a positive limit starts with the new row. *)
Theorem scans_table_ids (ops : list db_op) (url : string) (risk_score : Q)
  (classification : string) (confidence : Q) (api_used : bool) (engine reasoning : string) :
  let db := run_db ops in
  let '(db', id) := insert_scan db url risk_score classification confidence api_used engine reasoning in
  id = Z.of_nat (S (count_inserts ops)) /\
  NoDup (map row_id (db_rows db)) /\
  fst (get_api_usage_ratio db) + snd (get_api_usage_ratio db) = get_scan_count db /\
  snd (clear_all_scans db) = get_scan_count db /\ get_scan_count (fst (clear_all_scans db)) = 0 /\
  (forall limit, 1 <= limit ->
     exists r rest, get_recent_scans db' limit = r :: rest /\ row_id r = id /\ row_url r = url).
Proof.
  cbv zeta. pose proof (db_inv_run ops db_empty 0 ltac:(split; [reflexivity|split; [intros r0 []|constructor]]))
    as Hinv. cbn [Nat.add] in Hinv. fold (run_db ops) in Hinv.
  set (db := run_db ops) in *.
  pose proof (insert_id db (count_inserts ops) url risk_score classification confidence api_used
                engine reasoning Hinv) as Hid.
  destruct (insert_scan db url risk_score classification confidence api_used engine reasoning)
    as [db' id] eqn:Ei. cbn [snd] in Hid.
  destruct Hinv as (Hs & Hr & Hnd).
  split; [exact Hid|]. split; [exact Hnd|]. split.
  { unfold get_api_usage_ratio, get_scan_count. cbn [fst snd].
    apply api_split. intros r Hin. exact (proj2 (Hr r Hin)). }
  split; [reflexivity|]. split; [reflexivity|].
  intros limit Hl. unfold insert_scan in Ei. injection Ei as <- <-.
  unfold get_recent_scans. cbn [db_rows].
  destruct (sort_desc_head
              (mk_row (Z.max (db_seq db) (max_id (db_rows db)) + 1) url (q_py_round risk_score 2)
                 classification (q_py_round confidence 2) (if api_used then 1 else 0)%Z engine reasoning)
              (db_rows db)) as [rest Hsd].
  { intros x Hx. cbn [row_id]. destruct (Hr x Hx) as [[_ H1] _].
    pose proof (Z.le_max_l (db_seq db) (max_id (db_rows db))). lia. }
  rewrite Hsd. destruct limit as [|l]; [lia|]. cbn [firstn].
  do 2 eexists. split; [reflexivity|]. split; reflexivity.
Qed.
